(** * Batched top-k ranking with exclusion masking, and transaction dropout

    A shallow embedding of
    - [ptls/data_load/augmentations/dropout_trx.py] ([DropoutTrx.get_idx]),
    - [opends/tinkoff_stories_recsys/models.py] ([StoriesRecModel],
      [PopularModel], [ALSModel], the two margin ranking losses,
      [MixedEmbedding], [RunningAverageItem]).

    A raised exception is [None]. Finite scores are rationals ([Q]); the
    masking expression is also given on IEEE-754 binary32 numbers
    ([Float32]), and the double-precision computations of
    [DropoutTrx.get_idx] and of the low-frequency cut of
    [PopularModel.model_train] are modelled bit-exactly on [spec_float]. *)

From Stdlib Require Import ZArith QArith Qround Qpower List Bool Lia Lqa.
From Stdlib Require Import Permutation Sorted.
From Stdlib Require Import Floats.SpecFloat.
Import ListNotations.

Set Implicit Arguments.
Close Scope Q_scope.

(* ================================================================== *)
(** * Definitions *)
(* ================================================================== *)

(** ** Small list utilities shared by the models *)

(** [np.arange(n)]: the indices [0, 1, ..., n-1]; empty when [n <= 0]. *)
Definition arange (n : Z) : list Z := map Z.of_nat (seq 0 (Z.to_nat n)).

(** Insertion into an ascending list, and [np.sort] on integer arrays. *)
Fixpoint insert_asc (x : Z) (l : list Z) : list Z :=
  match l with
  | [] => [x]
  | y :: t => if (x <=? y)%Z then x :: l else y :: insert_asc x t
  end.

Definition np_sort (l : list Z) : list Z := fold_right insert_asc [] l.

(** ** DropoutTrx *)

Module DropoutTrx.

(** Python floats are IEEE-754 binary64. *)
Definition prec : Z := 53.
Definition emax : Z := 1024.
Definition float := spec_float.

(** [float(n)] for a Python int (round to nearest even). *)
Definition of_int (n : Z) : float := binary_normalize prec emax n 0 false.
Definition fsub : float -> float -> float := SFsub prec emax.
Definition fmul : float -> float -> float := SFmul prec emax.
Definition fadd : float -> float -> float := SFadd prec emax.
Definition fdiv : float -> float -> float := SFdiv prec emax.
Definition fltb : float -> float -> bool := SFltb.

(** [int(x)]: truncation toward zero; raises on infinities and NaN. *)
Definition int_of_float (x : float) : option Z :=
  match x with
  | S754_zero _ => Some 0%Z
  | S754_finite s m e =>
      Some (cond_Zopp s
              (match e with
               | Z0 => Zpos m
               | Zpos p => Zpos m * 2 ^ Zpos p
               | Zneg p => Zpos m / 2 ^ Zpos p
               end))%Z
  | S754_infinity _ | S754_nan => None
  end.

(** [np.random.choice(seq_len, size=size, replace=False)]: the first [size]
    entries of a random permutation [perm] of [arange(seq_len)]; raises
    ValueError when [size] is negative or exceeds the population. *)
Definition choice (perm : list Z) (seq_len size : Z) : option (list Z) :=
  if ((size <? 0) || (seq_len <? size))%Z then None
  else Some (firstn (Z.to_nat size) perm).

(** The body of [get_idx], with the truth value of [trx_dropout > 0] and the
    value of [int(seq_len * (1 - trx_dropout) + 1)] supplied by the
    arithmetic in use. *)
Definition get_idx_sized (dropout_pos : bool) (size : option Z)
           (perm : list Z) (seq_len : Z) : option (list Z) :=
  if (dropout_pos && (0 <? seq_len)%Z)%bool then
    match size with
    | Some s => option_map np_sort (choice perm seq_len s)
    | None => None
    end
  else Some (arange seq_len).

(** [int(seq_len * (1 - self.trx_dropout) + 1)] in double precision. *)
Definition sample_size (trx_dropout : float) (seq_len : Z) : option Z :=
  int_of_float
    (fadd (fmul (of_int seq_len) (fsub (of_int 1) trx_dropout)) (of_int 1)).

(** [DropoutTrx.get_idx] as the interpreter runs it. [None] is a raised
    exception. *)
Definition get_idx (trx_dropout : float) (perm : list Z) (seq_len : Z)
  : option (list Z) :=
  get_idx_sized (fltb (of_int 0) trx_dropout)
                (sample_size trx_dropout seq_len) perm seq_len.

(** The same expression evaluated without rounding. *)
Definition sample_size_exact (trx_dropout : Q) (seq_len : Z) : Z :=
  Qfloor (inject_Z seq_len * (1 - trx_dropout) + 1)%Q.

Definition get_idx_exact (trx_dropout : Q) (perm : list Z) (seq_len : Z)
  : option (list Z) :=
  get_idx_sized (if Qlt_le_dec 0%Q trx_dropout then true else false)
                (Some (sample_size_exact trx_dropout seq_len)) perm seq_len.

(** The doubles [2.0 ** -60] and [1e-17]. *)
Definition two_pow_m60 : float := S754_finite false (2 ^ 52) (-112).
Definition ten_pow_m17 : float := fdiv (of_int 1) (of_int (10 ^ 17)).

End DropoutTrx.

(** ** Errors and containers *)

(** A raised exception is [None]; [x <- m ;; k] sequences fallible steps. *)
Definition bind {A B : Type} (m : option A) (f : A -> option B) : option B :=
  match m with
  | Some a => f a
  | None => None
  end.

Notation "x <- m ;; k" := (bind m (fun x => k))
  (at level 61, m at next level, right associativity).

Fixpoint mapM {A B : Type} (f : A -> option B) (l : list A) : option (list B) :=
  match l with
  | [] => Some []
  | a :: t => b <- f a ;; r <- mapM f t ;; Some (b :: r)
  end.

(** [d.get(key, default)] on a dict kept as an association list. *)
Fixpoint dict_lookup {V : Type} (d : list (Z * V)) (key : Z) : option V :=
  match d with
  | [] => None
  | (k, v) :: t => if (k =? key)%Z then Some v else dict_lookup t key
  end.

Definition dict_get {V : Type} (d : list (Z * V)) (key : Z) (default : V) : V :=
  match dict_lookup d key with
  | Some v => v
  | None => default
  end.

Definition memZ (x : Z) (l : list Z) : bool := existsb (Z.eqb x) l.

(** No value stands twice in the list. *)
Fixpoint distinct (l : list Z) : bool :=
  match l with
  | [] => true
  | x :: t => negb (memZ x t) && distinct t
  end.

(** [l[start:stop]] for non-negative bounds; the slice is clipped to [l]. *)
Definition slice {A : Type} (l : list A) (start stop : nat) : list A :=
  firstn (stop - start) (skipn start l).

(** The values of [range(0, n, step)]: raises ValueError for a zero step and
    is empty for a negative one. *)
Definition py_range (n : nat) (step : Z) : option (list nat) :=
  if (step =? 0)%Z then None
  else if (step <? 0)%Z then Some []
  else let b := Z.to_nat step in
       Some (map (fun j => j * b) (seq 0 ((n + b - 1) / b))).

(** ** Interaction logs and the exclusion mask *)

Abbreviation UserId := Z (only parsing).
Abbreviation ItemId := Z (only parsing).

Record InteractionRecord := mkRecord {
  user_id : UserId;
  item_id : ItemId;
  relevance : Q
}.

Abbreviation Key := (UserId * ItemId)%type (only parsing).

Definition key_of (r : InteractionRecord) : Key := (user_id r, item_id r).

Definition key_eqb (a b : Key) : bool :=
  ((fst a =? fst b) && (snd a =? snd b))%Z.

Definition key_leb (a b : Key) : bool :=
  ((fst a <? fst b) || ((fst a =? fst b) && (snd a <=? snd b)))%Z.

Definition memKey (x : Key) (l : list Key) : bool := existsb (key_eqb x) l.

Fixpoint uniqueK (l : list Key) : list Key :=
  match l with
  | [] => []
  | x :: t => if memKey x t then uniqueK t else x :: uniqueK t
  end.

Fixpoint insertK (x : Key) (l : list Key) : list Key :=
  match l with
  | [] => [x]
  | y :: t => if key_leb x y then x :: l else y :: insertK x t
  end.

Definition sortK (l : list Key) : list Key := fold_right insertK [] l.

Fixpoint uniqueZ (l : list Z) : list Z :=
  match l with
  | [] => []
  | x :: t => if memZ x t then uniqueZ t else x :: uniqueZ t
  end.

(** A row of [groupby(['user_id', 'item_id'])[['relevance']].count()
    .reset_index()]: the key and the number of log rows that carry it. *)
Abbreviation GroupedRow := (Key * nat)%type (only parsing).

Definition count_key (k : Key) (log : list InteractionRecord) : nat :=
  length (filter (fun r => key_eqb (key_of r) k) log).

(** One row per distinct (user, item) pair, in key order. *)
Definition groupby_count (log : list InteractionRecord) : list GroupedRow :=
  map (fun k => (k, count_key k log)) (sortK (uniqueK (map key_of log))).

(** [df[df['user_id'].isin(batch_id_users)]]. *)
Definition isin_users (batch_id_users : list UserId) (df : list GroupedRow)
  : list GroupedRow :=
  filter (fun g => memZ (fst (fst g)) batch_id_users) df.

(** The wide frame of [DataFrame.pivot]: row labels, column labels, and the
    cells that hold a value (every other cell is NaN). *)
Record WideFrame := mkWide {
  w_index : list UserId;
  w_columns : list ItemId;
  w_cells : list GroupedRow
}.

Fixpoint has_duplicates (l : list Key) : bool :=
  match l with
  | [] => false
  | x :: t => memKey x t || has_duplicates t
  end.

(** [df.pivot(index='user_id', columns='item_id', values='relevance')]:
    raises ValueError when an (index, column) pair occurs twice. *)
Definition pivot (df : list GroupedRow) : option WideFrame :=
  if has_duplicates (map fst df) then None
  else Some {| w_index := np_sort (uniqueZ (map (fun g => fst (fst g)) df));
               w_columns := np_sort (uniqueZ (map (fun g => snd (fst g)) df));
               w_cells := df |}.

Fixpoint cell_lookup (cells : list GroupedRow) (k : Key) : option nat :=
  match cells with
  | [] => None
  | (k', c) :: t => if key_eqb k' k then Some c else cell_lookup t k
  end.

(** [w.reindex(index=users, columns=items)]: label-based selection; a label
    the frame does not have gives NaN ([None]). *)
Definition reindex (w : WideFrame) (users : list UserId) (items : list ItemId)
  : list (list (option nat)) :=
  map (fun u =>
         map (fun i =>
                if memZ u (w_index w) && memZ i (w_columns w)
                then cell_lookup (w_cells w) (u, i) else None) items) users.

(** [(~df.isna()).astype(np.int32).values], then [.float()]. *)
Definition notna_mask (frame : list (list (option nat))) : list (list Q) :=
  map (map (fun c => match c with Some _ => 1%Q | None => 0%Q end)) frame.

(** [np.zeros((rows, cols))]. *)
Definition np_zeros (rows cols : nat) : list (list Q) :=
  repeat (repeat 0%Q cols) rows.

(** Lines 412-420 (and 539-547): the exclusion mask of one batch. The pivot
    operation is a parameter so that properties of the short-circuit can be
    stated for every pivot implementation. *)
Definition build_drop_mask_with (pivot_op : list GroupedRow -> option WideFrame)
           (df_log_exclude : list GroupedRow)
           (batch_id_users : list UserId) (id_items : list ItemId)
  : option (list (list Q)) :=
  let df_log_e := isin_users batch_id_users df_log_exclude in
  if length df_log_e =? 0 then
    Some (np_zeros (length batch_id_users) (length id_items))
  else
    w <- pivot_op df_log_e ;;
    Some (notna_mask (reindex w batch_id_users id_items)).

Definition build_drop_mask := build_drop_mask_with pivot.

(** ** Tensor arithmetic *)

Fixpoint zip_with {A B C : Type} (f : A -> B -> C) (a : list A) (b : list B)
  : list C :=
  match a, b with
  | x :: a', y :: b' => f x y :: zip_with f a' b'
  | _, _ => []
  end.

(** An elementwise operation on two rows with torch's broadcasting rule for
    the last dimension: equal sizes, or one of them of size 1. *)
Definition broadcast_row {T : Type} (f : T -> T -> T) (a b : list T)
  : option (list T) :=
  if length a =? length b then Some (zip_with f a b)
  else match a, b with
       | [x], _ => Some (map (f x) b)
       | _, [y] => Some (map (fun x => f x y) a)
       | _, _ => None
       end.

Definition broadcast_mat {T : Type} (f : T -> T -> T) (a b : list (list T))
  : option (list (list T)) :=
  if length a =? length b
  then mapM (fun ab => broadcast_row f (fst ab) (snd ab)) (combine a b)
  else None.

(** The masking expression of lines 221 and 551,
    [drop_mask * _minus_one + (1.0 - drop_mask) * user_item], with the
    arithmetic of the tensors supplied: [mul], [add], [sub] and the number
    [one]. *)
Section DropMask.

Variable T : Type.
Variables mul add sub : T -> T -> T.
Variable one : T.

Definition apply_drop_mask_in (drop_mask _minus_one user_item : list (list T))
  : option (list (list T)) :=
  masked <- broadcast_mat mul drop_mask _minus_one ;;
  kept <- broadcast_mat mul (map (map (fun m => sub one m)) drop_mask)
                        user_item ;;
  broadcast_mat add masked kept.

(** One row of it, with the broadcasting checks of the tensor operations. *)
Definition apply_drop_mask_row_in (mask _minus_one scores : list T)
  : option (list T) :=
  masked <- broadcast_row mul mask _minus_one ;;
  kept <- broadcast_row mul (map (fun m => sub one m) mask) scores ;;
  broadcast_row add masked kept.

(** The same row when mask, sentinel row and scores have one size;
    [m_one] is the entry of the sentinel row. *)
Definition combine_row_in (m_one : T) (mask scores : list T) : list T :=
  zip_with add
           (zip_with mul mask (repeat m_one (length scores)))
           (zip_with mul (map (fun m => sub one m) mask) scores).

End DropMask.

(** The sentinel written over masked entries. *)
Definition minus_one : Q := (-1)%Q.

(** The expression over exact rationals: the ranking theorems take the
    scores as finite numbers, on which the expression does not round (see
    [Float32] for the same expression on every binary32 value). *)
Definition apply_drop_mask
  : list (list Q) -> list (list Q) -> list (list Q) -> option (list (list Q)) :=
  apply_drop_mask_in Qmult Qplus Qminus 1%Q.

(** The tensors of the code hold IEEE-754 binary32 numbers ([.float()]). *)
Module Float32.

Definition prec : Z := 24.
Definition emax : Z := 128.
Definition float := spec_float.

Definition mul : float -> float -> float := SFmul prec emax.
Definition add : float -> float -> float := SFadd prec emax.
Definition sub : float -> float -> float := SFsub prec emax.
Definition div : float -> float -> float := SFdiv prec emax.
Definition ltb : float -> float -> bool := SFltb.
Definition of_int (n : Z) : float := binary_normalize prec emax n 0 false.

(** The numbers [0.0], [1.0] and the literal [-1.0]. *)
Definition zero : float := S754_zero false.
Definition one : float := S754_finite false 8388608 (-23).
Definition neg_one : float := S754_finite true 8388608 (-23).

(** An entry of [torch.ones(...).float() * -1.0]. *)
Definition minus_one : float := mul one neg_one.

(** A number of the format, and the finite ones among them. *)
Definition valid (x : float) : bool := valid_binary prec emax x.

Definition is_finite (x : float) : bool :=
  match x with
  | S754_zero _ | S754_finite _ _ _ => true
  | S754_infinity _ | S754_nan => false
  end.

Definition apply_drop_mask
  : list (list float) -> list (list float) -> list (list float)
    -> option (list (list float)) :=
  apply_drop_mask_in mul add sub one.

Definition combine_row : list float -> list float -> list float :=
  combine_row_in mul add sub one minus_one.

End Float32.

Definition score_at (row : list Q) (j : nat) : Q := nth j row 0%Q.

(** ** The selection primitives

    [torch.topk] and [Series.sort_values] are library primitives; the models
    are parameterised by them, and the theorems assume their documented
    contracts only. *)

(** [torch.topk(row, k)] for [k <= len(row)] returns the indices of [k]
    largest entries in descending order of value. *)
Record TopKSpec (topk_row : list Q -> nat -> list nat) : Prop := {
  topk_length : forall r k, k <= length r -> length (topk_row r k) = k;
  topk_nodup : forall r k, k <= length r -> NoDup (topk_row r k);
  topk_range : forall r k j,
      k <= length r -> In j (topk_row r k) -> j < length r;
  topk_sorted : forall r k a b,
      k <= length r -> a < b -> b < k ->
      (score_at r (nth b (topk_row r k) 0%nat)
       <= score_at r (nth a (topk_row r k) 0%nat))%Q;
  topk_top : forall r k j m,
      k <= length r -> In j (topk_row r k) -> m < length r ->
      ~ In m (topk_row r k) -> (score_at r m <= score_at r j)%Q
}.

(** [values.argsort()] of a descending sort: a permutation of the positions
    with non-increasing values. *)
Record ArgsortSpec (argsort_desc : list Q -> list nat) : Prop := {
  argsort_perm : forall r, Permutation (argsort_desc r) (seq 0 (length r));
  argsort_sorted : forall r a b,
      a < b -> b < length r ->
      (score_at r (nth b (argsort_desc r) 0%nat)
       <= score_at r (nth a (argsort_desc r) 0%nat))%Q
}.

(** [x] stands before [y] in a descending order of scores. *)
Definition desc (r : list Q) (x y : nat) : Prop :=
  (score_at r y <= score_at r x)%Q.

(** A reference implementation of both: insertion sort of the positions by
    descending value; among equal values [low_first] decides whether the
    lower or the higher position comes first. *)
Definition before (low_first : bool) (r : list Q) (x y : nat) : bool :=
  if low_first then Qle_bool (score_at r y) (score_at r x)
  else negb (Qle_bool (score_at r x) (score_at r y)).

Fixpoint insert_desc (low_first : bool) (r : list Q) (x : nat) (l : list nat)
  : list nat :=
  match l with
  | [] => [x]
  | y :: t => if before low_first r x y then x :: l
              else y :: insert_desc low_first r x t
  end.

Definition argsort_ref (low_first : bool) (r : list Q) : list nat :=
  fold_right (insert_desc low_first r) [] (seq 0 (length r)).

Definition topk_ref (low_first : bool) (r : list Q) (k : nat) : list nat :=
  firstn k (argsort_ref low_first r).

Section Primitives.

Variable topk_row : list Q -> nat -> list nat.

(** [torch.topk] on one row: raises when [k] exceeds the row size. *)
Definition topk_checked (k : nat) (r : list Q) : option (list nat) :=
  if k <=? length r then Some (topk_row r k) else None.

(** [torch.topk(m, k=k, dim=1)]. *)
Definition topk (m : list (list Q)) (k : nat) : option (list (list nat)) :=
  mapM (topk_checked k) m.

End Primitives.

(** ** The batch loop shared by the adapters *)

(** [for ix_start in range(...)]: runs [body] on each start in order and
    extends the two accumulated columns ([s_predicted_users],
    [s_predicted_items]); the first exception aborts the call. *)
Fixpoint for_batches (body : nat -> option (list UserId * list ItemId))
         (starts : list nat) (acc : list UserId * list ItemId)
  : option (list UserId * list ItemId) :=
  match starts with
  | [] => Some acc
  | ix_start :: rest =>
      out <- body ix_start ;;
      for_batches body rest (fst acc ++ fst out, snd acc ++ snd out)
  end.

(** [pd.DataFrame({'user_id': users, 'item_id': items})]: columns of unequal
    length raise. *)
Definition data_frame (users : list UserId) (items : list ItemId)
  : option (list (UserId * ItemId)) :=
  if length users =? length items then Some (combine users items) else None.

(** [a_items[item_indexes].tolist()] for the non-negative indices that
    [torch.topk] returns; an index past the end raises IndexError. *)
Definition take_items (a_items : list ItemId) (item_indexes : list nat)
  : option (list ItemId) :=
  mapM (nth_error a_items) item_indexes.

(** ** MixedEmbedding (lines 32-111): its layers and its forward pass *)

Module MixedEmbedding.

(** The arguments of [__init__] that decide the layout. *)
Record Args := mkArgs {
  arg_one_for_all_size : Z;
  arg_learn_embedding_size : Z;
  arg_fixed_vector_size : Z;
  arg_hidden_size : Z;
  arg_pretrained_embedding_size : Z
}.

(** The module after [__init__]: the stored sizes, and for each layer that
    was created the number of columns of its weight ([one_for_all],
    [embedding]) or its (in_features, out_features) ([transformation]). *)
Record Layers := mkLayers {
  one_for_all_size : Z;
  learn_embedding_size : Z;
  fixed_vector_size : Z;
  hidden_size : Z;
  pretrained_embedding_size : Z;
  feature_count : Z;
  one_for_all : option Z;
  embedding : option Z;
  transformation : option (Z * Z)
}.

(** Lines 49-55. The second test reads [pretrained_embedding_size] as a
    truth value: every non-zero size counts. *)
Definition count_features (a : Args) : Z :=
  ((if 0 <? arg_one_for_all_size a then 1 else 0)
   + (if (0 <? arg_learn_embedding_size a)
         || negb (arg_pretrained_embedding_size a =? 0) then 1 else 0)
   + (if 0 <? arg_fixed_vector_size a then 1 else 0))%Z.

(** Lines 91-93. *)
Definition use_transformation (feature_count fixed_vector_size
                               pretrained_embedding_size hidden_size : Z) : bool :=
  ((1 <? feature_count) || (0 <? fixed_vector_size)
   || ((0 <? pretrained_embedding_size)
       && negb (pretrained_embedding_size =? hidden_size)))%Z.

(** Lines 76-87. *)
Definition in_features (one_for_all_size learn_embedding_size
                        fixed_vector_size pretrained_embedding_size : Z) : Z :=
  ((if 0 <? one_for_all_size then one_for_all_size else 0)
   + (if (0 <? learn_embedding_size) || (0 <? pretrained_embedding_size)
      then if 0 <? pretrained_embedding_size then pretrained_embedding_size
           else learn_embedding_size
      else 0)
   + (if 0 <? fixed_vector_size then fixed_vector_size else 0))%Z.

Definition init (a : Args) : Layers :=
  let feature_count := count_features a in
  let one_for_all_size :=
    (if feature_count =? 0 then 32 else arg_one_for_all_size a)%Z in
  let learn := arg_learn_embedding_size a in
  let fixed := arg_fixed_vector_size a in
  let hidden := arg_hidden_size a in
  let pretrained := arg_pretrained_embedding_size a in
  {| one_for_all_size := one_for_all_size;
     learn_embedding_size := learn;
     fixed_vector_size := fixed;
     hidden_size := hidden;
     pretrained_embedding_size := pretrained;
     feature_count := feature_count;
     one_for_all :=
       if 0 <? one_for_all_size
       then Some (if feature_count =? 1 then hidden else one_for_all_size)
       else None;
     embedding :=
       if (0 <? learn) || (0 <? pretrained)
       then Some (if 0 <? pretrained then pretrained
                  else if feature_count =? 1 then hidden else learn)
       else None;
     transformation :=
       if use_transformation feature_count fixed pretrained hidden
       then Some (in_features one_for_all_size learn fixed pretrained, hidden)
       else None |}%Z.

(** The number of columns of what [forward] returns for [fixed_vectors]
    with [fixed_width] columns; [None] where [forward] raises: a layer that
    was not created, nothing to concatenate, or an input of the linear
    layer that is not [in_features] wide. The normalisation of lines
    108-109 keeps the shape. *)
Definition forward_width (self : Layers) (fixed_width : Z) : option Z :=
  part1 <- (if (0 <? one_for_all_size self)%Z
            then option_map (fun w => [w]) (one_for_all self) else Some []) ;;
  part2 <- (if ((0 <? learn_embedding_size self)
                || (0 <? pretrained_embedding_size self))%Z
            then option_map (fun w => [w]) (embedding self) else Some []) ;;
  let part3 := if (0 <? fixed_vector_size self)%Z then [fixed_width] else [] in
  let v_item := part1 ++ part2 ++ part3 in
  match v_item with
  | [] => None
  | _ =>
      let h_item := fold_right Z.add 0%Z v_item in
      if use_transformation (feature_count self) (fixed_vector_size self)
                            (pretrained_embedding_size self) (hidden_size self)
      then match transformation self with
           | Some (inf, outf) => if (h_item =? inf)%Z then Some outf else None
           | None => None
           end
      else Some h_item
  end.

(** A module with its parameters. [num_embeddings] is the number of rows of
    the embedding table ([item_count] of [__init__]). [row_output] is what
    lines 96-109 compute for one row from the learned weights, given the
    row of [fixed_vectors] ([None] for the NaN row that [reindex] gives an
    unknown label) and the index: after the lookups every step (the
    concatenation, the linear layer, the normalisation) works row by row.
    Its values are taken to be finite numbers. *)
Record Net := mkNet {
  layers : Layers;
  num_embeddings : Z;
  row_output : option (list Q) -> Z -> list Q
}.

Definition uses_one_for_all (self : Layers) : bool :=
  (0 <? one_for_all_size self)%Z.

Definition uses_embedding (self : Layers) : bool :=
  ((0 <? learn_embedding_size self) || (0 <? pretrained_embedding_size self))%Z.

Definition uses_fixed_vectors (self : Layers) : bool :=
  (0 <? fixed_vector_size self)%Z.

(** Line 100: [torch.nn.Embedding] raises IndexError for an index outside
    [0, num_embeddings); a negative index does not count from the end. *)
Definition index_in_table (self : Net) (item_id : Z) : bool :=
  ((0 <=? item_id) && (item_id <? num_embeddings self))%Z.

(** What the layers read, row by row: lines 98 and 100 make one row per
    index, line 102 takes the rows of [fixed_vectors]. A part that is not
    built leaves its input unread ([None], 0). *)
Definition row_inputs (self : Layers) (fixed_vectors : list (option (list Q)))
           (item_id : list Z) : list (option (list Q) * Z) :=
  if uses_fixed_vectors self then
    if uses_one_for_all self || uses_embedding self
    then combine fixed_vectors item_id
    else map (fun t => (t, 0%Z)) fixed_vectors
  else map (fun i => (None, i)) item_id.

(** [forward] on [fixed_vectors] with [fixed_columns] columns: the number
    of columns and the rows of [h_item]. [None] is a raised exception: an
    index outside the table (line 100), parts with different numbers of
    rows (line 103), or one of the shape errors of [forward_width]. *)
Definition forward (self : Net) (fixed_columns : Z)
           (fixed_vectors : list (option (list Q))) (item_id : list Z)
  : option (Z * list (list Q)) :=
  if uses_embedding (layers self)
     && negb (forallb (index_in_table self) item_id)
  then None
  else if (uses_one_for_all (layers self) || uses_embedding (layers self))
          && uses_fixed_vectors (layers self)
          && negb (length fixed_vectors =? length item_id)
  then None
  else
    width <- forward_width (layers self) fixed_columns ;;
    Some (width,
          map (fun r => row_output self (fst r) (snd r))
              (row_inputs (layers self) fixed_vectors item_id)).

(** The row [forward] returns for one feature row and one index. *)
Definition row_of (self : Net) (t : option (list Q)) (item_id : Z) : list Q :=
  if uses_fixed_vectors (layers self) then
    if uses_one_for_all (layers self) || uses_embedding (layers self)
    then row_output self t item_id
    else row_output self t 0%Z
  else row_output self None item_id.

End MixedEmbedding.

(** ** StoriesRecModel (the learned-embedding adapter) *)

Module StoriesRecModel.

(** The state [model_predict_top_k] reads. A feature row of [df_users] or
    [df_items] is [None] where [reindex] finds no row for the identifier;
    [user_columns] and [item_columns] are the numbers of feature columns of
    the two frames. The activation maps a finite number to a finite
    number. *)
Record Model := mkModel {
  user_encoder : list (UserId * Z);
  item_encoder : list (ItemId * Z);
  df_users : list (UserId * list Q);
  df_items : list (ItemId * list Q);
  user_columns : Z;
  item_columns : Z;
  embed_user : MixedEmbedding.Net;
  embed_item : MixedEmbedding.Net;
  activation : Q -> Q;
  valid_batch_size : Z
}.

(** [astype(np.int16)] and [astype(np.int32)] on an integer array:
    two's-complement wrap. ([np.array] makes an integer array of the
    encoder values as long as they fit 64 bits, see [inputs_readable].) *)
Definition as_int16 (z : Z) : Z := ((z + 2 ^ 15) mod 2 ^ 16 - 2 ^ 15)%Z.
Definition as_int32 (z : Z) : Z := ((z + 2 ^ 31) mod 2 ^ 32 - 2 ^ 31)%Z.

Definition in_int64 (z : Z) : bool := ((- 2 ^ 63 <=? z) && (z <? 2 ^ 63))%Z.

(** The inputs as lines 387-395 and 408-409 can read them: the values of
    both encoders fit 64 bits, and no label stands twice in the index of
    [df_users] or of [df_items] ([reindex] raises on an index with
    duplicate labels; with distinct labels it is a lookup per label). *)
Definition inputs_readable (self : Model) : bool :=
  forallb (fun p => in_int64 (snd p)) (user_encoder self)
  && forallb (fun p => in_int64 (snd p)) (item_encoder self)
  && distinct (map fst (df_users self))
  && distinct (map fst (df_items self)).

Definition dot (a b : list Q) : Q := fold_right Qplus 0%Q (zip_with Qmult a b).

(** [torch.mm(h_user, torch.transpose(h_item, 0, 1))] on two tensors given
    by their number of columns and their rows: raises unless the numbers of
    columns agree. *)
Definition mm_transposed (h_user h_item : Z * list (list Q))
  : option (list (list Q)) :=
  if (fst h_user =? fst h_item)%Z
  then Some (map (fun hu => map (fun hi => dot hu hi) (snd h_item))
                 (snd h_user))
  else None.

(** Lines 394-395 and 408-409: both identifiers go through their encoder
    with the default 0 and are cast. *)
Definition user_code (self : Model) (u : UserId) : Z :=
  as_int32 (dict_get (user_encoder self) u 0%Z).

Definition item_code (self : Model) (i : ItemId) : Z :=
  as_int16 (dict_get (item_encoder self) i 0%Z).

Definition user_vector (self : Model) (u : UserId) : list Q :=
  MixedEmbedding.row_of (embed_user self) (dict_lookup (df_users self) u)
                        (user_code self u).

Definition item_vector (self : Model) (i : ItemId) : list Q :=
  MixedEmbedding.row_of (embed_item self) (dict_lookup (df_items self) i)
                        (item_code self i).

(** The score the network gives the pair (u, i). *)
Definition raw_score (self : Model) (u : UserId) (i : ItemId) : Q :=
  activation self (dot (user_vector self u) (item_vector self i)).

Definition score_row (self : Model) (items : list ItemId) (u : UserId)
  : list Q :=
  map (raw_score self u) items.

(** Both networks build, and return rows of one width. *)
Definition widths_agree (self : Model) : bool :=
  match MixedEmbedding.forward_width (MixedEmbedding.layers (embed_user self))
                                     (user_columns self),
        MixedEmbedding.forward_width (MixedEmbedding.layers (embed_item self))
                                     (item_columns self) with
  | Some wu, Some wi => (wu =? wi)%Z
  | _, _ => false
  end.

(** The index of the identifier is a row of the embedding table, where one
    is read. *)
Definition user_in_table (self : Model) (u : UserId) : bool :=
  negb (MixedEmbedding.uses_embedding (MixedEmbedding.layers (embed_user self)))
  || MixedEmbedding.index_in_table (embed_user self) (user_code self u).

Definition item_in_table (self : Model) (i : ItemId) : bool :=
  negb (MixedEmbedding.uses_embedding (MixedEmbedding.layers (embed_item self)))
  || MixedEmbedding.index_in_table (embed_item self) (item_code self i).

(** The scores of user [u] over the candidate list can be computed. *)
Definition scores_defined (self : Model) (items : list ItemId) (u : UserId)
  : bool :=
  widths_agree self && user_in_table self u
  && forallb (item_in_table self) items.

Definition has_row {V : Type} (df : list (Z * V)) (id : Z) : bool :=
  match dict_lookup df id with
  | Some _ => true
  | None => false
  end.

(** No NaN row enters a network: where the fixed vectors are concatenated,
    every identifier has its feature row. *)
Definition features_known (self : Model) (users : list UserId)
           (items : list ItemId) : bool :=
  (negb (MixedEmbedding.uses_fixed_vectors
           (MixedEmbedding.layers (embed_user self)))
   || forallb (has_row (df_users self)) users)
  && (negb (MixedEmbedding.uses_fixed_vectors
              (MixedEmbedding.layers (embed_item self)))
      || forallb (has_row (df_items self)) items).


Definition with_batch_size (self : Model) (b : Z) : Model :=
  {| user_encoder := user_encoder self;
     item_encoder := item_encoder self;
     df_users := df_users self;
     df_items := df_items self;
     user_columns := user_columns self;
     item_columns := item_columns self;
     embed_user := embed_user self;
     embed_item := embed_item self;
     activation := activation self;
     valid_batch_size := b |}.

Section Predict.

Variable topk_row : list Q -> nat -> list nat.
Variable self : Model.

(** Lines 214-218: [activation(mm(h_user, h_item^T))]. *)
Definition user_item_scores (t_users : list (option (list Q)))
           (user_id : list Z) (t_items : list (option (list Q)))
           (item_id : list Z) : option (list (list Q)) :=
  h_user <- MixedEmbedding.forward (embed_user self) (user_columns self)
                                   t_users user_id ;;
  h_item <- MixedEmbedding.forward (embed_item self) (item_columns self)
                                   t_items item_id ;;
  user_item <- mm_transposed h_user h_item ;;
  Some (map (map (activation self)) user_item).

Definition batch_predict (t_users : list (option (list Q)))
           (user_id : list Z) (t_items : list (option (list Q)))
           (item_id : list Z) (drop_mask : list (list Q)) (k : nat)
  : option (list (list nat)) :=
  user_item <- user_item_scores t_users user_id t_items item_id ;;
  let _minus_one := map (map (fun _ => minus_one)) user_item in
  user_item <- apply_drop_mask drop_mask _minus_one user_item ;;
  topk topk_row user_item k.

(** The body of the loop of lines 401-428 for the batch at [ix_start];
    [t_items], [t_item_id] and [a_items] are computed once before the loop.
    [df_users.iloc[ix_start:ix_end].index] is the slice of [id_users], and
    the rows of the reindexed frame are looked up per identifier. *)
Definition predict_batch (df_log_exclude : list GroupedRow)
           (id_users : list UserId) (id_items : list ItemId)
           (t_items : list (option (list Q))) (t_item_id : list Z)
           (a_items : list ItemId) (k : nat) (ix_start : nat)
  : option (list UserId * list ItemId) :=
  let ix_end := ix_start + Z.to_nat (valid_batch_size self) in
  let batch_id_users := slice id_users ix_start ix_end in
  let t_batch_users := map (dict_lookup (df_users self)) batch_id_users in
  let t_user_id :=
    map (fun user_id => as_int32 (dict_get (user_encoder self) user_id 0%Z))
        batch_id_users in
  t_drop_mask <- build_drop_mask df_log_exclude batch_id_users id_items ;;
  t_predict <- batch_predict t_batch_users t_user_id t_items t_item_id
                             t_drop_mask k ;;
  items <- take_items a_items (concat t_predict) ;;
  Some (flat_map (fun user_id => repeat user_id k) batch_id_users, items).

Definition model_predict_top_k (df_log_exclude : list InteractionRecord)
           (id_users : list UserId) (id_items : list ItemId) (k : nat)
  : option (list (UserId * ItemId)) :=
  let df_log_exclude := groupby_count df_log_exclude in
  let t_items := map (dict_lookup (df_items self)) id_items in
  let t_item_id :=
    map (fun item_id => as_int16 (dict_get (item_encoder self) item_id 0%Z))
        id_items in
  let a_items := id_items in
  starts <- py_range (length id_users) (valid_batch_size self) ;;
  s <- for_batches (predict_batch df_log_exclude id_users id_items
                                  t_items t_item_id a_items k)
                   starts ([], []) ;;
  data_frame (fst s) (snd s).

End Predict.

End StoriesRecModel.

(** ** PopularModel (the popularity adapter) *)

Module PopularModel.

Record Config := mkConfig {
  use_mean_relevance : bool;
  use_item_freq_predict : bool;
  valid_batch_size : Z
}.

(** The adapter after [model_train]. [avg_num_items] is [None] for the NaN
    that the mean of an empty log gives. *)
Record Model := mkModel {
  config : Config;
  alpha : Q;
  beta : Q;
  items_popularity : list (ItemId * Q);
  avg_num_items : option nat
}.

(** The defaults of [__init__]. *)
Definition default_alpha : Q := 1000%Q.
Definition default_beta : Q := 1000%Q.

Definition qsum (l : list Q) : Q := fold_right Qplus 0%Q l.

Definition item_labels (log : list InteractionRecord) : list ItemId :=
  np_sort (uniqueZ (map item_id log)).

Definition rows_of_item (i : ItemId) (log : list InteractionRecord) :=
  filter (fun r => (item_id r =? i)%Z) log.

(** [groupby(['user_id', 'item_id'])[['relevance']].mean()]. *)
Definition pair_means (log : list InteractionRecord) : list InteractionRecord :=
  map (fun key =>
         let rows := filter (fun r => key_eqb (key_of r) key) log in
         mkRecord (fst key) (snd key)
                  (qsum (map relevance rows) / inject_Z (Z.of_nat (length rows)))%Q)
      (sortK (uniqueK (map key_of log))).

(** Lines 453-468: the three ways of building [items_popularity]. *)
Definition popularity (cfg : Config) (df_log : list InteractionRecord)
  : list (ItemId * Q) :=
  if use_mean_relevance cfg then
    let means := filter (fun r => negb (Qle_bool (relevance r) 0%Q))
                        (pair_means df_log) in
    map (fun i => (i, qsum (map relevance (rows_of_item i means))))
        (item_labels means)
  else if use_item_freq_predict cfg then
    map (fun i =>
           let rows := rows_of_item i df_log in
           (i, (qsum (map relevance rows) / inject_Z (Z.of_nat (length rows)))%Q))
        (item_labels df_log)
  else
    let ones := filter (fun r => Qeq_bool (relevance r) 1%Q) df_log in
    map (fun i => (i, inject_Z (Z.of_nat (length (rows_of_item i ones)))))
        (item_labels ones).

(** Line 471: [np.ceil(df_log.groupby('user_id')['item_id'].count().mean())]. *)
Definition mean_items_per_user (df_log : list InteractionRecord) : option nat :=
  match length (uniqueZ (map user_id df_log)) with
  | O => None
  | S n => Some (Z.to_nat (Qceiling (inject_Z (Z.of_nat (length df_log))
                                     / inject_Z (Z.of_nat (S n)))%Q))
  end.

(** Lines 453-480 of [model_train], on the log that reaches line 453;
    [a] and [b] are the [alpha] and [beta] that [__init__] stored. *)
Definition model_train (cfg : Config) (a b : Q) (df_log : list InteractionRecord)
  : Model :=
  {| config := cfg; alpha := a; beta := b;
     items_popularity := popularity cfg df_log;
     avg_num_items := mean_items_per_user df_log |}.

(** The double 0.95. *)
Definition c_0_95 : DropoutTrx.float :=
  DropoutTrx.fdiv (DropoutTrx.of_int 95) (DropoutTrx.of_int 100).

(** Line 449: [int(_user_total * 0.95)] in double precision. *)
Definition low_freq_cut (_user_total : nat) : option Z :=
  DropoutTrx.int_of_float
    (DropoutTrx.fmul (DropoutTrx.of_int (Z.of_nat _user_total)) c_0_95).

(** Lines 446-451: under [use_low_freq_train_items] only the rows of the
    users from position [int(_user_total * 0.95)] of
    [df_log['user_id'].value_counts()] on are kept. [value_counts] (the
    distinct users with their numbers of rows, most frequent first) is a
    library primitive and a parameter here. *)
Definition low_freq_train_log
           (value_counts : list UserId -> list (UserId * nat))
           (df_log : list InteractionRecord)
  : option (list InteractionRecord) :=
  let df_user_items := value_counts (map user_id df_log) in
  let _user_total := length df_user_items in
  cut <- low_freq_cut _user_total ;;
  let low_freq_users := skipn (Z.to_nat cut) (map fst df_user_items) in
  Some (filter (fun r => memZ (user_id r) low_freq_users) df_log).

(** The whole of [model_train] (lines 443-480);
    [use_low_freq_train_items] is the flag of the configuration. *)
Definition model_train_on (use_low_freq_train_items : bool)
           (value_counts : list UserId -> list (UserId * nat))
           (cfg : Config) (a b : Q) (df_log : list InteractionRecord)
  : option Model :=
  df_log <- (if use_low_freq_train_items
             then low_freq_train_log value_counts df_log
             else Some df_log) ;;
  Some (model_train cfg a b df_log).

(** Lines 482-486. A zero denominator (inf or NaN in pandas) is outside
    the rational model. *)
Definition _get_item_scores (self : Model) : list (ItemId * Q) :=
  let df_items_to_rec := items_popularity self in
  let count_sum := qsum (map snd df_items_to_rec) in
  map (fun row => (fst row, ((snd row + alpha self) / (count_sum + beta self))%Q))
      df_items_to_rec.

Definition with_batch_size (self : Model) (b : Z) : Model :=
  {| config := {| use_mean_relevance := use_mean_relevance (config self);
                  use_item_freq_predict := use_item_freq_predict (config self);
                  valid_batch_size := b |};
     alpha := alpha self;
     beta := beta self;
     items_popularity := items_popularity self;
     avg_num_items := avg_num_items self |}.

(** The number of interactions of relevance 1 with an item, and their
    total: what the default branch of [model_train] counts. *)
Definition interaction_count (df_log : list InteractionRecord) (i : ItemId)
  : nat :=
  length (rows_of_item i (filter (fun r => Qeq_bool (relevance r) 1%Q) df_log)).

Definition total_interactions (df_log : list InteractionRecord) : nat :=
  length (filter (fun r => Qeq_bool (relevance r) 1%Q) df_log).

(** The score of one label after [reindex(...).fillna(0.0)]. *)
Definition item_score (self : Model) (i : ItemId) : Q :=
  dict_get (_get_item_scores self) i 0%Q.

(** [_get_item_scores().reindex(index=id_items).fillna(0.0)]. *)
Definition candidate_scores (self : Model) (id_items : list ItemId)
  : list (ItemId * Q) :=
  map (fun i => (i, item_score self i)) id_items.

Section Predict.

Variable topk_row : list Q -> nat -> list nat.
Variable argsort_desc : list Q -> list nat.
Variable self : Model.

(** [s.sort_values(ascending=False)]. *)
Definition sort_values_desc (s : list (ItemId * Q)) : list (ItemId * Q) :=
  map (fun j => nth j s (0%Z, 0%Q)) (argsort_desc (map snd s)).

(** Line 525: the labels of the [int(k + avg_num_items)] best rows. *)
Definition restrict_items (id_items : list ItemId) (k : nat)
  : option (list ItemId) :=
  avg <- avg_num_items self ;;
  Some (map fst (firstn (k + avg)
                        (sort_values_desc (candidate_scores self id_items)))).

(** Line 526: [df_items_to_rec.loc[id_items]]; a label that several rows
    carry selects all of them. *)
Definition loc (s : list (ItemId * Q)) (labels : list ItemId)
  : list (ItemId * Q) :=
  flat_map (fun i => filter (fun row => (fst row =? i)%Z) s) labels.

(** The body of the loop of lines 535-558 for the batch at [ix_start];
    [id_items] is the restricted candidate list, and the arrays and the two
    rows are computed once before the loop. *)
Definition predict_batch (df_log_exclude : list GroupedRow)
           (a_users : list UserId) (id_items a_items : list ItemId)
           (item_predict_row minus_one_row : list Q) (k : nat) (ix_start : nat)
  : option (list UserId * list ItemId) :=
  let ix_end := ix_start + Z.to_nat (valid_batch_size (config self)) in
  let batch_id_users := slice a_users ix_start ix_end in
  t_drop_mask <- build_drop_mask df_log_exclude batch_id_users id_items ;;
  let user_item := repeat item_predict_row (length batch_id_users) in
  let _minus_one := repeat minus_one_row (length batch_id_users) in
  user_item <- apply_drop_mask t_drop_mask _minus_one user_item ;;
  t_predict <- topk topk_row user_item k ;;
  items <- take_items a_items (concat t_predict) ;;
  Some (flat_map (fun user_id => repeat user_id k) batch_id_users, items).

Definition model_predict_top_k (df_log_exclude : list InteractionRecord)
           (id_users : list UserId) (id_items : list ItemId) (k : nat)
  : option (list (UserId * ItemId)) :=
  let df_log_exclude := groupby_count df_log_exclude in
  let df_items_to_rec := candidate_scores self id_items in
  id_items <- restrict_items id_items k ;;
    let df_items_to_rec := loc df_items_to_rec id_items in
  let a_items := id_items in
  let a_users := id_users in
  let item_predict_row := map snd df_items_to_rec in
  let minus_one_row := repeat minus_one (length id_items) in
  starts <- py_range (length id_users) (valid_batch_size (config self)) ;;
  s <- for_batches (predict_batch df_log_exclude a_users id_items a_items
                                  item_predict_row minus_one_row k)
                   starts ([], []) ;;
  data_frame (fst s) (snd s).

End Predict.

End PopularModel.

(** ** ALSModel (the matrix-factorization adapter) *)

Module ALSModel.

(** The adapter after [model_train]. [rank_items] is the fitted
    factorization's ranking routine; it receives the user row, the sparse
    user-item matrix (given by its entries) and the item rows, and returns
    (item row, score) pairs. *)
Record Model := mkModel {
  pop_norm : bool;
  df_item_freq : list (ItemId * Q);
  item_index : list ItemId;
  user_index : list UserId;
  item_map : list (ItemId * Z);
  user_map : list (UserId * Z);
  rank_items : Z -> list InteractionRecord -> list Z -> list (Z * Q)
}.

(** [Series.unique()]: distinct values in order of first appearance. *)
Fixpoint unique_first (seen l : list Z) : list Z :=
  match l with
  | [] => []
  | x :: t => if memZ x seen then unique_first seen t
              else x :: unique_first (x :: seen) t
  end.

(** [{k: v for v, k in enumerate(index)}]. *)
Definition enumerate_map (index : list Z) : list (Z * Z) :=
  combine index (map Z.of_nat (seq 0 (length index))).

(** Lines 674-679 of [model_train]; [fitted] is what [self.model.fit]
    leaves behind. *)
Definition model_train (pn : bool)
           (fitted : Z -> list InteractionRecord -> list Z -> list (Z * Q))
           (df_log : list InteractionRecord) : Model :=
  let items := unique_first [] (map item_id df_log) in
  let users := unique_first [] (map user_id df_log) in
  {| pop_norm := pn;
     df_item_freq :=
       map (fun i =>
              let rows := filter (fun r => (item_id r =? i)%Z) df_log in
              (i, (fold_right Qplus 0 (map relevance rows)
                   / inject_Z (Z.of_nat (length rows)))%Q))
           (np_sort (uniqueZ (map item_id df_log)));
     item_index := items;
     user_index := users;
     item_map := enumerate_map items;
     user_map := enumerate_map users;
     rank_items := fitted |}.

(** [df_log_predict.groupby('user_id')['item_id'].apply(np.array)]. *)
Definition for_predict (df_log_predict : list InteractionRecord)
  : list (UserId * list ItemId) :=
  map (fun u =>
         (u, map item_id (filter (fun r => (user_id r =? u)%Z) df_log_predict)))
      (np_sort (uniqueZ (map user_id df_log_predict))).

(** [a[j]] on a numpy array: negative positions count from the end, a
    position outside the array raises IndexError. *)
Definition np_index (a : list Z) (j : Z) : option Z :=
  let n := Z.of_nat (length a) in
  if ((0 <=? j) && (j <? n))%Z then nth_error a (Z.to_nat j)
  else if ((- n <=? j) && (j <? 0))%Z then nth_error a (Z.to_nat (j + n))
  else None.

Definition in_dict {V : Type} (d : list (Z * V)) (key : Z) : bool :=
  match dict_lookup d key with
  | Some _ => true
  | None => false
  end.

Section Predict.

Variable self : Model.

(** [get_item_user_matrix] (lines 653-671) builds the sparse matrix of a
    log with a chain of pandas and scipy calls, which raise on a frame they
    reject (so the merge of line 657 on key columns of different dtypes).
    [model_predict] only passes the matrix on to [rank_items]; the builder
    is a parameter, and [None] is its raised exception. *)
Variable get_item_user_matrix
  : list InteractionRecord -> option (list InteractionRecord).

(** Lines 692-703: the rows appended to [predicted_rows] for one user. *)
Definition predict_user (user_item_data : list InteractionRecord)
           (user : UserId) (item_list : list ItemId)
  : option (list InteractionRecord) :=
  let user_ix := dict_get (user_map self) user (-1)%Z in
  if (user_ix =? -1)%Z then
    Some (map (fun item => mkRecord user item 0%Q) item_list)
  else
    let item_ix :=
      flat_map (fun item => match dict_lookup (item_map self) item with
                            | Some ix => [ix]
                            | None => []
                            end) item_list in
    ranked <-
      (if 0 <? length item_ix then
         mapM (fun p => item <- np_index (item_index self) (fst p) ;;
                        Some (mkRecord user item (snd p)))
              (rank_items self user_ix user_item_data item_ix)
       else Some []) ;;
    Some (ranked
          ++ map (fun item => mkRecord user item 0%Q)
                 (filter (fun item => negb (in_dict (item_map self) item))
                         item_list)).

(** Lines 688-703. *)
Definition predicted_rows (user_item_data df_log_predict : list InteractionRecord)
  : option (list InteractionRecord) :=
  rows <- mapM (fun ul => predict_user user_item_data (fst ul) (snd ul))
               (for_predict df_log_predict) ;;
  Some (concat rows).

(** [pd.merge(left.drop(columns='relevance'), right, how='inner',
    on=['user_id', 'item_id'])]. *)
Definition merge_inner (left right : list InteractionRecord)
  : list InteractionRecord :=
  flat_map (fun l =>
              map (fun r => mkRecord (user_id l) (item_id l) (relevance r))
                  (filter (fun r => key_eqb (key_of r) (key_of l)) right))
           left.

(** Lines 712-719: the final rescaling of every relevance. *)
Definition rescale (r : InteractionRecord) : InteractionRecord :=
  if pop_norm self then
    mkRecord (user_id r) (item_id r)
             (relevance r + dict_get (df_item_freq self) (item_id r) 0%Q)%Q
  else
    mkRecord (user_id r) (item_id r) ((relevance r + 1) / 2)%Q.

(** Lines 685-721. *)
Definition model_predict (df_log_exclude df_log_predict : list InteractionRecord)
  : option (list InteractionRecord) :=
  user_item_data <- get_item_user_matrix df_log_exclude ;;
  rows <- predicted_rows user_item_data df_log_predict ;;
  Some (map rescale (merge_inner df_log_predict rows)).


(** The fitted routine, asked to rank rows of [item_index], only returns
    rows of [item_index]. *)
Definition rank_items_in_range : Prop :=
  forall user_ix user_item_data item_ix p,
    (forall ix, In ix item_ix -> np_index (item_index self) ix <> None) ->
    In p (rank_items self user_ix user_item_data item_ix) ->
    np_index (item_index self) (fst p) <> None.

(** Every value of [item_map] is a row of [item_index], as [model_train]
    builds them. *)
Definition item_map_in_range : Prop :=
  forall item ix, dict_lookup (item_map self) item = Some ix ->
                  np_index (item_index self) ix <> None.

(** Every item of [item_index] is a key of [item_map], as
    [model_train] builds them. *)
Definition item_map_covers_index : Prop :=
  forall item, In item (item_index self) ->
               dict_lookup (item_map self) item <> None.

End Predict.

End ALSModel.

(** ** Concrete instances used in examples *)

Module Examples.

Definition u1 : UserId := 1%Z.
Definition u2 : UserId := 2%Z.
Definition i1 : ItemId := 101%Z.
Definition i2 : ItemId := 102%Z.
Definition i3 : ItemId := 103%Z.

(** A matrix builder that accepts every log, and one that rejects the
    empty log. *)
Definition builds_every_log (df_log : list InteractionRecord)
  : option (list InteractionRecord) := Some df_log.

Definition rejects_empty_log (df_log : list InteractionRecord)
  : option (list InteractionRecord) :=
  match df_log with
  | [] => None
  | _ :: _ => Some df_log
  end.

(** A factorization adapter trained on one interaction of [u1] with [i1];
    the fitted routine ranks every requested row with score 1. *)
Definition als (pn : bool) : ALSModel.Model :=
  ALSModel.model_train pn (fun _ _ item_ix => map (fun ix => (ix, 1%Q)) item_ix)
                       [mkRecord u1 i1 1%Q].

(** The layers of a network with a learned embedding of size 1 and nothing
    else, hidden size 1: the table is read and its row is returned as it
    is. *)
Definition embedding_only : MixedEmbedding.Layers :=
  MixedEmbedding.init
    {| MixedEmbedding.arg_one_for_all_size := 0;
       MixedEmbedding.arg_learn_embedding_size := 1;
       MixedEmbedding.arg_fixed_vector_size := 0;
       MixedEmbedding.arg_hidden_size := 1;
       MixedEmbedding.arg_pretrained_embedding_size := 0 |}.

(** A learned model whose score for [u1] over [i1, i2, i3] is
    [0.9, 0.5, 0.1]: the item table holds the item's score in its one
    column (0.3 in row 0, the row of unknown items), every row of the user
    table is [1], the activation is the identity. The tables have
    [len(encoder) + 1] rows. *)
Definition stories (batch : Z) : StoriesRecModel.Model :=
  {| StoriesRecModel.user_encoder := [(u1, 1%Z); (u2, 2%Z)];
     StoriesRecModel.item_encoder := [(i1, 1%Z); (i2, 2%Z); (i3, 3%Z)];
     StoriesRecModel.df_users := [];
     StoriesRecModel.df_items := [];
     StoriesRecModel.user_columns := 0;
     StoriesRecModel.item_columns := 0;
     StoriesRecModel.embed_user :=
       {| MixedEmbedding.layers := embedding_only;
          MixedEmbedding.num_embeddings := 3;
          MixedEmbedding.row_output := fun _ _ => [1%Q] |};
     StoriesRecModel.embed_item :=
       {| MixedEmbedding.layers := embedding_only;
          MixedEmbedding.num_embeddings := 4;
          MixedEmbedding.row_output := fun _ ix =>
            match ix with
            | 1%Z => [9 # 10]
            | 2%Z => [5 # 10]
            | 3%Z => [1 # 10]
            | _ => [3 # 10]
            end%Q |};
     StoriesRecModel.activation := fun t => t;
     StoriesRecModel.valid_batch_size := batch |}.

(** The same model with an item encoder that holds the index 40000, past
    the range of int16, in a table of 40001 rows. *)
Definition stories_wide (batch : Z) : StoriesRecModel.Model :=
  {| StoriesRecModel.user_encoder := [(u1, 1%Z); (u2, 2%Z)];
     StoriesRecModel.item_encoder := [(i1, 40000%Z)];
     StoriesRecModel.df_users := [];
     StoriesRecModel.df_items := [];
     StoriesRecModel.user_columns := 0;
     StoriesRecModel.item_columns := 0;
     StoriesRecModel.embed_user :=
       {| MixedEmbedding.layers := embedding_only;
          MixedEmbedding.num_embeddings := 3;
          MixedEmbedding.row_output := fun _ _ => [1%Q] |};
     StoriesRecModel.embed_item :=
       {| MixedEmbedding.layers := embedding_only;
          MixedEmbedding.num_embeddings := 40001;
          MixedEmbedding.row_output := fun _ _ => [1%Q] |};
     StoriesRecModel.activation := fun t => t;
     StoriesRecModel.valid_batch_size := batch |}.

Definition popular_config (batch : Z) : PopularModel.Config :=
  {| PopularModel.use_mean_relevance := false;
     PopularModel.use_item_freq_predict := false;
     PopularModel.valid_batch_size := batch |}.

(** The popularity table {i1: 10, i2: 0} with the default alpha and beta. *)
Definition scenario_popular : PopularModel.Model :=
  {| PopularModel.config := popular_config 10;
     PopularModel.alpha := PopularModel.default_alpha;
     PopularModel.beta := PopularModel.default_beta;
     PopularModel.items_popularity := [(i1, 10%Q); (i2, 0%Q)];
     PopularModel.avg_num_items := Some 2 |}.

(** The binary32 numbers nearest to 0.9, 0.5 and 0.1. *)
Definition f32_0_9 : Float32.float :=
  Float32.div (Float32.of_int 9) (Float32.of_int 10).
Definition f32_0_5 : Float32.float :=
  Float32.div (Float32.of_int 1) (Float32.of_int 2).
Definition f32_0_1 : Float32.float :=
  Float32.div (Float32.of_int 1) (Float32.of_int 10).

(** [value_counts] on a list whose values all occur equally often: the
    distinct values in order of first appearance, with their counts. *)
Definition value_counts_even (l : list Z) : list (Z * nat) :=
  map (fun u => (u, length (filter (Z.eqb u) l)))
      (ALSModel.unique_first [] l).

(** Ten interactions with [i1], all of relevance 1, by five users. *)
Definition train_log : list InteractionRecord :=
  flat_map (fun u => [mkRecord u i1 1%Q; mkRecord u i1 1%Q]) [1; 2; 3; 4; 5]%Z.

End Examples.

(** ** Notions the statements are phrased with *)

(** The pair (u, i) occurs in the exclusion log. *)
Definition excluded (log : list InteractionRecord) (u : UserId) (i : ItemId)
  : bool :=
  memKey (u, i) (map key_of log).

(** The mask row of user [u] over the candidate list. *)
Definition mask_row (log : list InteractionRecord) (items : list ItemId)
           (u : UserId) : list Q :=
  map (fun i => if excluded log u i then 1%Q else 0%Q) items.

(** One row of [drop_mask * _minus_one + (1.0 - drop_mask) * user_item]
    over the rationals, with the broadcasting checks of the tensor
    operations. *)
Definition apply_drop_mask_row : list Q -> list Q -> list Q -> option (list Q) :=
  apply_drop_mask_row_in Qmult Qplus Qminus 1%Q.

(** The same row when mask, sentinel row and scores have one size. *)
Definition combine_row : list Q -> list Q -> list Q :=
  combine_row_in Qmult Qplus Qminus 1%Q minus_one.

(** What one user receives: the combined row, its top-k positions, and the
    candidate items at these positions. *)
Definition recommend_row (topk_row : list Q -> nat -> list nat) (k : nat)
           (a_items : list ItemId) (mask _minus_one scores : list Q)
  : option (list ItemId) :=
  row <- apply_drop_mask_row mask _minus_one scores ;;
  positions <- topk_checked topk_row k row ;;
  take_items a_items positions.

(** What the learned adapter computes for one user: nothing where the
    scores of the user cannot be computed. *)
Definition stories_recommend (topk_row : list Q -> nat -> list nat)
           (self : StoriesRecModel.Model) (log : list InteractionRecord)
           (items : list ItemId) (k : nat) (u : UserId)
  : option (list ItemId) :=
  if StoriesRecModel.scores_defined self items u then
    recommend_row topk_row k items (mask_row log items u)
                  (repeat minus_one (length items))
                  (StoriesRecModel.score_row self items u)
  else None.


(** The combined (masked) score row of a user in the learned adapter. *)
Definition stories_combined (self : StoriesRecModel.Model)
           (log : list InteractionRecord) (items : list ItemId) (u : UserId)
  : list Q :=
  combine_row (mask_row log items u) (StoriesRecModel.score_row self items u).

(** The number of candidate positions the log leaves unmasked for [u]. *)
Definition count_unmasked (log : list InteractionRecord) (items : list ItemId)
           (u : UserId) : nat :=
  length (filter (fun i => negb (excluded log u i)) items).

(** The items at the positions [torch.topk] selects in the learned
    adapter's combined row of [u]. *)
Definition stories_positions (topk_row : list Q -> nat -> list nat)
           (self : StoriesRecModel.Model) (log : list InteractionRecord)
           (items : list ItemId) (k : nat) (u : UserId) : list nat :=
  topk_row (stories_combined self log items u) k.

(** What the popularity adapter computes for one user, given the restricted
    candidate list and the score row shared by all users. *)
Definition popular_recommend (topk_row : list Q -> nat -> list nat)
           (log : list InteractionRecord) (cand : list ItemId)
           (item_predict_row : list Q) (k : nat) (u : UserId)
  : option (list ItemId) :=
  recommend_row topk_row k cand (mask_row log cand u)
                (repeat minus_one (length cand)) item_predict_row.

(** The result of a top-k call written without batches: every user's
    recommendation in turn. *)
Definition predict_all (rec : UserId -> option (list ItemId)) (k : nat)
           (id_users : list UserId) : option (list (UserId * ItemId)) :=
  rows <- mapM rec id_users ;;
  data_frame (flat_map (fun user_id => repeat user_id k) id_users) (concat rows).

(** ** PopularModel.model_predict (lines 488-507) *)

Module PopularModelPredict.

(** [pd.merge(df_scores, item_scores.rename('relevance'), how='left',
    left_on='item_id', right_index=True)] followed by
    [df_scores['relevance'].fillna(0.0)]: a row of the request once per row
    of the score table that carries its item, and once with 0.0 (the filled
    NaN) when no row does. *)
Definition merge_scores (df_scores : list Key) (item_scores : list (ItemId * Q))
  : list InteractionRecord :=
  flat_map (fun row =>
              match filter (fun s => (fst s =? snd row)%Z) item_scores with
              | [] => [mkRecord (fst row) (snd row) 0%Q]
              | matches =>
                  map (fun s => mkRecord (fst row) (snd row) (snd s)) matches
              end)
           df_scores.

(** The column [exclude_x] that the left merge of lines 498-502 gives one
    row: -1 once per row of the exclusion log with its (user, item) pair,
    and a single 0 (the filled NaN) when there is none. *)
Definition exclude_x (df_log_exclude : list InteractionRecord)
           (row : InteractionRecord) : list Q :=
  match filter (fun e => key_eqb (key_of e) (key_of row)) df_log_exclude with
  | [] => [0%Q]
  | matches => map (fun _ => (-1)%Q) matches
  end.

(** Lines 498-504. *)
Definition merge_exclude (df_scores df_log_exclude : list InteractionRecord)
  : list InteractionRecord :=
  flat_map (fun row =>
              map (fun x => mkRecord (user_id row) (item_id row)
                                     (relevance row + x)%Q)
                  (exclude_x df_log_exclude row))
           df_scores.

(** [model_predict]; [exclude_seen_items] is the flag of the
    configuration. *)
Definition model_predict (self : PopularModel.Model) (exclude_seen_items : bool)
           (df_log_exclude df_log_predict : list InteractionRecord)
  : list InteractionRecord :=
  let df_scores := map key_of df_log_predict in
  let item_scores := PopularModel._get_item_scores self in
  let df_scores := merge_scores df_scores item_scores in
  if exclude_seen_items then merge_exclude df_scores df_log_exclude
  else df_scores.

End PopularModelPredict.

(** ** The ranking losses (lines 563-629), in exact arithmetic

    The losses are read over the rationals: the sums and the mean do not
    round as they do on float32 tensors. *)

Definition q_max (a b : Q) : Q := if Qle_bool a b then b else a.

Definition q_mean (l : list Q) : Q :=
  (PopularModel.qsum l / inject_Z (Z.of_nat (length l)))%Q.

(** [torch.nn.MarginRankingLoss(margin)] with the default reduction
    ('mean') on three vectors of one size:
    mean(max(0, -target * (input1 - input2) + margin)). *)
Definition margin_ranking_loss (margin : Q) (input1 input2 target : list Q) : Q :=
  q_mean (zip_with (fun d y => q_max 0 (- y * d + margin))%Q
                   (zip_with Qminus input1 input2) target).

(** The term of the margin loss for one pair (input1, input2) under the
    target -1 that both losses pass. *)
Definition loss_term (margin : Q) (p : Q * Q) : Q :=
  q_max 0 (- (-1 * 1) * (fst p - snd p) + margin)%Q.

(** What both losses return for the pairs they hand to the margin loss:
    its mean term, or [torch.sum(prediction) * 0.0] when there is no pair. *)
Definition loss_over (margin : Q) (prediction : list Q) (pairs : list (Q * Q))
  : Q :=
  match pairs with
  | [] => (PopularModel.qsum prediction * 0)%Q
  | _ :: _ => q_mean (map (loss_term margin) pairs)
  end.

(** [torch.masked_select(input, mask)] on vectors: the two are broadcast
    to one size (equal sizes, or one of them of size 1), and the entries
    under a true mask are returned. *)
Definition masked_select (input : list Q) (mask : list bool) : option (list Q) :=
  if length input =? length mask
  then Some (map fst (filter snd (combine input mask)))
  else match input, mask with
       | [x], _ => Some (map (fun _ => x) (filter (fun m => m) mask))
       | _, [m] => Some (if m then input else [])
       | _, _ => None
       end.

Module PairwiseMarginRankingLoss.

(** The two vectors handed to the margin loss: [pred_00.view(-1)] is
    [pred_0] tiled [pred_1_n] times, [pred_11.view(-1)] holds every entry of
    [pred_1] [pred_0_n] times in a row. *)
Definition pred_00 (pred_0 pred_1 : list Q) : list Q :=
  concat (repeat pred_0 (length pred_1)).

Definition pred_11 (pred_0 pred_1 : list Q) : list Q :=
  flat_map (fun p => repeat p (length pred_0)) pred_1.

Definition forward (margin : Q) (prediction label : list Q) : option Q :=
  let mask_0 := map (fun l => Qeq_bool l 0) label in
  let mask_1 := map (fun l => Qeq_bool l 1) label in
  pred_0 <- masked_select prediction mask_0 ;;
  pred_1 <- masked_select prediction mask_1 ;;
  let pred_1_n := length pred_1 in
  let pred_0_n := length pred_0 in
  if (0 <? pred_1_n) && negb (pred_0_n =? 0) then
    let out01 := repeat (-1 * 1)%Q (pred_1_n * pred_0_n) in
    Some (margin_ranking_loss margin (pred_00 pred_0 pred_1)
                              (pred_11 pred_0 pred_1) out01)
  else Some (PopularModel.qsum prediction * 0)%Q.

End PairwiseMarginRankingLoss.

Module MultiClassMarginRankingLoss.

(** [mask.nonzero()] of line 619-620: the positions (i, j), row by row,
    with [label[j] - label[i] > 0]. *)
Definition ix_pairs (label : list Q) : list (nat * nat) :=
  flat_map (fun i =>
              flat_map (fun j =>
                          if Qle_bool (nth j label 0 - nth i label 0)%Q 0
                          then [] else [(i, j)])
                       (seq 0 (length label)))
           (seq 0 (length label)).

(** [prediction[ix]] for an index vector: IndexError outside the vector. *)
Definition index_select (prediction : list Q) (ix : list nat) : option (list Q) :=
  mapM (nth_error prediction) ix.

Definition forward (margin : Q) (prediction label : list Q) : option Q :=
  let ix_pairs := ix_pairs label in
  if 0 <? length ix_pairs then
    let out01 := repeat (-1 * 1)%Q (length ix_pairs) in
    x1 <- index_select prediction (map fst ix_pairs) ;;
    x2 <- index_select prediction (map snd ix_pairs) ;;
    Some (margin_ranking_loss margin x1 x2 out01)
  else Some (PopularModel.qsum prediction * 0)%Q.

End MultiClassMarginRankingLoss.

(** ** RunningAverageItem (lines 18-29), in exact arithmetic

    The update is read over the rationals: it does not round as it does on
    Python's doubles. *)

Module RunningAverageItem.

Record State := mkState {
  alpha : Q;
  value : Q
}.

Definition update (self : State) (t : Q) : State :=
  {| alpha := alpha self;
     value := (alpha self * value self + (1 - alpha self) * t)%Q |}.

End RunningAverageItem.

(* ================================================================== *)
(** * Theorems *)
(* ================================================================== *)

(** ** Lists and the option monad *)

Lemma bind_Some_inv {A B : Type} (m : option A) (f : A -> option B) (b : B) :
  bind m f = Some b -> exists a, m = Some a /\ f a = Some b.
Proof.
  destruct m as [a|]; simpl; intros H; [exists a; auto | discriminate].
Qed.

Lemma mapM_app {A B : Type} (f : A -> option B) (l1 l2 : list A) :
  mapM f (l1 ++ l2)
  = (r1 <- mapM f l1 ;; r2 <- mapM f l2 ;; Some (r1 ++ r2)).
Proof.
  induction l1 as [|a l1 IH]; simpl.
  - destruct (mapM f l2); reflexivity.
  - destruct (f a) as [b|]; simpl; [|reflexivity].
    rewrite IH. destruct (mapM f l1); simpl; [|reflexivity].
    destruct (mapM f l2); reflexivity.
Qed.

Lemma mapM_total {A B : Type} (f : A -> option B) (g : A -> B) (l : list A) :
  (forall x, In x l -> f x = Some (g x)) -> mapM f l = Some (map g l).
Proof.
  induction l as [|a l IH]; simpl; intros H; [reflexivity|].
  rewrite (H a (or_introl eq_refl)); simpl.
  rewrite IH by (intros; apply H; auto). reflexivity.
Qed.

Lemma mapM_ext_in {A B : Type} (f g : A -> option B) (l : list A) :
  (forall x, In x l -> f x = g x) -> mapM f l = mapM g l.
Proof.
  induction l as [|a l IH]; simpl; intros H; [reflexivity|].
  rewrite (H a (or_introl eq_refl)), IH by (intros; apply H; auto).
  reflexivity.
Qed.

Lemma mapM_length {A B : Type} (f : A -> option B) (l : list A) (r : list B) :
  mapM f l = Some r -> length r = length l.
Proof.
  revert r; induction l as [|a l IH]; simpl; intros r H.
  - inversion H; reflexivity.
  - destruct (f a); simpl in H; [|discriminate].
    destruct (mapM f l) as [r'|]; simpl in H; [|discriminate].
    inversion H; subst; simpl. rewrite (IH r' eq_refl). reflexivity.
Qed.

(** Running a fallible step over the rows of a batch and then a second one
    over the flattened result is the same as running both per row. *)
Lemma mapM_concat {A B C : Type} (f : A -> option (list B)) (g : B -> option C)
      (l : list A) :
  (t <- mapM f l ;; mapM g (concat t))
  = (rows <- mapM (fun a => r <- f a ;; mapM g r) l ;; Some (concat rows)).
Proof.
  induction l as [|a l IH]; simpl; [reflexivity|].
  destruct (f a) as [r|]; simpl; [|reflexivity].
  destruct (mapM f l) as [t|]; simpl in *.
  - rewrite mapM_app, IH. destruct (mapM g r); simpl; [|reflexivity].
    destruct (mapM (fun a0 => r0 <- f a0 ;; mapM g r0) l); reflexivity.
  - destruct (mapM g r); simpl; [|reflexivity].
    destruct (mapM (fun a0 => r0 <- f a0 ;; mapM g r0) l);
      [discriminate | reflexivity].
Qed.

Lemma map_const_repeat {A B : Type} (c : B) (l : list A) :
  map (fun _ => c) l = repeat c (length l).
Proof.
  induction l; simpl; congruence.
Qed.

Lemma firstn_add {A : Type} (a b : nat) (l : list A) :
  firstn (a + b) l = firstn a l ++ firstn b (skipn a l).
Proof.
  revert l; induction a as [|a IH]; intros l; simpl; [reflexivity|].
  destruct l; simpl; [now rewrite firstn_nil | now rewrite IH].
Qed.

(** The batches of [range(0, n, b)] tile the user list. *)
Lemma chunks_prefix {A : Type} (b m : nat) (l : list A) :
  flat_map (fun s => slice l s (s + b)) (map (fun j => j * b) (seq 0 m))
  = firstn (m * b) l.
Proof.
  induction m as [|m IH]; [reflexivity|].
  rewrite seq_S, map_app, flat_map_app, IH; simpl.
  rewrite app_nil_r. unfold slice.
  replace (m * b + b - m * b) with b by lia.
  replace (b + m * b) with (m * b + b) by lia.
  now rewrite firstn_add.
Qed.

Lemma ceil_div_covers (n b : nat) : 0 < b -> n <= (n + b - 1) / b * b.
Proof.
  intros Hb.
  pose proof (Nat.div_mod_eq (n + b - 1) b) as E.
  pose proof (Nat.mod_upper_bound (n + b - 1) b) as U.
  nia.
Qed.

Lemma py_range_chunks {A : Type} (l : list A) (step : Z) :
  (0 < step)%Z ->
  exists starts,
    py_range (length l) step = Some starts
    /\ flat_map (fun s => slice l s (s + Z.to_nat step)) starts = l
    /\ forall s, In s starts -> slice l s (s + Z.to_nat step) <> [].
Proof.
  intros H. unfold py_range.
  destruct (Z.eqb_spec step 0); [lia|].
  destruct (Z.ltb_spec step 0); [lia|].
  set (b := Z.to_nat step). assert (Hb : 0 < b) by (unfold b; lia).
  eexists; split; [reflexivity|]. split.
  - rewrite chunks_prefix. apply firstn_all2.
    now apply ceil_div_covers.
  - intros s Hs E. apply (f_equal (@length A)) in E. revert E.
    apply in_map_iff in Hs as (j & <- & Hj). apply in_seq in Hj.
    unfold slice. rewrite length_firstn, length_skipn. simpl.
    assert (j * b < length l).
    { destruct Hj as [_ Hj]. simpl in Hj.
      assert (S j <= (length l + b - 1) / b) by lia.
      pose proof (Nat.div_mod_eq (length l + b - 1) b).
      pose proof (Nat.mod_upper_bound (length l + b - 1) b).
      nia. }
    lia.
Qed.

(** The loop over batches is a map over the users, whatever the batches:
    when each batch body maps a per-user step [pu] over the batch, the loop
    does so over the concatenation of the batches. *)
Lemma for_batches_spec (pu : UserId -> option (list ItemId))
      (fu : UserId -> list UserId)
      (body : nat -> option (list UserId * list ItemId))
      (batch : nat -> list UserId) (starts : list nat)
      (acc : list UserId * list ItemId) :
  (forall s, In s starts ->
             body s = (rows <- mapM pu (batch s) ;;
                       Some (flat_map fu (batch s), concat rows))) ->
  for_batches body starts acc
  = (rows <- mapM pu (flat_map batch starts) ;;
     Some (fst acc ++ flat_map fu (flat_map batch starts),
           snd acc ++ concat rows)).
Proof.
  intros Hb. revert acc.
  induction starts as [|s starts IH]; intros acc; simpl.
  - rewrite !app_nil_r. now destruct acc.
  - rewrite Hb by (simpl; auto). rewrite mapM_app.
    destruct (mapM pu (batch s)) as [r1|]; simpl; [|reflexivity].
    rewrite IH by (intros; apply Hb; simpl; auto); simpl.
    destruct (mapM pu (flat_map batch starts)) as [r2|]; simpl; [|reflexivity].
    rewrite flat_map_app, concat_app, !app_assoc. reflexivity.
Qed.

(** A guarded step raises on a list as soon as one guard fails. *)
Lemma mapM_guard {A B : Type} (p : A -> bool) (f : A -> option B) (l : list A) :
  mapM (fun a => if p a then f a else None) l
  = if forallb p l then mapM f l else None.
Proof.
  induction l as [|a l IH]; simpl; [reflexivity|].
  destruct (p a); simpl; [|reflexivity].
  rewrite IH. destruct (f a); simpl; [|now destruct (forallb p l)].
  destruct (forallb p l); reflexivity.
Qed.

Lemma forallb_of_map {A B : Type} (p : B -> bool) (h : A -> B) (l : list A) :
  forallb p (map h l) = forallb (fun a => p (h a)) l.
Proof.
  induction l as [|a l IH]; simpl; congruence.
Qed.

Lemma forallb_guard {A : Type} (c : bool) (p : A -> bool) (l : list A) :
  c && negb (forallb p l) = negb (forallb (fun a => negb c || p a) l).
Proof.
  destruct c; simpl; [reflexivity|].
  induction l as [|a l IH]; simpl; [reflexivity | exact IH].
Qed.

(** On a non-empty list a condition that does not depend on the element
    can be checked per element. *)
Lemma forallb_common {A : Type} (c d : bool) (p : A -> bool) (l : list A) :
  l <> [] ->
  forallb (fun a => c && p a && d) l = c && forallb p l && d.
Proof.
  destruct l as [|a l]; [congruence|]. intros _.
  induction l as [|b l IH]; simpl in *.
  - destruct c, (p a), d; reflexivity.
  - rewrite <- andb_assoc in IH |- *.
    destruct c, (p a), d, (p b); simpl in *; try reflexivity; try exact IH;
      try (now rewrite ?andb_false_r).
Qed.

(** ** Sorting and de-duplication helpers *)

Lemma insert_asc_perm (x : Z) (l : list Z) : Permutation (insert_asc x l) (x :: l).
Proof.
  induction l as [|y t IH]; simpl; [reflexivity|].
  destruct (x <=? y)%Z; [reflexivity|].
  rewrite IH. apply perm_swap.
Qed.

Lemma np_sort_perm (l : list Z) : Permutation (np_sort l) l.
Proof.
  induction l as [|x t IH]; simpl; [reflexivity|].
  rewrite insert_asc_perm. now constructor.
Qed.

Lemma insertK_perm (x : Key) (l : list Key) : Permutation (insertK x l) (x :: l).
Proof.
  induction l as [|y t IH]; simpl; [reflexivity|].
  destruct (key_leb x y); [reflexivity|].
  rewrite IH. apply perm_swap.
Qed.

Lemma sortK_perm (l : list Key) : Permutation (sortK l) l.
Proof.
  induction l as [|x t IH]; simpl; [reflexivity|].
  rewrite insertK_perm. now constructor.
Qed.

Lemma key_eqb_eq (a b : Key) : key_eqb a b = true <-> a = b.
Proof.
  destruct a as [a1 a2], b as [b1 b2]; unfold key_eqb; simpl.
  rewrite andb_true_iff, !Z.eqb_eq. split; [intros []|intros [=]]; subst; auto.
Qed.

Lemma memKey_In (x : Key) (l : list Key) : memKey x l = true <-> In x l.
Proof.
  unfold memKey. rewrite existsb_exists. split.
  - intros (y & Hy & E). apply key_eqb_eq in E. now subst.
  - intros H. exists x. split; [assumption | now apply key_eqb_eq].
Qed.

Lemma memZ_In (x : Z) (l : list Z) : memZ x l = true <-> In x l.
Proof.
  unfold memZ. rewrite existsb_exists. split.
  - intros (y & Hy & E). apply Z.eqb_eq in E. now subst.
  - intros H. exists x. split; [assumption | apply Z.eqb_refl].
Qed.

Lemma uniqueK_In (x : Key) (l : list Key) : In x (uniqueK l) <-> In x l.
Proof.
  induction l as [|y t IH]; simpl; [tauto|].
  destruct (memKey y t) eqn:E; simpl; rewrite IH; [|tauto].
  apply memKey_In in E. split; [tauto | intros [->|]; auto].
Qed.

Lemma uniqueK_NoDup (l : list Key) : NoDup (uniqueK l).
Proof.
  induction l as [|y t IH]; simpl; [constructor|].
  destruct (memKey y t) eqn:E; [assumption|].
  constructor; [|assumption].
  rewrite uniqueK_In, <- memKey_In, E. discriminate.
Qed.

Lemma uniqueZ_In (x : Z) (l : list Z) : In x (uniqueZ l) <-> In x l.
Proof.
  induction l as [|y t IH]; simpl; [tauto|].
  destruct (memZ y t) eqn:E; simpl; rewrite IH; [|tauto].
  apply memZ_In in E. split; [tauto | intros [->|]; auto].
Qed.

Lemma uniqueZ_NoDup (l : list Z) : NoDup (uniqueZ l).
Proof.
  induction l as [|y t IH]; simpl; [constructor|].
  destruct (memZ y t) eqn:E; [assumption|].
  constructor; [|assumption].
  rewrite uniqueZ_In, <- memZ_In, E. discriminate.
Qed.

Lemma sorted_unique_In (x : Z) (l : list Z) : In x (np_sort (uniqueZ l)) <-> In x l.
Proof.
  split; intros H.
  - apply uniqueZ_In. eapply Permutation_in; [apply np_sort_perm | exact H].
  - eapply Permutation_in; [symmetry; apply np_sort_perm | now apply uniqueZ_In].
Qed.

Lemma has_duplicates_NoDup (l : list Key) : NoDup l -> has_duplicates l = false.
Proof.
  induction 1 as [|x t Hx _ IH]; simpl; [reflexivity|].
  rewrite IH, orb_false_r.
  destruct (memKey x t) eqn:E; [|reflexivity].
  apply memKey_In in E. contradiction.
Qed.

(** ** The grouped exclusion log and the mask *)

Lemma groupby_count_keys (log : list InteractionRecord) :
  map fst (groupby_count log) = sortK (uniqueK (map key_of log)).
Proof.
  unfold groupby_count. rewrite map_map; simpl. apply map_id.
Qed.

Lemma groupby_count_NoDup (log : list InteractionRecord) :
  NoDup (map fst (groupby_count log)).
Proof.
  rewrite groupby_count_keys.
  eapply Permutation_NoDup; [symmetry; apply sortK_perm | apply uniqueK_NoDup].
Qed.

Lemma groupby_count_In (log : list InteractionRecord) (k : Key) :
  In k (map fst (groupby_count log)) <-> excluded log (fst k) (snd k) = true.
Proof.
  rewrite groupby_count_keys. unfold excluded.
  rewrite memKey_In, <- surjective_pairing, <- (uniqueK_In k (map key_of log)).
  split; apply Permutation_in; [apply sortK_perm | symmetry; apply sortK_perm].
Qed.

Lemma NoDup_map_fst_filter {A B : Type} (p : A * B -> bool) (l : list (A * B)) :
  NoDup (map fst l) -> NoDup (map fst (filter p l)).
Proof.
  induction l as [|x t IH]; simpl; intros H; [constructor|].
  inversion H as [|? ? Hx Ht]; subst.
  destruct (p x); simpl; [|auto].
  constructor; [|auto].
  intros Hin. apply Hx. apply in_map_iff in Hin as (y & E & Hy).
  apply filter_In in Hy as [Hy _]. apply in_map_iff. eauto.
Qed.

Lemma cell_lookup_None (cells : list GroupedRow) (k : Key) :
  ~ In k (map fst cells) -> cell_lookup cells k = None.
Proof.
  induction cells as [|[k' c] t IH]; simpl; intros H; [reflexivity|].
  destruct (key_eqb k' k) eqn:E.
  - apply key_eqb_eq in E. tauto.
  - apply IH. tauto.
Qed.

Lemma cell_lookup_Some (cells : list GroupedRow) (k : Key) :
  In k (map fst cells) -> exists c, cell_lookup cells k = Some c.
Proof.
  induction cells as [|[k' c] t IH]; simpl; intros H; [contradiction|].
  destruct (key_eqb k' k) eqn:E; [eauto|].
  destruct H as [H|H]; [|auto].
  subst. rewrite (proj2 (key_eqb_eq k k) eq_refl) in E. discriminate.
Qed.

Lemma isin_users_key (batch : list UserId) (df : list GroupedRow) (k : Key) :
  In k (map fst (isin_users batch df))
  <-> In k (map fst df) /\ In (fst k) batch.
Proof.
  unfold isin_users. rewrite !in_map_iff. split.
  - intros (g & E & Hg). apply filter_In in Hg as [Hg Hm].
    apply memZ_In in Hm. subst. eauto.
  - intros [(g & E & Hg) Hb]. exists g. split; [assumption|].
    apply filter_In. split; [assumption|]. apply memZ_In. now subst.
Qed.

(** The mask that lines 412-420 build for a batch has, in the row of every
    batch user, a one exactly at the candidate items the log excludes. *)
Lemma build_drop_mask_rows (log : list InteractionRecord)
      (batch : list UserId) (items : list ItemId) :
  build_drop_mask (groupby_count log) batch items
  = Some (map (mask_row log items) batch).
Proof.
  unfold build_drop_mask, build_drop_mask_with.
  assert (HN : NoDup (map fst (isin_users batch (groupby_count log))))
    by apply NoDup_map_fst_filter, groupby_count_NoDup.
  remember (isin_users batch (groupby_count log)) as E eqn:HeqE.
  assert (HE : forall k, In k (map fst E)
                         <-> excluded log (fst k) (snd k) = true /\ In (fst k) batch).
  { intros k. subst E. rewrite isin_users_key, groupby_count_In. tauto. }
  clear HeqE.
  destruct (Nat.eqb_spec (length E) 0) as [H0|H0].
  - f_equal. unfold np_zeros. rewrite <- map_const_repeat.
    apply map_ext_in. intros u Hu. unfold mask_row.
    rewrite <- map_const_repeat. apply map_ext. intros i.
    destruct (excluded log u i) eqn:X; [|reflexivity].
    apply length_zero_iff_nil in H0.
    assert (Hin : In (u, i) (map fst E)) by (apply HE; auto).
    rewrite H0 in Hin. contradiction.
  - unfold pivot. rewrite (has_duplicates_NoDup HN).
    simpl. f_equal. unfold notna_mask, reindex. rewrite map_map.
    apply map_ext_in. intros u Hu. unfold mask_row. rewrite map_map.
    apply map_ext. intros i; simpl.
    destruct (excluded log u i) eqn:X.
    + assert (Hin : In (u, i) (map fst E)) by (apply HE; auto).
      assert (Hu' : memZ u (np_sort (uniqueZ (map (fun g => fst (fst g)) E))) = true).
      { apply memZ_In, sorted_unique_In.
        apply in_map_iff in Hin as (g & Eg & Hg).
        apply in_map_iff. exists g. split; [|assumption].
        destruct g as [[a b] c]; simpl in *. congruence. }
      assert (Hi' : memZ i (np_sort (uniqueZ (map (fun g => snd (fst g)) E))) = true).
      { apply memZ_In, sorted_unique_In.
        apply in_map_iff in Hin as (g & Eg & Hg).
        apply in_map_iff. exists g. split; [|assumption].
        destruct g as [[a b] c]; simpl in *. congruence. }
      rewrite Hu', Hi'; simpl.
      destruct (cell_lookup_Some E (u, i) Hin) as [c ->]. reflexivity.
    + rewrite (cell_lookup_None E (u, i)).
      * now destruct (_ && _).
      * intros Hin. apply HE in Hin. simpl in Hin. destruct Hin; congruence.
Qed.

(** ** Tensor operations, row by row *)

Lemma bind_assoc {A B C : Type} (m : option A) (f : A -> option B)
      (g : B -> option C) :
  bind (bind m f) g = bind m (fun a => bind (f a) g).
Proof.
  destruct m; reflexivity.
Qed.

Lemma mapM_map {A B C : Type} (g : A -> B) (f : B -> option C) (l : list A) :
  mapM f (map g l) = mapM (fun a => f (g a)) l.
Proof.
  induction l as [|a l IH]; simpl; [reflexivity | now rewrite IH].
Qed.

Lemma mapM_bind_mapM {A B C : Type} (f : A -> option B) (g : B -> option C)
      (l : list A) :
  (t <- mapM f l ;; mapM g t) = mapM (fun a => x <- f a ;; g x) l.
Proof.
  induction l as [|a l IH]; simpl; [reflexivity|].
  destruct (f a) as [x|]; simpl; [|reflexivity].
  rewrite <- IH.
  destruct (mapM f l) as [t|]; simpl; [reflexivity|].
  destruct (g x); reflexivity.
Qed.

Lemma mapM_concat_k {A B C D : Type} (f : A -> option (list B))
      (g : B -> option C) (K : list C -> option D) (l : list A) :
  (t <- mapM f l ;; r <- mapM g (concat t) ;; K r)
  = (rows <- mapM (fun a => r <- f a ;; mapM g r) l ;; K (concat rows)).
Proof.
  pose proof (mapM_concat f g l) as H.
  destruct (mapM f l) as [t|]; simpl in *.
  - rewrite H.
    destruct (mapM (fun a => r <- f a ;; mapM g r) l); reflexivity.
  - destruct (mapM (fun a => r <- f a ;; mapM g r) l);
      [discriminate | reflexivity].
Qed.

Lemma mapM_zip {U X Y W : Type} (fa : U -> option X) (fb : U -> option Y)
      (h : X * Y -> option W) (l : list U) :
  (A <- mapM fa l ;; B <- mapM fb l ;; mapM h (combine A B))
  = mapM (fun u => x <- fa u ;; y <- fb u ;; h (x, y)) l.
Proof.
  induction l as [|a l IH]; simpl; [reflexivity|].
  destruct (fa a) as [x|]; simpl; [|reflexivity].
  destruct (fb a) as [y|]; simpl.
  - rewrite <- IH.
    destruct (mapM fa l) as [A|]; simpl;
      [destruct (mapM fb l) as [B|]; simpl|];
      destruct (h (x, y)); reflexivity.
  - destruct (mapM fa l); reflexivity.
Qed.

Lemma combine_map_map {U X Y : Type} (a : U -> X) (b : U -> Y) (l : list U) :
  combine (map a l) (map b l) = map (fun u => (a u, b u)) l.
Proof.
  induction l; simpl; congruence.
Qed.

Lemma zip_with_map {U X Y Z : Type} (f : X -> Y -> Z) (a : U -> X) (b : U -> Y)
      (l : list U) :
  zip_with f (map a l) (map b l) = map (fun u => f (a u) (b u)) l.
Proof.
  induction l; simpl; congruence.
Qed.

Lemma zip_with_length {X Y Z : Type} (f : X -> Y -> Z) (a : list X) (b : list Y) :
  length (zip_with f a b) = Nat.min (length a) (length b).
Proof.
  revert b; induction a as [|x a IH]; intros [|y b]; simpl; auto.
Qed.

Lemma broadcast_mat_map {U T : Type} (f : T -> T -> T) (a b : U -> list T)
      (l : list U) :
  broadcast_mat f (map a l) (map b l)
  = mapM (fun u => broadcast_row f (a u) (b u)) l.
Proof.
  unfold broadcast_mat.
  rewrite !length_map, Nat.eqb_refl, combine_map_map, mapM_map.
  reflexivity.
Qed.

Lemma broadcast_row_same {T : Type} (f : T -> T -> T) (a b : list T) :
  length a = length b -> broadcast_row f a b = Some (zip_with f a b).
Proof.
  intros H. unfold broadcast_row. now rewrite H, Nat.eqb_refl.
Qed.

Section DropMaskRows.

Variable T : Type.
Variables mul add sub : T -> T -> T.
Variable one : T.

(** The masking of a batch is the masking of each of its rows. *)
Lemma apply_drop_mask_in_map {U : Type} (m o s : U -> list T) (l : list U) :
  apply_drop_mask_in mul add sub one (map m l) (map o l) (map s l)
  = mapM (fun u => apply_drop_mask_row_in mul add sub one (m u) (o u) (s u)) l.
Proof.
  unfold apply_drop_mask_in, apply_drop_mask_row_in.
  rewrite map_map, !broadcast_mat_map.
  set (fa := fun u => broadcast_row mul (m u) (o u)).
  set (fb := fun u => broadcast_row mul (map (fun x => sub one x) (m u)) (s u)).
  etransitivity;
    [| exact (mapM_zip fa fb
                (fun ab => broadcast_row add (fst ab) (snd ab)) l)].
  destruct (mapM fa l) as [A|] eqn:EA; simpl; [|reflexivity].
  destruct (mapM fb l) as [B|] eqn:EB; simpl; [|reflexivity].
  unfold broadcast_mat.
  rewrite (mapM_length _ _ EA), (mapM_length _ _ EB), Nat.eqb_refl.
  reflexivity.
Qed.

(** With a mask, a sentinel row and a score row of one size the row
    operation cannot fail. *)
Lemma apply_drop_mask_row_in_same (m_one : T) (mask scores : list T) :
  length mask = length scores ->
  apply_drop_mask_row_in mul add sub one mask (repeat m_one (length scores))
                         scores
  = Some (combine_row_in mul add sub one m_one mask scores).
Proof.
  intros H. unfold apply_drop_mask_row_in, combine_row_in.
  rewrite broadcast_row_same by (now rewrite repeat_length). simpl.
  rewrite broadcast_row_same by (now rewrite length_map). simpl.
  rewrite broadcast_row_same; [reflexivity|].
  rewrite !zip_with_length, repeat_length, length_map. lia.
Qed.

Lemma combine_row_in_length (m_one : T) (mask scores : list T) :
  length mask = length scores ->
  length (combine_row_in mul add sub one m_one mask scores) = length scores.
Proof.
  intros H. unfold combine_row_in.
  rewrite !zip_with_length, repeat_length, length_map. lia.
Qed.

End DropMaskRows.

Lemma apply_drop_mask_map {U : Type} (m o s : U -> list Q) (l : list U) :
  apply_drop_mask (map m l) (map o l) (map s l)
  = mapM (fun u => apply_drop_mask_row (m u) (o u) (s u)) l.
Proof.
  apply apply_drop_mask_in_map.
Qed.

Lemma apply_drop_mask_row_same (mask scores : list Q) :
  length mask = length scores ->
  apply_drop_mask_row mask (repeat minus_one (length scores)) scores
  = Some (combine_row mask scores).
Proof.
  apply apply_drop_mask_row_in_same.
Qed.

Lemma combine_row_length (mask scores : list Q) :
  length mask = length scores -> length (combine_row mask scores) = length scores.
Proof.
  apply combine_row_in_length.
Qed.

(** ** MixedEmbedding.forward on the rows of one list of identifiers *)

Lemma forward_rows {A : Type} (self : MixedEmbedding.Net) (fixed_columns : Z)
      (g : A -> option (list Q)) (h : A -> Z) (l : list A) :
  MixedEmbedding.forward self fixed_columns (map g l) (map h l)
  = if forallb (fun a =>
                  negb (MixedEmbedding.uses_embedding (MixedEmbedding.layers self))
                  || MixedEmbedding.index_in_table self (h a)) l
    then width <- MixedEmbedding.forward_width (MixedEmbedding.layers self)
                                               fixed_columns ;;
         Some (width, map (fun a => MixedEmbedding.row_of self (g a) (h a)) l)
    else None.
Proof.
  unfold MixedEmbedding.forward.
  rewrite forallb_of_map, forallb_guard.
  destruct (forallb _ l); simpl; [|reflexivity].
  rewrite !length_map, Nat.eqb_refl, andb_false_r.
  destruct (MixedEmbedding.forward_width _ _) as [width|]; simpl; [|reflexivity].
  do 2 f_equal. unfold MixedEmbedding.row_inputs, MixedEmbedding.row_of.
  destruct (MixedEmbedding.uses_fixed_vectors _);
    [destruct (_ || _)|];
    rewrite ?combine_map_map, !map_map; reflexivity.
Qed.

(** ** StoriesRecModel: the loop body and the whole call *)

Section StoriesLoop.

Variable topk_row : list Q -> nat -> list nat.
Variable self : StoriesRecModel.Model.
Variable log : list InteractionRecord.
Variable items : list ItemId.
Variable k : nat.

(** The scores of a batch: defined when the two networks agree on the
    width and every index is a row of its table, and then the raw scores
    of every user over the candidates. *)
Lemma stories_user_item_scores (batch : list UserId) :
  StoriesRecModel.user_item_scores self
    (map (dict_lookup (StoriesRecModel.df_users self)) batch)
    (map (fun u => StoriesRecModel.as_int32
                     (dict_get (StoriesRecModel.user_encoder self) u 0%Z)) batch)
    (map (dict_lookup (StoriesRecModel.df_items self)) items)
    (map (fun i => StoriesRecModel.as_int16
                     (dict_get (StoriesRecModel.item_encoder self) i 0%Z)) items)
  = if StoriesRecModel.widths_agree self
       && forallb (StoriesRecModel.user_in_table self) batch
       && forallb (StoriesRecModel.item_in_table self) items
    then Some (map (StoriesRecModel.score_row self items) batch)
    else None.
Proof.
  unfold StoriesRecModel.user_item_scores. rewrite !forward_rows.
  fold (StoriesRecModel.user_code self). fold (StoriesRecModel.item_code self).
  change (forallb _ batch)
    with (forallb (StoriesRecModel.user_in_table self) batch).
  change (forallb _ items)
    with (forallb (StoriesRecModel.item_in_table self) items).
  unfold StoriesRecModel.widths_agree.
  destruct (forallb (StoriesRecModel.user_in_table self) batch),
    (forallb (StoriesRecModel.item_in_table self) items),
    (MixedEmbedding.forward_width
       (MixedEmbedding.layers (StoriesRecModel.embed_user self))
       (StoriesRecModel.user_columns self)) as [wu|],
    (MixedEmbedding.forward_width
       (MixedEmbedding.layers (StoriesRecModel.embed_item self))
       (StoriesRecModel.item_columns self)) as [wi|];
    simpl; rewrite ?andb_false_r; try reflexivity.
  unfold StoriesRecModel.mm_transposed. simpl.
  rewrite andb_true_r. destruct (wu =? wi)%Z; simpl; [|reflexivity].
  f_equal. rewrite !map_map. apply map_ext. intros u.
  unfold StoriesRecModel.score_row. rewrite !map_map. reflexivity.
Qed.

Lemma stories_predict_batch (users : list UserId) (ix_start : nat) :
  let batch := slice users ix_start
                     (ix_start + Z.to_nat (StoriesRecModel.valid_batch_size self)) in
  batch <> [] ->
  StoriesRecModel.predict_batch
    topk_row self (groupby_count log) users items
    (map (dict_lookup (StoriesRecModel.df_items self)) items)
    (map (fun i => StoriesRecModel.as_int16
                     (dict_get (StoriesRecModel.item_encoder self) i 0%Z)) items)
    items k ix_start
  = (rows <- mapM (stories_recommend topk_row self log items k) batch ;;
     Some (flat_map (fun u => repeat u k) batch, concat rows)).
Proof.
  intros batch Hne. unfold StoriesRecModel.predict_batch. fold batch.
  rewrite build_drop_mask_rows. simpl bind.
  unfold StoriesRecModel.batch_predict.
  rewrite stories_user_item_scores.
  unfold stories_recommend. rewrite mapM_guard.
  unfold StoriesRecModel.scores_defined.
  rewrite (forallb_common _ _ _ Hne).
  destruct (_ && _ && _); simpl bind; [|reflexivity].
  rewrite map_map, apply_drop_mask_map.
  unfold topk. rewrite mapM_bind_mapM.
  unfold take_items. rewrite mapM_concat_k.
  erewrite mapM_ext_in; [reflexivity|].
  intros u _. unfold recommend_row, take_items.
  rewrite bind_assoc.
  unfold StoriesRecModel.score_row at 1.
  rewrite map_map, map_const_repeat. reflexivity.
Qed.

(** For a positive batch size the batched call is [predict_all]. *)
Lemma stories_top_k_unbatched (users : list UserId) :
  (0 < StoriesRecModel.valid_batch_size self)%Z ->
  StoriesRecModel.model_predict_top_k topk_row self log users items k
  = predict_all (stories_recommend topk_row self log items k) k users.
Proof.
  intros HB. unfold StoriesRecModel.model_predict_top_k.
  destruct (py_range_chunks users HB) as (starts & -> & Hc & Hne). simpl bind.
  rewrite (for_batches_spec
             (stories_recommend topk_row self log items k)
             (fun u => repeat u k)
             (StoriesRecModel.predict_batch
                topk_row self (groupby_count log) users items
                (map (dict_lookup (StoriesRecModel.df_items self)) items)
                (map (fun i => StoriesRecModel.as_int16
                                 (dict_get (StoriesRecModel.item_encoder self)
                                           i 0%Z)) items)
                items k)
             (fun s => slice users s
                (s + Z.to_nat (StoriesRecModel.valid_batch_size self)))
             starts ([], [])
             (fun s Hs => stories_predict_batch users s (Hne s Hs))).
  rewrite Hc. unfold predict_all. simpl.
  destruct (mapM _ users); reflexivity.
Qed.

(** A user whose scores cannot be computed makes the whole call raise. *)
Lemma stories_undefined_raises (users : list UserId) (u : UserId) :
  (0 < StoriesRecModel.valid_batch_size self)%Z ->
  In u users -> StoriesRecModel.scores_defined self items u = false ->
  StoriesRecModel.model_predict_top_k topk_row self log users items k = None.
Proof.
  intros HB Hu Hd. rewrite stories_top_k_unbatched by assumption.
  unfold predict_all, stories_recommend. rewrite mapM_guard.
  destruct (forallb _ users) eqn:E; [|reflexivity].
  rewrite forallb_forall in E. rewrite (E u Hu) in Hd. discriminate.
Qed.

End StoriesLoop.

(** ** The reference selection primitives meet their contracts *)

Lemma before_true (lf : bool) (r : list Q) (x y : nat) :
  before lf r x y = true -> (score_at r y <= score_at r x)%Q.
Proof.
  unfold before. destruct lf.
  - apply Qle_bool_iff.
  - intros H. apply negb_true_iff in H. apply Qlt_le_weak, Qnot_le_lt.
    intros C. apply Qle_bool_iff in C. congruence.
Qed.

Lemma before_false (lf : bool) (r : list Q) (x y : nat) :
  before lf r x y = false -> (score_at r x <= score_at r y)%Q.
Proof.
  unfold before. destruct lf.
  - intros H. apply Qlt_le_weak, Qnot_le_lt.
    intros C. apply Qle_bool_iff in C. congruence.
  - intros H. apply negb_false_iff in H. now apply Qle_bool_iff.
Qed.

Lemma insert_desc_perm (lf : bool) (r : list Q) (x : nat) (l : list nat) :
  Permutation (insert_desc lf r x l) (x :: l).
Proof.
  induction l as [|y t IH]; simpl; [reflexivity|].
  destruct (before lf r x y); [reflexivity|].
  rewrite IH. apply perm_swap.
Qed.

Lemma insert_desc_sorted (lf : bool) (r : list Q) (x : nat) (l : list nat) :
  StronglySorted (desc r) l -> StronglySorted (desc r) (insert_desc lf r x l).
Proof.
  induction 1 as [|y t Ht IH Hy]; simpl.
  - repeat constructor.
  - destruct (before lf r x y) eqn:E.
    + apply before_true in E. constructor; [now constructor|].
      constructor; [exact E|].
      eapply Forall_impl; [|exact Hy]. intros z Hz. unfold desc in *.
      eapply Qle_trans; eassumption.
    + apply before_false in E. constructor; [assumption|].
      eapply Permutation_Forall; [symmetry; apply insert_desc_perm|].
      constructor; assumption.
Qed.

Lemma argsort_ref_perm (lf : bool) (r : list Q) :
  Permutation (argsort_ref lf r) (seq 0 (length r)).
Proof.
  unfold argsort_ref. induction (seq 0 (length r)) as [|x t IH]; simpl.
  - reflexivity.
  - rewrite insert_desc_perm. now constructor.
Qed.

Lemma argsort_ref_sorted (lf : bool) (r : list Q) :
  StronglySorted (desc r) (argsort_ref lf r).
Proof.
  unfold argsort_ref. induction (seq 0 (length r)) as [|x t IH]; simpl.
  - constructor.
  - now apply insert_desc_sorted.
Qed.

Lemma StronglySorted_nth {A : Type} (R : A -> A -> Prop) (d : A) (l : list A) :
  StronglySorted R l ->
  forall a b, a < b -> b < length l -> R (nth a l d) (nth b l d).
Proof.
  induction 1 as [|x t Ht IH Hx]; intros a b Hab Hb; simpl in *; [lia|].
  destruct b as [|b]; [lia|]. destruct a as [|a].
  - rewrite Forall_forall in Hx. apply Hx, nth_In. lia.
  - apply IH; lia.
Qed.

Lemma StronglySorted_app_cross {A : Type} (R : A -> A -> Prop) (l1 l2 : list A) :
  StronglySorted R (l1 ++ l2) ->
  forall x y, In x l1 -> In y l2 -> R x y.
Proof.
  induction l1 as [|a l1 IH]; simpl; intros H x y Hx Hy; [contradiction|].
  apply StronglySorted_inv in H as [Ht Ha].
  destruct Hx as [->|Hx]; [|eauto].
  rewrite Forall_forall in Ha. apply Ha, in_or_app. auto.
Qed.

Lemma argsort_ref_spec (lf : bool) : ArgsortSpec (argsort_ref lf).
Proof.
  split.
  - apply argsort_ref_perm.
  - intros r a b Hab Hb.
    apply (StronglySorted_nth 0 (argsort_ref_sorted lf r)); [assumption|].
    rewrite (Permutation_length (argsort_ref_perm lf r)), length_seq.
    assumption.
Qed.

Lemma topk_ref_spec (lf : bool) : TopKSpec (topk_ref lf).
Proof.
  assert (L : forall r, length (argsort_ref lf r) = length r).
  { intros r. now rewrite (Permutation_length (argsort_ref_perm lf r)), length_seq. }
  assert (N : forall r, NoDup (argsort_ref lf r)).
  { intros r. eapply Permutation_NoDup;
      [symmetry; apply argsort_ref_perm | apply seq_NoDup]. }
  assert (I : forall r j, In j (argsort_ref lf r) <-> j < length r).
  { intros r j. split; intros H.
    - apply (Permutation_in _ (argsort_ref_perm lf r)) in H.
      apply in_seq in H. lia.
    - apply (Permutation_in _ (Permutation_sym (argsort_ref_perm lf r))).
      apply in_seq. lia. }
  unfold topk_ref. split.
  - intros r k Hk. apply firstn_length_le. now rewrite L.
  - intros r k Hk. specialize (N r).
    rewrite <- (firstn_skipn k (argsort_ref lf r)) in N.
    now apply NoDup_app_remove_r in N.
  - intros r k j Hk Hj. apply I.
    rewrite <- (firstn_skipn k (argsort_ref lf r)). apply in_or_app. auto.
  - intros r k a b Hk Hab Hb. rewrite !nth_firstn.
    destruct (Nat.ltb_spec a k); [|lia]. destruct (Nat.ltb_spec b k); [|lia].
    apply (StronglySorted_nth 0 (argsort_ref_sorted lf r)); [assumption|].
    rewrite L. lia.
  - intros r k j m Hk Hj Hm Hn.
    assert (Hin : In m (skipn k (argsort_ref lf r))).
    { apply I in Hm. rewrite <- (firstn_skipn k (argsort_ref lf r)) in Hm.
      apply in_app_or in Hm. tauto. }
    pose proof (argsort_ref_sorted lf r) as S.
    rewrite <- (firstn_skipn k (argsort_ref lf r)) in S.
    change (desc r j m). eapply StronglySorted_app_cross; eassumption.
Qed.

(** ** Rows of the combined score and the output frame *)

Lemma combine_app_same {A B : Type} (a c : list A) (b d : list B) :
  length a = length b -> combine (a ++ c) (b ++ d) = combine a b ++ combine c d.
Proof.
  revert b; induction a as [|x a IH]; intros [|y b] H; simpl in *;
    try discriminate; [reflexivity|].
  rewrite IH by lia. reflexivity.
Qed.

Lemma combine_repeat {A B : Type} (u : A) (l : list B) :
  combine (repeat u (length l)) l = map (pair u) l.
Proof.
  induction l; simpl; congruence.
Qed.

(** The output frame pairs every user with the items of its row. *)
Lemma data_frame_rows (f : UserId -> list ItemId) (k : nat) (users : list UserId) :
  (forall u, In u users -> length (f u) = k) ->
  data_frame (flat_map (fun u => repeat u k) users) (concat (map f users))
  = Some (flat_map (fun u => map (pair u) (f u)) users).
Proof.
  intros H. unfold data_frame.
  assert (E : length (flat_map (fun u => repeat u k) users)
              = length (concat (map f users))
              /\ combine (flat_map (fun u => repeat u k) users)
                         (concat (map f users))
                 = flat_map (fun u => map (pair u) (f u)) users).
  { induction users as [|u t IH]; simpl; [auto|].
    destruct IH as [IH1 IH2]; [intros; apply H; simpl; auto|].
    assert (Hu : length (f u) = k) by (apply H; simpl; auto).
    split.
    - rewrite !length_app, repeat_length, IH1, Hu. reflexivity.
    - rewrite combine_app_same by (now rewrite repeat_length).
      rewrite IH2, <- Hu, combine_repeat. reflexivity. }
  destruct E as [E1 E2]. rewrite E1, Nat.eqb_refl, E2. reflexivity.
Qed.

Lemma nth_zip_with {X Y Z : Type} (f : X -> Y -> Z) (a : list X) (b : list Y)
      (j : nat) (dx : X) (dy : Y) (dz : Z) :
  j < length a -> j < length b ->
  nth j (zip_with f a b) dz = f (nth j a dx) (nth j b dy).
Proof.
  revert b j; induction a as [|x a IH]; intros [|y b] [|j] Ha Hb; simpl in *;
    try lia; [reflexivity|].
  apply IH; lia.
Qed.

Lemma nth_map_lt {X Y : Type} (f : X -> Y) (l : list X) (j : nat) (dx : X) (dy : Y) :
  j < length l -> nth j (map f l) dy = f (nth j l dx).
Proof.
  intros H. rewrite (nth_indep _ dy (f dx)) by (now rewrite length_map).
  apply map_nth.
Qed.

Lemma combine_row_in_nth {T : Type} (mul add sub : T -> T -> T) (one m_one d : T)
      (mask scores : list T) (j : nat) :
  length mask = length scores -> j < length scores ->
  nth j (combine_row_in mul add sub one m_one mask scores) d
  = add (mul (nth j mask d) m_one) (mul (sub one (nth j mask d)) (nth j scores d)).
Proof.
  intros E H. unfold combine_row_in.
  rewrite (nth_zip_with add _ _ d d d)
    by (rewrite zip_with_length, ?repeat_length, ?length_map; lia).
  rewrite (nth_zip_with mul _ _ d d d)
    by (rewrite ?repeat_length; lia).
  rewrite (nth_zip_with mul _ _ d d d)
    by (rewrite ?length_map; lia).
  rewrite nth_repeat_lt by lia.
  rewrite (nth_map_lt (fun m => sub one m) mask d d) by lia.
  reflexivity.
Qed.

Lemma combine_row_nth (mask scores : list Q) (j : nat) :
  length mask = length scores -> j < length scores ->
  score_at (combine_row mask scores) j
  = (nth j mask 0 * minus_one + (1 - nth j mask 0) * nth j scores 0)%Q.
Proof.
  intros E H. unfold score_at, combine_row.
  now rewrite (combine_row_in_nth Qmult Qplus Qminus 1%Q minus_one 0%Q).
Qed.

Lemma mask_row_nth (log : list InteractionRecord) (items : list ItemId)
      (u : UserId) (j : nat) :
  j < length items ->
  nth j (mask_row log items u) 0%Q
  = if excluded log u (nth j items 0%Z) then 1%Q else 0%Q.
Proof.
  intros H. unfold mask_row.
  now rewrite (nth_map_lt _ items 0%Z 0%Q) by assumption.
Qed.

Lemma mask_row_length (log : list InteractionRecord) (items : list ItemId)
      (u : UserId) :
  length (mask_row log items u) = length items.
Proof.
  apply length_map.
Qed.

(** An entry of a combined row is the sentinel at a masked position and the
    raw score elsewhere. *)
Lemma masked_entry (log : list InteractionRecord) (items : list ItemId)
      (u : UserId) (scores : list Q) (j : nat) :
  length scores = length items -> j < length items ->
  (score_at (combine_row (mask_row log items u) scores) j
   == if excluded log u (nth j items 0%Z) then minus_one else nth j scores 0)%Q.
Proof.
  intros E H.
  rewrite combine_row_nth by (rewrite ?mask_row_length; lia).
  rewrite mask_row_nth by assumption.
  destruct (excluded log u (nth j items 0%Z)); unfold minus_one; ring.
Qed.

Lemma stories_combined_entry (self : StoriesRecModel.Model)
      (log : list InteractionRecord) (items : list ItemId) (u : UserId) (j : nat) :
  j < length items ->
  (score_at (stories_combined self log items u) j
   == if excluded log u (nth j items 0%Z) then minus_one
      else StoriesRecModel.raw_score self u (nth j items 0%Z))%Q.
Proof.
  intros H. unfold stories_combined.
  rewrite masked_entry by (unfold StoriesRecModel.score_row; now rewrite ?length_map).
  unfold StoriesRecModel.score_row.
  rewrite (nth_map_lt _ items 0%Z 0%Q) by assumption. reflexivity.
Qed.

Lemma take_items_total (a_items : list ItemId) (positions : list nat) :
  (forall j, In j positions -> j < length a_items) ->
  take_items a_items positions
  = Some (map (fun j => nth j a_items 0%Z) positions).
Proof.
  intros H. apply mapM_total. intros j Hj. apply nth_error_nth'. auto.
Qed.

(** ** StoriesRecModel under the top-k contract *)

Section StoriesTopK.

Variable topk_row : list Q -> nat -> list nat.
Hypothesis topk_ok : TopKSpec topk_row.
Variable self : StoriesRecModel.Model.
Variable log : list InteractionRecord.
Variable items : list ItemId.
Variable k : nat.

Lemma stories_combined_length (u : UserId) :
  length (stories_combined self log items u) = length items.
Proof.
  unfold stories_combined, StoriesRecModel.score_row.
  rewrite combine_row_length; now rewrite ?mask_row_length, !length_map.
Qed.

(** Where the scores are defined the row is masked and handed to
    [torch.topk]. *)
Lemma stories_recommend_defined (u : UserId) :
  StoriesRecModel.scores_defined self items u = true ->
  stories_recommend topk_row self log items k u
  = (positions <- topk_checked topk_row k (stories_combined self log items u) ;;
     take_items items positions).
Proof.
  intros Hd. unfold stories_recommend, recommend_row. rewrite Hd.
  replace (length items)
    with (length (StoriesRecModel.score_row self items u))
    by (unfold StoriesRecModel.score_row; apply length_map).
  rewrite apply_drop_mask_row_same
    by (unfold StoriesRecModel.score_row; now rewrite mask_row_length, length_map).
  reflexivity.
Qed.

Lemma stories_recommend_ok (u : UserId) :
  k <= length items ->
  StoriesRecModel.scores_defined self items u = true ->
  stories_recommend topk_row self log items k u
  = Some (map (fun j => nth j items 0%Z)
              (stories_positions topk_row self log items k u)).
Proof.
  intros k_le Hd. rewrite stories_recommend_defined by assumption.
  unfold topk_checked. rewrite stories_combined_length.
  destruct (Nat.leb_spec k (length items)); [|lia]. simpl bind.
  apply take_items_total. intros j Hj.
  rewrite <- (stories_combined_length u).
  eapply (topk_range topk_ok); [|exact Hj].
  now rewrite stories_combined_length.
Qed.

(** [torch.topk] rejects a k above the number of candidates. *)
Lemma stories_recommend_k_too_large (u : UserId) :
  length items < k ->
  stories_recommend topk_row self log items k u = None.
Proof.
  intros Hk. unfold stories_recommend.
  destruct (StoriesRecModel.scores_defined self items u) eqn:Hd;
    [|reflexivity].
  pose proof (stories_recommend_defined u Hd) as E.
  unfold stories_recommend in E. rewrite Hd in E. rewrite E.
  unfold topk_checked. rewrite stories_combined_length.
  destruct (Nat.leb_spec k (length items)); [lia | reflexivity].
Qed.

(** The whole call, for any positive batch size. *)
Lemma stories_top_k_result (users : list UserId) :
  k <= length items ->
  (0 < StoriesRecModel.valid_batch_size self)%Z ->
  (forall u, In u users -> StoriesRecModel.scores_defined self items u = true) ->
  StoriesRecModel.model_predict_top_k topk_row self log users items k
  = Some (flat_map
            (fun u => map (fun j => (u, nth j items 0%Z))
                          (stories_positions topk_row self log items k u))
            users).
Proof.
  intros k_le HB Hd. rewrite stories_top_k_unbatched by assumption.
  unfold predict_all.
  rewrite (mapM_total _
             (fun u => map (fun j => nth j items 0%Z)
                           (stories_positions topk_row self log items k u)))
    by (intros; apply stories_recommend_ok; auto).
  simpl bind. rewrite data_frame_rows with (k := k).
  - f_equal. apply flat_map_ext. intros u. now rewrite map_map.
  - intros u _. rewrite length_map. unfold stories_positions.
    apply (topk_length topk_ok). now rewrite stories_combined_length.
Qed.

End StoriesTopK.

(** ** Identifiers the encoders know and do not know *)




(** ** Counting unmasked positions *)

Lemma map_nth_seq {A : Type} (l : list A) (d : A) :
  map (fun j => nth j l d) (seq 0 (length l)) = l.
Proof.
  induction l as [|x t IH]; simpl; [reflexivity|].
  rewrite <- seq_shift, map_map. simpl. now rewrite IH.
Qed.

Lemma filter_map_comm {A B : Type} (p : B -> bool) (g : A -> B) (l : list A) :
  filter p (map g l) = map g (filter (fun a => p (g a)) l).
Proof.
  induction l as [|a t IH]; simpl; [reflexivity|].
  destruct (p (g a)); simpl; now rewrite IH.
Qed.

Lemma unmasked_positions_length (log : list InteractionRecord)
      (items : list ItemId) (u : UserId) :
  length (filter (fun j => negb (excluded log u (nth j items 0%Z)))
                 (seq 0 (length items)))
  = count_unmasked log items u.
Proof.
  unfold count_unmasked.
  transitivity
    (length (filter (fun i => negb (excluded log u i))
                    (map (fun j => nth j items 0%Z) (seq 0 (length items))))).
  - now rewrite filter_map_comm, length_map.
  - now rewrite map_nth_seq.
Qed.

(** A selection of [k] distinct positions that holds a masked one misses an
    unmasked one as soon as [k] positions are unmasked. *)
Lemma some_unmasked_left_out (masked : nat -> bool) (n k j : nat) (l : list nat) :
  NoDup l -> length l = k -> In j l -> masked j = true ->
  k <= length (filter (fun m => negb (masked m)) (seq 0 n)) ->
  exists m, m < n /\ masked m = false /\ ~ In m l.
Proof.
  intros Hnd Hlen Hj Hmj Hk.
  set (U := filter (fun m => negb (masked m)) (seq 0 n)) in *.
  destruct (Forall_Exists_dec (fun m => In m l)
              (fun m => in_dec Nat.eq_dec m l) U) as [Hall|Hex].
  - exfalso.
    assert (Hincl : incl U (remove Nat.eq_dec j l)).
    { intros m Hm. rewrite Forall_forall in Hall.
      apply in_in_remove; [|now apply Hall].
      intros ->. apply filter_In in Hm as [_ Hm].
      rewrite Hmj in Hm. discriminate. }
    assert (HU : NoDup U) by apply NoDup_filter, seq_NoDup.
    pose proof (NoDup_incl_length HU Hincl).
    pose proof (remove_length_lt Nat.eq_dec l j Hj). lia.
  - apply Exists_exists in Hex as (m & Hm & Hnot).
    apply filter_In in Hm as [Hseq Hm]. apply in_seq in Hseq.
    exists m. repeat split; [lia | now apply negb_true_iff | assumption].
Qed.

(** ** Claims about the learned adapter's pipeline *)

(** C1 (as amended): for every exclusion log, user list, candidate list and
    k, with a positive batch size, k at most the number of candidates,
    encoder values that fit 64 bits, feature frames with distinct labels
    and no missing feature row, scores that
    can be computed for every user (network widths that agree, every index
    a row of its embedding table) and raw scores above the sentinel -1,
    [model_predict_top_k] returns a frame in which no pair of the exclusion
    log appears for a user who has at least k unmasked candidate
    positions. *)
Theorem excluded_pairs_never_recommended
        (topk_row : list Q -> nat -> list nat) (self : StoriesRecModel.Model)
        (log : list InteractionRecord) (users : list UserId)
        (items : list ItemId) (k : nat) :
  TopKSpec topk_row ->
  (0 < StoriesRecModel.valid_batch_size self)%Z ->
  k <= length items ->
  StoriesRecModel.inputs_readable self = true ->
  StoriesRecModel.features_known self users items = true ->
  (forall u, In u users ->
             StoriesRecModel.scores_defined self items u = true) ->
  (forall u i, In u users -> In i items ->
               (minus_one < StoriesRecModel.raw_score self u i)%Q) ->
  exists out,
    StoriesRecModel.model_predict_top_k topk_row self log users items k = Some out
    /\ forall u i, excluded log u i = true ->
                   k <= count_unmasked log items u ->
                   ~ In (u, i) out.
Proof.
  intros Hok HB Hk _ _ Hdef Hraw.
  rewrite stories_top_k_result by assumption.
  eexists; split; [reflexivity|].
  intros u i Hex Hcount Hin.
  apply in_flat_map in Hin as (u' & Hu' & Hin).
  apply in_map_iff in Hin as (j & E & Hj).
  inversion E; subst u' i; clear E.
  unfold stories_positions in Hj.
  set (row := stories_combined self log items u) in *.
  assert (Hlen : length row = length items)
    by apply stories_combined_length.
  assert (Hk' : k <= length row) by lia.
  assert (Hjn : j < length items)
    by (rewrite <- Hlen; eapply (topk_range Hok); eassumption).
  destruct (@some_unmasked_left_out
              (fun m => excluded log u (nth m items 0%Z)) (length items)
              k j (topk_row row k))
    as (m & Hm & Hfree & Hout);
    [ now apply (topk_nodup Hok) | now apply (topk_length Hok)
    | assumption | assumption
    | now rewrite unmasked_positions_length | ].
  assert (Hle : (score_at row m <= score_at row j)%Q).
  { apply (topk_top Hok) with (k := k); try assumption. now rewrite Hlen. }
  unfold row in Hle.
  rewrite !stories_combined_entry in Hle by assumption.
  rewrite Hex, Hfree in Hle.
  assert (Hgt : (minus_one < StoriesRecModel.raw_score self u (nth m items 0%Z))%Q)
    by (apply Hraw; [assumption | now apply nth_In]).
  apply (Qlt_not_le _ _ Hgt). exact Hle.
Qed.


(** C2: when the exclusion log filtered to the batch is empty, the mask
    construction returns the all-zero mask of shape (batch users x candidate
    items) whatever the pivot operation would do, and does not raise. *)
Theorem empty_exclusion_gives_zero_mask
        (pivot_op : list GroupedRow -> option WideFrame)
        (df_log_exclude : list GroupedRow)
        (batch_id_users : list UserId) (id_items : list ItemId) :
  isin_users batch_id_users df_log_exclude = [] ->
  exists mask,
    build_drop_mask_with pivot_op df_log_exclude batch_id_users id_items
    = Some mask
    /\ mask = np_zeros (length batch_id_users) (length id_items)
    /\ length mask = length batch_id_users
    /\ Forall (fun row => length row = length id_items
                          /\ Forall (fun m => m = 0%Q) row) mask.
Proof.
  intros He. unfold build_drop_mask_with. rewrite He. simpl.
  eexists; split; [reflexivity|]. split; [reflexivity|].
  unfold np_zeros. split; [apply repeat_length|].
  apply Forall_forall. intros row Hrow. apply repeat_spec in Hrow. subst row.
  split; [apply repeat_length|].
  apply Forall_forall. intros m Hm. now apply repeat_spec in Hm.
Qed.

(** ** The masking expression on binary32 numbers *)

Lemma f32_digits_shift (m : positive) (e : Z) :
  (Zdigits2 (Z.pos (8388608 * m)) + (-23 + e) = Z.pos (digits2_pos m) + e)%Z.
Proof.
  change (8388608 * m)%positive
    with (m~0~0~0~0~0~0~0~0~0~0~0~0~0~0~0~0~0~0~0~0~0~0~0)%positive.
  cbn [Zdigits2 digits2_pos]. rewrite !Pos2Z.inj_succ. lia.
Qed.

(** Multiplying by 1.0 does not round. *)
Lemma f32_mul_one_finite (s : bool) (m : positive) (e : Z) :
  bounded Float32.prec Float32.emax m e = true ->
  Float32.mul Float32.one (S754_finite s m e) = S754_finite s m e.
Proof.
  intros Hb. unfold bounded in Hb. apply andb_true_iff in Hb as [Hc He].
  unfold canonical_mantissa in Hc. apply Z.eqb_eq in Hc.
  unfold Float32.mul, SFmul, Float32.one. cbn [xorb].
  unfold binary_round_aux.
  unfold shr_fexp at 1. rewrite f32_digits_shift, Hc.
  replace (e - (-23 + e))%Z with 23%Z by lia.
  change (8388608 * m)%positive
    with (m~0~0~0~0~0~0~0~0~0~0~0~0~0~0~0~0~0~0~0~0~0~0~0)%positive.
  cbn [shr shr_record_of_loc iter_pos shr_1 orb].
  cbn [shr_m loc_of_shr_record round_nearest_even].
  replace (-23 + e + 23)%Z with e by lia.
  unfold shr_fexp. cbn [Zdigits2]. rewrite Hc, Z.sub_diag.
  cbn [shr shr_record_of_loc shr_m].
  unfold Float32.prec, Float32.emax in *. now rewrite He.
Qed.

Lemma f32_mul_one (x : Float32.float) :
  Float32.valid x = true -> Float32.mul Float32.one x = x.
Proof.
  destruct x as [s|s| |s m e]; try reflexivity.
  intros H. now apply f32_mul_one_finite.
Qed.

(** The entry under a mask of 0.0 is the raw score, whatever it is. *)
Lemma f32_unmasked_entry (x : Float32.float) :
  Float32.valid x = true ->
  Float32.add (Float32.mul Float32.zero Float32.minus_one)
              (Float32.mul (Float32.sub Float32.one Float32.zero) x)
  = x.
Proof.
  intros H.
  change (Float32.sub Float32.one Float32.zero) with Float32.one.
  rewrite f32_mul_one by assumption.
  change (Float32.mul Float32.zero Float32.minus_one) with (S754_zero true).
  destruct x as [[|]|[|]| |s m e]; reflexivity.
Qed.

(** The entry under a mask of 1.0 is the sentinel when the raw score is a
    finite number, and NaN when it is an infinity or NaN. *)
Lemma f32_masked_entry (x : Float32.float) :
  Float32.add (Float32.mul Float32.one Float32.minus_one)
              (Float32.mul (Float32.sub Float32.one Float32.one) x)
  = if Float32.is_finite x then Float32.minus_one else S754_nan.
Proof.
  change (Float32.sub Float32.one Float32.one) with (S754_zero false).
  change (Float32.mul Float32.one Float32.minus_one)
    with (S754_finite true 8388608 (-23)).
  change Float32.minus_one with (S754_finite true 8388608 (-23)).
  destruct x as [[|]|[|]| |[|] m e]; reflexivity.
Qed.

(** C4 (as amended): for every batch of binary32 scores and 0.0/1.0
    exclusion mask of the same shape (given row by row as pairs of a mask
    row and a score row) the masking expression is defined and keeps the
    shape. Where the mask is 0.0 the combined entry is the raw score
    itself, whatever the score is. Where the mask is 1.0 it is the finite
    sentinel -1.0 when the raw score is a finite number, and NaN when the
    raw score is an infinity or NaN. A masked entry with a finite raw
    score lies strictly below every unmasked entry whose raw score exceeds
    -1.0. *)
Theorem combined_score_is_sentinel_or_raw
        (rows : list (list Float32.float * list Float32.float)) :
  (forall r, In r rows ->
             length (fst r) = length (snd r)
             /\ Forall (fun m => m = Float32.zero \/ m = Float32.one) (fst r)
             /\ Forall (fun x => Float32.valid x = true) (snd r)) ->
  Float32.apply_drop_mask (map fst rows)
                          (map (map (fun _ => Float32.minus_one)) (map snd rows))
                          (map snd rows)
  = Some (map (fun r => Float32.combine_row (fst r) (snd r)) rows)
  /\ Float32.minus_one = Float32.neg_one
  /\ Float32.is_finite Float32.minus_one = true
  /\ forall mask scores, In (mask, scores) rows ->
       let combined := Float32.combine_row mask scores in
       length combined = length scores
       /\ forall j, j < length scores ->
            let m := nth j mask Float32.zero in
            let raw := nth j scores Float32.zero in
            let entry := nth j combined Float32.zero in
            (m = Float32.zero -> entry = raw)
            /\ (m = Float32.one -> Float32.is_finite raw = true ->
                entry = Float32.minus_one)
            /\ (m = Float32.one -> Float32.is_finite raw = false ->
                entry = S754_nan)
            /\ forall j', j' < length scores ->
                 m = Float32.one -> Float32.is_finite raw = true ->
                 nth j' mask Float32.zero = Float32.zero ->
                 Float32.ltb Float32.minus_one (nth j' scores Float32.zero)
                 = true ->
                 Float32.ltb entry (nth j' combined Float32.zero) = true.
Proof.
  intros Hrows. split; [|split; [reflexivity|split; [reflexivity|]]].
  - rewrite map_map.
    unfold Float32.apply_drop_mask. rewrite apply_drop_mask_in_map.
    apply mapM_total. intros r Hr. rewrite map_const_repeat.
    apply apply_drop_mask_row_in_same. now apply Hrows.
  - intros mask scores Hin combined.
    destruct (Hrows _ Hin) as (E & Hm & Hv). simpl in E, Hm, Hv.
    split; [now apply combine_row_in_length|].
    assert (Hentry : forall j, j < length scores ->
              nth j combined Float32.zero
              = Float32.add
                  (Float32.mul (nth j mask Float32.zero) Float32.minus_one)
                  (Float32.mul
                     (Float32.sub Float32.one (nth j mask Float32.zero))
                     (nth j scores Float32.zero))).
    { intros j Hj. unfold combined, Float32.combine_row.
      now rewrite (combine_row_in_nth Float32.mul Float32.add Float32.sub
                     Float32.one Float32.minus_one Float32.zero). }
    assert (Hvalid : forall j, j < length scores ->
              Float32.valid (nth j scores Float32.zero) = true).
    { intros j Hj. rewrite Forall_forall in Hv. now apply Hv, nth_In. }
    assert (H0 : forall j, j < length scores ->
              nth j mask Float32.zero = Float32.zero ->
              nth j combined Float32.zero = nth j scores Float32.zero).
    { intros j Hj M. rewrite Hentry, M by assumption.
      apply f32_unmasked_entry. now apply Hvalid. }
    assert (H1 : forall j, j < length scores ->
              nth j mask Float32.zero = Float32.one ->
              nth j combined Float32.zero
              = if Float32.is_finite (nth j scores Float32.zero)
                then Float32.minus_one else S754_nan).
    { intros j Hj M. rewrite Hentry, M by assumption.
      apply f32_masked_entry. }
    intros j Hj m raw entry. repeat split.
    + now apply H0.
    + intros M F. unfold entry. rewrite H1 by assumption. fold raw. now rewrite F.
    + intros M F. unfold entry. rewrite H1 by assumption. fold raw. now rewrite F.
    + intros j' Hj' M F M' Hgt. unfold entry.
      rewrite H1, H0 by assumption. fold raw. now rewrite F.
Qed.

(** ** PopularModel: the loop body and the whole call *)

Lemma mapM_bind_mapM_k {A B C D : Type} (f : A -> option B) (g : B -> option C)
      (K : list C -> option D) (l : list A) :
  (t <- mapM f l ;; r <- mapM g t ;; K r)
  = (r <- mapM (fun a => x <- f a ;; g x) l ;; K r).
Proof.
  rewrite <- mapM_bind_mapM. now destruct (mapM f l).
Qed.

Section PopularLoop.

Variable topk_row : list Q -> nat -> list nat.
Variable self : PopularModel.Model.
Variable log : list InteractionRecord.
Variable cand : list ItemId.
Variable item_predict_row : list Q.
Variable k : nat.

Lemma popular_predict_batch (users : list UserId) (ix_start : nat) :
  let batch :=
    slice users ix_start
          (ix_start
           + Z.to_nat (PopularModel.valid_batch_size (PopularModel.config self))) in
  PopularModel.predict_batch topk_row self (groupby_count log) users cand cand
                             item_predict_row (repeat minus_one (length cand))
                             k ix_start
  = (rows <- mapM (popular_recommend topk_row log cand item_predict_row k) batch ;;
     Some (flat_map (fun u => repeat u k) batch, concat rows)).
Proof.
  intros batch. unfold PopularModel.predict_batch. fold batch.
  rewrite build_drop_mask_rows. simpl bind.
  rewrite <- !(map_const_repeat _ batch), apply_drop_mask_map.
  unfold topk. rewrite mapM_bind_mapM_k.
  unfold take_items. rewrite mapM_concat_k.
  erewrite mapM_ext_in; [reflexivity|].
  intros u _. unfold popular_recommend, recommend_row, take_items.
  now rewrite bind_assoc.
Qed.

Lemma popular_for_batches (users : list UserId) :
  (0 < PopularModel.valid_batch_size (PopularModel.config self))%Z ->
  (starts <- py_range (length users)
                      (PopularModel.valid_batch_size (PopularModel.config self)) ;;
   s <- for_batches (PopularModel.predict_batch
                       topk_row self (groupby_count log) users cand cand
                       item_predict_row (repeat minus_one (length cand)) k)
                    starts ([], []) ;;
   data_frame (fst s) (snd s))
  = predict_all (popular_recommend topk_row log cand item_predict_row k) k users.
Proof.
  intros HB.
  destruct (py_range_chunks users HB) as (starts & -> & Hc & _). simpl bind.
  rewrite (for_batches_spec
             (popular_recommend topk_row log cand item_predict_row k)
             (fun u => repeat u k)
             (PopularModel.predict_batch
                       topk_row self (groupby_count log) users cand cand
                       item_predict_row (repeat minus_one (length cand)) k)
             (fun s => slice users s
                (s + Z.to_nat (PopularModel.valid_batch_size
                                 (PopularModel.config self))))
             starts ([], []) (fun s _ => popular_predict_batch users s)).
  rewrite Hc. unfold predict_all. simpl.
  destruct (mapM _ users); reflexivity.
Qed.

End PopularLoop.

(** For a positive batch size the popularity adapter's call is: restrict
    the candidates once, then [predict_all] against the restricted list. *)
Lemma popular_top_k_unbatched (topk_row : list Q -> nat -> list nat)
      (argsort_desc : list Q -> list nat) (self : PopularModel.Model)
      (log : list InteractionRecord) (users : list UserId)
      (items : list ItemId) (k : nat) :
  (0 < PopularModel.valid_batch_size (PopularModel.config self))%Z ->
  PopularModel.model_predict_top_k topk_row argsort_desc self log users items k
  = (cand <- PopularModel.restrict_items argsort_desc self items k ;;
     predict_all
       (popular_recommend topk_row log cand
          (map snd (PopularModel.loc (PopularModel.candidate_scores self items) cand)) k)
       k users).
Proof.
  intros HB. unfold PopularModel.model_predict_top_k.
  destruct (PopularModel.restrict_items argsort_desc self items k) as [cand|];
    simpl bind; [|reflexivity].
  now apply popular_for_batches.
Qed.

(** C5: for every user list, item list, exclusion log, scoring function and
    k, any two positive batch sizes give the same result of
    [model_predict_top_k], in the learned adapter and in the popularity
    adapter (including the case in which the call raises). *)
Theorem batch_size_does_not_change_top_k
        (topk_row : list Q -> nat -> list nat) (argsort_desc : list Q -> list nat)
        (stories_model : StoriesRecModel.Model) (popular_model : PopularModel.Model)
        (log : list InteractionRecord) (users : list UserId)
        (items : list ItemId) (k : nat) (b1 b2 : Z) :
  (0 < b1)%Z -> (0 < b2)%Z ->
  StoriesRecModel.model_predict_top_k
    topk_row (StoriesRecModel.with_batch_size stories_model b1) log users items k
  = StoriesRecModel.model_predict_top_k
      topk_row (StoriesRecModel.with_batch_size stories_model b2) log users items k
  /\ PopularModel.model_predict_top_k
       topk_row argsort_desc (PopularModel.with_batch_size popular_model b1)
       log users items k
     = PopularModel.model_predict_top_k
         topk_row argsort_desc (PopularModel.with_batch_size popular_model b2)
         log users items k.
Proof.
  intros H1 H2. split.
  - rewrite !stories_top_k_unbatched by assumption. reflexivity.
  - rewrite !popular_top_k_unbatched by assumption. reflexivity.
Qed.

(** ** The popularity scores and the restricted candidate list *)

Lemma dict_lookup_map_values {V W : Type} (g : V -> W) (d : list (Z * V)) (i : Z) :
  dict_lookup (map (fun row => (fst row, g (snd row))) d) i
  = option_map g (dict_lookup d i).
Proof.
  induction d as [|[j v] t IH]; simpl; [reflexivity|].
  destruct (j =? i)%Z; [reflexivity | exact IH].
Qed.

(** C6 (as amended): for every trained popularity model with a non-zero
    denominator, an item of the popularity table scores
    (value + alpha) / (sum of values + beta), an item outside the table
    scores 0.0, and every user of a batch gets the same raw row; with
    alpha = beta = 1000 and the table {i1: 10, i2: 0} the scores are
    1010/1010 and 1000/1010, so i1 ranks above i2. *)
Theorem popularity_score_formula (self : PopularModel.Model)
        (id_items : list ItemId) (batch_size : nat) :
  ~ (PopularModel.qsum (map snd (PopularModel.items_popularity self))
     + PopularModel.beta self == 0)%Q ->
  (forall i v,
      dict_lookup (PopularModel.items_popularity self) i = Some v ->
      PopularModel.item_score self i
      = ((v + PopularModel.alpha self)
         / (PopularModel.qsum (map snd (PopularModel.items_popularity self))
            + PopularModel.beta self))%Q)
  /\ (forall i,
         dict_lookup (PopularModel.items_popularity self) i = None ->
         PopularModel.item_score self i = 0%Q)
  /\ Forall (eq (map (PopularModel.item_score self) id_items))
            (repeat (map snd (PopularModel.candidate_scores self id_items))
                    batch_size)
  /\ (PopularModel.item_score Examples.scenario_popular Examples.i1 = 1010 # 1010
      /\ PopularModel.item_score Examples.scenario_popular Examples.i2 = 1000 # 1010
      /\ PopularModel.item_score Examples.scenario_popular Examples.i2
         < PopularModel.item_score Examples.scenario_popular Examples.i1)%Q.
Proof.
  intros _. split; [|split; [|split]].
  - intros i v H. unfold PopularModel.item_score, PopularModel._get_item_scores,
      dict_get.
    rewrite (dict_lookup_map_values
               (fun x => ((x + PopularModel.alpha self)
                          / (PopularModel.qsum
                               (map snd (PopularModel.items_popularity self))
                             + PopularModel.beta self))%Q)), H.
    reflexivity.
  - intros i H. unfold PopularModel.item_score, PopularModel._get_item_scores,
      dict_get.
    rewrite (dict_lookup_map_values
               (fun x => ((x + PopularModel.alpha self)
                          / (PopularModel.qsum
                               (map snd (PopularModel.items_popularity self))
                             + PopularModel.beta self))%Q)), H.
    reflexivity.
  - apply Forall_forall. intros row H. apply repeat_spec in H. subst row.
    unfold PopularModel.candidate_scores. now rewrite map_map.
  - repeat split.
Qed.





Lemma sort_values_desc_perm (argsort_desc : list Q -> list nat)
      (s : list (ItemId * Q)) :
  ArgsortSpec argsort_desc ->
  Permutation (PopularModel.sort_values_desc argsort_desc s) s.
Proof.
  intros Hok. unfold PopularModel.sort_values_desc.
  rewrite (Permutation_map _ (argsort_perm Hok (map snd s))).
  rewrite length_map, map_nth_seq. reflexivity.
Qed.

Lemma loc_single_row (f : ItemId -> Q) (items : list ItemId) (i : ItemId) :
  NoDup items -> In i items ->
  filter (fun row : ItemId * Q => (fst row =? i)%Z) (map (fun j => (j, f j)) items)
  = [(i, f i)].
Proof.
  induction 1 as [|x t Hx Hnd IH]; simpl; [contradiction|].
  intros [->|Hi].
  - rewrite Z.eqb_refl. f_equal.
    clear IH Hnd. induction t as [|y t IH]; simpl; [reflexivity|].
    destruct (Z.eqb_spec y i) as [->|_]; [exfalso; apply Hx; simpl; auto|].
    apply IH. intros H. apply Hx. simpl; auto.
  - destruct (Z.eqb_spec x i) as [->|_]; [contradiction|]. now apply IH.
Qed.

Lemma loc_unique_rows (f : ItemId -> Q) (items cand : list ItemId) :
  NoDup items -> incl cand items ->
  PopularModel.loc (map (fun j => (j, f j)) items) cand
  = map (fun j => (j, f j)) cand.
Proof.
  intros Hnd. unfold PopularModel.loc.
  induction cand as [|i t IH]; simpl; intros Hincl; [reflexivity|].
  rewrite loc_single_row by (try assumption; apply Hincl; simpl; auto).
  simpl. f_equal. apply IH. intros x Hx. apply Hincl. simpl; auto.
Qed.

Lemma In_firstn {A : Type} (n : nat) (l : list A) (x : A) :
  In x (firstn n l) -> In x l.
Proof.
  intros H. rewrite <- (firstn_skipn n l). apply in_or_app. now left.
Qed.

Lemma NoDup_firstn {A : Type} (n : nat) (l : list A) :
  NoDup l -> NoDup (firstn n l).
Proof.
  intros H. revert n. induction H as [|x t Hx _ IH]; intros [|n]; simpl;
    try constructor; [|apply IH].
  intros Hin. apply Hx. eapply In_firstn. exact Hin.
Qed.




(** ** ALSModel: rows of unknown users and items *)

Section ALSPredict.

Variable self : ALSModel.Model.
Variable user_item_data : list InteractionRecord.


Lemma als_predict_user_total (user : UserId) (item_list : list ItemId) :
  ALSModel.rank_items_in_range self ->
  ALSModel.item_map_in_range self ->
  exists rows, ALSModel.predict_user self user_item_data user item_list = Some rows.
Proof.
  intros Hrank0 Hmap.
  assert (Hrank : forall user_ix p,
             In p (ALSModel.rank_items self user_ix user_item_data
                     (flat_map (fun item =>
                                  match dict_lookup (ALSModel.item_map self) item with
                                  | Some ix => [ix]
                                  | None => []
                                  end) item_list)) ->
             ALSModel.np_index (ALSModel.item_index self) (fst p) <> None).
  { intros user_ix p. apply Hrank0. intros ix Hix.
    apply in_flat_map in Hix as (item & _ & Hix).
    destruct (dict_lookup (ALSModel.item_map self) item) as [ix'|] eqn:E;
      [|contradiction].
    destruct Hix as [<-|[]]. eapply Hmap; eassumption. }
  clear Hrank0 Hmap. unfold ALSModel.predict_user.
  destruct (_ =? -1)%Z; [eauto|].
  destruct (0 <? _); simpl bind; [|eauto].
  match goal with |- context [mapM ?f ?l] => destruct (mapM f l) as [ranked|] eqn:E end;
    simpl bind; [eauto|].
  exfalso. revert E.
  match goal with |- mapM ?f ?l = None -> False =>
    assert (Hall : forall p, In p l -> f p <> None); [|induction l as [|p t IH]]
  end.
  - intros p Hp. specialize (Hrank _ _ Hp).
    destruct (ALSModel.np_index _ _); [discriminate | contradiction].
  - discriminate.
  - simpl. intros E.
    destruct (ALSModel.np_index (ALSModel.item_index self) (fst p)) as [it|] eqn:Ep;
      simpl in E.
    + destruct (mapM _ t) eqn:Et; simpl in E; [discriminate|].
      apply IH; [intros q Hq; apply Hall; now right | reflexivity].
    + apply (Hall p (or_introl eq_refl)). simpl. now rewrite Ep.
Qed.

Lemma als_np_index_In (a : list Z) (j x : Z) :
  ALSModel.np_index a j = Some x -> In x a.
Proof.
  unfold ALSModel.np_index.
  destruct (_ && _); [apply nth_error_In|].
  destruct (_ && _); [apply nth_error_In | discriminate].
Qed.


Lemma als_predicted_rows_total (df_log_predict : list InteractionRecord) :
  ALSModel.rank_items_in_range self ->
  ALSModel.item_map_in_range self ->
  exists rows, ALSModel.predicted_rows self user_item_data df_log_predict = Some rows.
Proof.
  intros Hrank Hmap. unfold ALSModel.predicted_rows.
  induction (ALSModel.for_predict df_log_predict) as [|[u l] t IH]; simpl.
  - eauto.
  - destruct (als_predict_user_total u l Hrank Hmap) as (r & ->). simpl bind.
    destruct IH as (rows & IH).
    apply bind_Some_inv in IH as (rs & -> & _). simpl. eauto.
Qed.

End ALSPredict.



Lemma als_rescale_key (self : ALSModel.Model) (r : InteractionRecord) :
  key_of (ALSModel.rescale self r) = key_of r.
Proof.
  unfold ALSModel.rescale. destruct (ALSModel.pop_norm self); reflexivity.
Qed.

Lemma key_of_inj (r : InteractionRecord) (u : UserId) (i : ItemId) :
  key_of r = (u, i) -> r = mkRecord u i (relevance r).
Proof.
  destruct r as [u' i' x]; unfold key_of; simpl. intros [= -> ->]. reflexivity.
Qed.




(** ** The tie order of the selection primitive *)

(** The contract of [torch.topk] does not fix the order of equal scores:
    both reference implementations meet it, and they disagree on a tie. *)
Lemma topk_contract_leaves_ties_open :
  TopKSpec (topk_ref true) /\ TopKSpec (topk_ref false)
  /\ topk_ref true [1%Q; 1%Q] 1 = [0]
  /\ topk_ref false [1%Q; 1%Q] 1 = [1].
Proof.
  repeat split; try apply topk_ref_spec.
Qed.

(** ** DropoutTrx.get_idx *)

Lemma insert_asc_sorted_lt (x : Z) (l : list Z) :
  StronglySorted Z.lt l -> ~ In x l -> StronglySorted Z.lt (insert_asc x l).
Proof.
  induction 1 as [|y t Ht IH Hy]; simpl; intros Hx.
  - repeat constructor.
  - destruct (Z.leb_spec x y).
    + assert (x < y)%Z by (assert (y <> x) by tauto; lia).
      constructor; [now constructor|].
      constructor; [assumption|].
      eapply Forall_impl; [|exact Hy]. simpl. intros; lia.
    + constructor; [apply IH; tauto|].
      eapply Permutation_Forall; [symmetry; apply insert_asc_perm|].
      constructor; assumption.
Qed.

Lemma np_sort_sorted_lt (l : list Z) :
  NoDup l -> StronglySorted Z.lt (np_sort l).
Proof.
  induction 1 as [|x t Hx _ IH]; simpl; [constructor|].
  apply insert_asc_sorted_lt; [assumption|].
  intros H. apply Hx. eapply Permutation_in; [apply np_sort_perm | exact H].
Qed.

Lemma arange_In (n j : Z) : In j (arange n) -> (0 <= j < n)%Z.
Proof.
  unfold arange. intros H. apply in_map_iff in H as (x & <- & Hx).
  apply in_seq in Hx. lia.
Qed.

Lemma arange_sorted (n : Z) : StronglySorted Z.lt (arange n).
Proof.
  unfold arange. generalize 0 as s.
  induction (Z.to_nat n) as [|m IH]; intros s; simpl; constructor.
  - apply IH.
  - apply Forall_forall. intros j Hj. apply in_map_iff in Hj as (x & <- & Hx).
    apply in_seq in Hx. lia.
Qed.

Lemma arange_NoDup (n : Z) : NoDup (arange n).
Proof.
  unfold arange. apply Finite.Injective_map_NoDup; [|apply seq_NoDup].
  intros a b. apply Nat2Z.inj.
Qed.

Lemma arange_length (n : Z) : length (arange n) = Z.to_nat n.
Proof.
  unfold arange. now rewrite length_map, length_seq.
Qed.

(** In exact arithmetic the sample size lies between 1 and [seq_len]. *)
Lemma sample_size_exact_bounds (p : Q) (n : Z) :
  (0 < p)%Q -> (p < 1)%Q -> (0 < n)%Z ->
  (1 <= DropoutTrx.sample_size_exact p n <= n)%Z.
Proof.
  intros Hp Hp1 Hn. unfold DropoutTrx.sample_size_exact.
  assert (Hq : (0 < inject_Z n)%Q)
    by (change 0%Q with (inject_Z 0); now rewrite <- Zlt_Qlt).
  set (x := (inject_Z n * (1 - p) + 1)%Q).
  assert (Hlow : (1 <= x)%Q).
  { unfold x. assert (0 <= inject_Z n * (1 - p))%Q by (apply Qmult_le_0_compat; lra).
    lra. }
  assert (Hhigh : (x < inject_Z (n + 1))%Q).
  { unfold x. rewrite inject_Z_plus.
    assert (0 < inject_Z n * p)%Q by (apply Qmult_lt_0_compat; assumption).
    change (inject_Z 1) with 1%Q. lra. }
  split.
  - change 1%Z with (Qfloor 1). now apply Qfloor_resp_le.
  - assert (H : (inject_Z (Qfloor x) < inject_Z (n + 1))%Q)
      by (eapply Qle_lt_trans; [apply Qfloor_le | exact Hhigh]).
    rewrite <- Zlt_Qlt in H. lia.
Qed.

(** [DropoutTrx.get_idx] with the size expression evaluated exactly: for
    every dropout rate in [0, 1) and every permutation drawn by the
    generator the result is a strictly increasing list of indices below
    [seq_len]; under dropout it has [sample_size_exact] elements, a number
    between 1 and [seq_len]; without it the result is [arange seq_len]. *)
Lemma get_idx_exact_spec (p : Q) (perm : list Z) (n : Z) :
  (0 <= p)%Q -> (p < 1)%Q -> (0 <= n)%Z -> Permutation perm (arange n) ->
  exists idx,
    DropoutTrx.get_idx_exact p perm n = Some idx
    /\ StronglySorted Z.lt idx
    /\ Forall (fun j => (0 <= j < n)%Z) idx
    /\ ((0 < p)%Q -> (0 < n)%Z ->
        Z.of_nat (length idx) = DropoutTrx.sample_size_exact p n
        /\ (1 <= DropoutTrx.sample_size_exact p n <= n)%Z)
    /\ (~ ((0 < p)%Q /\ (0 < n)%Z) -> idx = arange n).
Proof.
  intros Hp0 Hp1 Hn Hperm.
  unfold DropoutTrx.get_idx_exact, DropoutTrx.get_idx_sized.
  destruct (Qlt_le_dec 0 p) as [Hp|Hp]; simpl andb.
  2:{ exists (arange n). split; [reflexivity|].
      split; [apply arange_sorted|].
      split; [apply Forall_forall; intros j; apply arange_In|].
      split; [intros H; exfalso; lra | reflexivity]. }
  destruct (Z.ltb_spec 0 n) as [Hn'|Hn'].
  2:{ exists (arange n). split; [reflexivity|].
      split; [apply arange_sorted|].
      split; [apply Forall_forall; intros j; apply arange_In|].
      split; [intros _ H; lia | reflexivity]. }
  pose proof (sample_size_exact_bounds Hp Hp1 Hn') as Hs.
  set (s := DropoutTrx.sample_size_exact p n) in *.
  unfold DropoutTrx.choice.
  destruct (Z.ltb_spec s 0); [lia|]. destruct (Z.ltb_spec n s); [lia|].
  simpl. eexists; split; [reflexivity|].
  assert (Hnd : NoDup (firstn (Z.to_nat s) perm)).
  { assert (N : NoDup perm)
      by (eapply Permutation_NoDup; [symmetry; exact Hperm | apply arange_NoDup]).
    rewrite <- (firstn_skipn (Z.to_nat s) perm) in N.
    now apply NoDup_app_remove_r in N. }
  split; [now apply np_sort_sorted_lt|].
  split.
  - apply Forall_forall. intros j Hj. apply arange_In.
    apply (Permutation_in _ Hperm).
    apply (Permutation_in _ (np_sort_perm _)) in Hj.
    rewrite <- (firstn_skipn (Z.to_nat s) perm). apply in_or_app. now left.
  - split; [|intros Hno; exfalso; apply Hno; split; assumption].
    intros _ _. split; [|assumption].
    rewrite (Permutation_length (np_sort_perm _)), firstn_length_le.
    + lia.
    + rewrite (Permutation_length Hperm), arange_length. lia.
Qed.

(** C10, at the failing input: for the dropout rates [1e-17] and
    [2.0 ** -60], which lie strictly between 0 and 1, double precision
    rounds [1 - trx_dropout] to 1.0, the sample size for [seq_len = 1] is 2,
    and the sampling without replacement raises. *)
Theorem get_idx_tiny_dropout_raises :
  DropoutTrx.fltb (DropoutTrx.of_int 0) DropoutTrx.ten_pow_m17 = true
  /\ DropoutTrx.fltb DropoutTrx.ten_pow_m17 (DropoutTrx.of_int 1) = true
  /\ DropoutTrx.fsub (DropoutTrx.of_int 1) DropoutTrx.ten_pow_m17
     = DropoutTrx.of_int 1
  /\ DropoutTrx.sample_size DropoutTrx.ten_pow_m17 1 = Some 2%Z
  /\ DropoutTrx.get_idx DropoutTrx.ten_pow_m17 [0%Z] 1 = None
  /\ DropoutTrx.sample_size DropoutTrx.two_pow_m60 5 = Some 6%Z
  /\ DropoutTrx.get_idx DropoutTrx.two_pow_m60 [3; 1; 0; 2; 4]%Z 5 = None.
Proof.
  vm_compute. repeat split.
Qed.

(** A usual rate, for comparison: [trx_dropout = 0.5] keeps
    [int(5 * 0.5 + 1) = 3] of 5 positions. *)
Example get_idx_half :
  DropoutTrx.get_idx (DropoutTrx.fdiv (DropoutTrx.of_int 1) (DropoutTrx.of_int 2))
                     [3; 1; 0; 2; 4]%Z 5
  = Some [0; 1; 3]%Z.
Proof.
  vm_compute. reflexivity.
Qed.

(** ** A trained factorization adapter is well formed *)

Lemma combine_lookup_covers (l vals : list Z) (x : Z) :
  length l <= length vals -> In x l -> dict_lookup (combine l vals) x <> None.
Proof.
  revert vals; induction l as [|a l IH]; intros [|v vals] Hlen Hx; simpl in *;
    try contradiction; try lia.
  destruct (Z.eqb_spec a x); [discriminate|].
  apply IH; [lia | tauto].
Qed.

Lemma enumerate_lookup_range (l : list Z) (s : nat) (x ix : Z) :
  dict_lookup (combine l (map Z.of_nat (seq s (length l)))) x = Some ix ->
  (Z.of_nat s <= ix < Z.of_nat (s + length l))%Z.
Proof.
  revert s; induction l as [|a l IH]; intros s; simpl; [discriminate|].
  destruct (a =? x)%Z.
  - intros [= <-]. lia.
  - intros H. apply IH in H. lia.
Qed.

Lemma np_index_in_range (a : list Z) (j : Z) :
  (0 <= j < Z.of_nat (length a))%Z -> ALSModel.np_index a j <> None.
Proof.
  intros H. unfold ALSModel.np_index.
  destruct (Z.leb_spec 0 j); [|lia].
  destruct (Z.ltb_spec j (Z.of_nat (length a))); [|lia]. simpl.
  apply nth_error_Some. lia.
Qed.

Lemma als_model_train_well_formed (pn : bool)
      (fitted : Z -> list InteractionRecord -> list Z -> list (Z * Q))
      (df_log : list InteractionRecord) :
  ALSModel.item_map_in_range (ALSModel.model_train pn fitted df_log)
  /\ ALSModel.item_map_covers_index (ALSModel.model_train pn fitted df_log).
Proof.
  unfold ALSModel.item_map_in_range, ALSModel.item_map_covers_index; simpl.
  unfold ALSModel.enumerate_map. split.
  - intros item ix H. apply enumerate_lookup_range in H.
    apply np_index_in_range. lia.
  - intros item H. apply combine_lookup_covers; [|assumption].
    now rewrite length_map, length_seq.
Qed.

(** ** Witnesses and counterexamples *)

(** The scenario of the specification: exclusion log [(u1, i1)], candidates
    [i1, i2, i3] with scores [0.9, 0.5, 0.1], k = 2. *)
Lemma excluded_pairs_never_recommended_witness :
  exists out,
    StoriesRecModel.model_predict_top_k
      (topk_ref true) (Examples.stories 10) [mkRecord Examples.u1 Examples.i1 1%Q]
      [Examples.u1] [Examples.i1; Examples.i2; Examples.i3] 2
    = Some out
    /\ forall u i,
         excluded [mkRecord Examples.u1 Examples.i1 1%Q] u i = true ->
         2 <= count_unmasked [mkRecord Examples.u1 Examples.i1 1%Q]
                             [Examples.i1; Examples.i2; Examples.i3] u ->
         ~ In (u, i) out.
Proof.
  apply excluded_pairs_never_recommended.
  - apply topk_ref_spec.
  - reflexivity.
  - simpl; lia.
  - reflexivity.
  - reflexivity.
  - intros u [<-|[]]; reflexivity.
  - intros u i [<-|[]] [<-|[<-|[<-|[]]]]; reflexivity.
Defined.

(** With two candidates and k = 2 the excluded pair (u1, i1) is returned. *)
Lemma masked_pair_returned_when_k_exceeds_unmasked :
  excluded [mkRecord Examples.u1 Examples.i1 1%Q] Examples.u1 Examples.i1 = true
  /\ StoriesRecModel.model_predict_top_k
       (topk_ref true) (Examples.stories 10) [mkRecord Examples.u1 Examples.i1 1%Q]
       [Examples.u1] [Examples.i1; Examples.i2] 2
     = Some [(Examples.u1, Examples.i2); (Examples.u1, Examples.i1)]
  /\ In (Examples.u1, Examples.i1)
        [(Examples.u1, Examples.i2); (Examples.u1, Examples.i1)].
Proof.
  vm_compute. repeat split. right; left; reflexivity.
Qed.

Lemma empty_exclusion_gives_zero_mask_witness :
  isin_users [Examples.u2] (groupby_count [mkRecord Examples.u1 Examples.i1 1%Q]) = []
  /\ exists mask,
       build_drop_mask_with (fun _ => None)
                            (groupby_count [mkRecord Examples.u1 Examples.i1 1%Q])
                            [Examples.u2] [Examples.i1; Examples.i2]
       = Some mask
       /\ mask = [[0%Q; 0%Q]].
Proof.
  split; [reflexivity|].
  destruct (empty_exclusion_gives_zero_mask
              (fun _ => None)
              (groupby_count [mkRecord Examples.u1 Examples.i1 1%Q])
              [Examples.u2] [Examples.i1; Examples.i2] eq_refl)
    as (mask & H1 & H2 & _).
  exists mask. split; assumption.
Defined.


(** The scenario of the specification in binary32: mask [1, 0, 0] over the
    scores [0.9, 0.5, 0.1]. *)
Lemma combined_score_is_sentinel_or_raw_witness :
  Float32.apply_drop_mask
    [[Float32.one; Float32.zero; Float32.zero]]
    [[Float32.minus_one; Float32.minus_one; Float32.minus_one]]
    [[Examples.f32_0_9; Examples.f32_0_5; Examples.f32_0_1]]
  = Some [Float32.combine_row
            [Float32.one; Float32.zero; Float32.zero]
            [Examples.f32_0_9; Examples.f32_0_5; Examples.f32_0_1]].
Proof.
  refine (proj1 (@combined_score_is_sentinel_or_raw
                   [([Float32.one; Float32.zero; Float32.zero],
                     [Examples.f32_0_9; Examples.f32_0_5; Examples.f32_0_1])] _)).
  intros r [<-|[]]. split; [reflexivity|]. split.
  - apply Forall_forall. simpl. intros m [<-|[<-|[<-|[]]]]; auto.
  - apply Forall_forall. simpl. intros m [<-|[<-|[<-|[]]]]; reflexivity.
Defined.

(** A popularity model with alpha = -3000: the unmasked score of [i1] is
    -2990/1010, below the sentinel written over the excluded [i2], and the
    top-1 call returns the excluded pair. *)
Lemma unmasked_score_below_sentinel :
  mask_row [mkRecord Examples.u1 Examples.i2 1%Q] [Examples.i1; Examples.i2]
           Examples.u1
  = [0%Q; 1%Q]
  /\ map snd (PopularModel.candidate_scores
                (PopularModel.model_train (Examples.popular_config 10)
                                          (-3000)%Q 1000%Q Examples.train_log)
                [Examples.i1; Examples.i2])
     = [(-2990 # 1010)%Q; 0%Q]
  /\ (exists row,
         apply_drop_mask_row [0%Q; 1%Q] (repeat minus_one 2)
                             [(-2990 # 1010)%Q; 0%Q]
         = Some row
         /\ (score_at row 1 == minus_one)%Q
         /\ (score_at row 0 < score_at row 1)%Q)
  /\ PopularModel.model_predict_top_k
       (topk_ref true) (argsort_ref true)
       (PopularModel.model_train (Examples.popular_config 10)
                                 (-3000)%Q 1000%Q Examples.train_log)
       [mkRecord Examples.u1 Examples.i2 1%Q] [Examples.u1]
       [Examples.i1; Examples.i2] 1
     = Some [(Examples.u1, Examples.i2)].
Proof.
  split; [reflexivity|]. split; [reflexivity|]. split; [|reflexivity].
  eexists. split; [reflexivity|]. split; reflexivity.
Qed.

Lemma batch_size_does_not_change_top_k_witness :
  (0 < 1)%Z /\ (0 < 10)%Z
  /\ StoriesRecModel.model_predict_top_k
       (topk_ref true) (StoriesRecModel.with_batch_size (Examples.stories 7) 1)
       [mkRecord Examples.u1 Examples.i1 1%Q]
       [Examples.u1; Examples.u2; Examples.u1]
       [Examples.i1; Examples.i2; Examples.i3] 2
     = StoriesRecModel.model_predict_top_k
         (topk_ref true) (StoriesRecModel.with_batch_size (Examples.stories 7) 10)
         [mkRecord Examples.u1 Examples.i1 1%Q]
         [Examples.u1; Examples.u2; Examples.u1]
         [Examples.i1; Examples.i2; Examples.i3] 2.
Proof.
  split; [reflexivity|]. split; [reflexivity|].
  exact (proj1 (@batch_size_does_not_change_top_k
                  (topk_ref true) (argsort_ref true) (Examples.stories 7)
                  Examples.scenario_popular
                  [mkRecord Examples.u1 Examples.i1 1%Q]
                  [Examples.u1; Examples.u2; Examples.u1]
                  [Examples.i1; Examples.i2; Examples.i3] 2 1%Z 10%Z
                  eq_refl eq_refl)).
Defined.

Lemma popularity_score_formula_witness :
  ~ (PopularModel.qsum
       (map snd (PopularModel.items_popularity Examples.scenario_popular))
     + PopularModel.beta Examples.scenario_popular == 0)%Q
  /\ PopularModel.item_score Examples.scenario_popular Examples.i1
     = ((10 + 1000) / (10 + 0 + 0 + 1000))%Q.
Proof.
  assert (H : ~ (PopularModel.qsum
                   (map snd (PopularModel.items_popularity Examples.scenario_popular))
                 + PopularModel.beta Examples.scenario_popular == 0)%Q)
    by (intros E; vm_compute in E; discriminate).
  split; [exact H|].
  exact (proj1 (@popularity_score_formula
                  Examples.scenario_popular [Examples.i1; Examples.i2] 2 H)
               Examples.i1 10%Q eq_refl).
Defined.

(** Trained on ten interactions with [i1], the model scores the candidate
    [i2], which has no interaction, 0.0 and not (0 + 1000) / (10 + 1000). *)
Lemma unseen_item_scores_zero :
  PopularModel.interaction_count Examples.train_log Examples.i2 = 0
  /\ PopularModel.total_interactions Examples.train_log = 10
  /\ PopularModel.candidate_scores
       (PopularModel.model_train (Examples.popular_config 10)
          PopularModel.default_alpha PopularModel.default_beta Examples.train_log)
       [Examples.i1; Examples.i2]
     = [(Examples.i1, (1010 # 1010)%Q); (Examples.i2, 0%Q)]
  /\ ~ (PopularModel.item_score
          (PopularModel.model_train (Examples.popular_config 10)
             PopularModel.default_alpha PopularModel.default_beta
             Examples.train_log)
          Examples.i2
        == (inject_Z (Z.of_nat (PopularModel.interaction_count
                                  Examples.train_log Examples.i2))
            + PopularModel.default_alpha)
           / (inject_Z (Z.of_nat (PopularModel.total_interactions
                                    Examples.train_log))
              + PopularModel.default_beta))%Q.
Proof.
  split; [reflexivity|]. split; [reflexivity|]. split; [reflexivity|].
  intros E. vm_compute in E. discriminate.
Qed.




(* ================================================================== *)
(** * Further properties of the modelled code *)
(* ================================================================== *)

(** ** DropoutTrx.get_idx in double precision *)

(** X1: Whatever the dropout rate (any double, also outside [0, 1) or NaN) and
    whatever permutation the generator draws: a returned index array is
    strictly increasing and stays below [seq_len]; under dropout it has
    exactly [int(seq_len * (1 - trx_dropout) + 1)] elements, and the call
    raises exactly when that number is undefined, negative or larger than
    [seq_len]; without dropout the result is [arange(seq_len)]. *)
Theorem get_idx_result_or_raise (p : DropoutTrx.float) (perm : list Z) (n : Z) :
  Permutation perm (arange n) ->
  match DropoutTrx.get_idx p perm n with
  | Some idx =>
      StronglySorted Z.lt idx
      /\ Forall (fun j => (0 <= j < n)%Z) idx
      /\ (DropoutTrx.fltb (DropoutTrx.of_int 0) p = true -> (0 < n)%Z ->
          DropoutTrx.sample_size p n = Some (Z.of_nat (length idx))
          /\ (Z.of_nat (length idx) <= n)%Z)
      /\ (DropoutTrx.fltb (DropoutTrx.of_int 0) p = false \/ (n <= 0)%Z ->
          idx = arange n)
  | None =>
      DropoutTrx.fltb (DropoutTrx.of_int 0) p = true /\ (0 < n)%Z
      /\ (DropoutTrx.sample_size p n = None
          \/ exists s, DropoutTrx.sample_size p n = Some s
                       /\ (s < 0 \/ n < s)%Z)
  end.
Proof.
  intros Hperm. unfold DropoutTrx.get_idx, DropoutTrx.get_idx_sized.
  assert (Hplain : StronglySorted Z.lt (arange n)
                   /\ Forall (fun j => (0 <= j < n)%Z) (arange n)).
  { split; [apply arange_sorted|].
    apply Forall_forall. intros j. apply arange_In. }
  destruct (DropoutTrx.fltb (DropoutTrx.of_int 0) p) eqn:Ep; simpl andb.
  2:{ destruct Hplain. repeat split; auto; intros; discriminate. }
  destruct (Z.ltb_spec 0 n) as [Hn|Hn].
  2:{ destruct Hplain. repeat split; auto; intros; lia. }
  destruct (DropoutTrx.sample_size p n) as [s|] eqn:Es; [|auto].
  unfold DropoutTrx.choice.
  destruct (Z.ltb_spec s 0) as [Hs0|Hs0]; simpl orb.
  { simpl. repeat split; auto. right. exists s. split; [reflexivity | lia]. }
  destruct (Z.ltb_spec n s) as [Hsn|Hsn].
  { simpl. repeat split; auto. right. exists s. split; [reflexivity | lia]. }
  simpl.
  assert (Hnd : NoDup (firstn (Z.to_nat s) perm)).
  { assert (N : NoDup perm)
      by (eapply Permutation_NoDup; [symmetry; exact Hperm | apply arange_NoDup]).
    rewrite <- (firstn_skipn (Z.to_nat s) perm) in N.
    now apply NoDup_app_remove_r in N. }
  assert (Hlen : length (np_sort (firstn (Z.to_nat s) perm)) = Z.to_nat s).
  { rewrite (Permutation_length (np_sort_perm _)), firstn_length_le;
      [reflexivity|].
    rewrite (Permutation_length Hperm), arange_length. lia. }
  split; [now apply np_sort_sorted_lt|]. split; [|split].
  - apply Forall_forall. intros j Hj. apply arange_In.
    apply (Permutation_in _ Hperm).
    apply (Permutation_in _ (np_sort_perm _)) in Hj.
    rewrite <- (firstn_skipn (Z.to_nat s) perm). apply in_or_app. now left.
  - intros _ _. rewrite Hlen. split; [f_equal; lia | lia].
  - intros [H|H]; [discriminate | lia].
Qed.

Lemma get_idx_result_or_raise_witness :
  Permutation [3; 1; 0; 2; 4]%Z (arange 5)
  /\ exists idx,
       DropoutTrx.get_idx
         (DropoutTrx.fdiv (DropoutTrx.of_int 1) (DropoutTrx.of_int 2))
         [3; 1; 0; 2; 4]%Z 5 = Some idx
       /\ StronglySorted Z.lt idx.
Proof.
  assert (P : Permutation [3; 1; 0; 2; 4]%Z (arange 5)).
  { change (arange 5) with [0; 1; 2; 3; 4]%Z.
    apply NoDup_Permutation.
    - repeat constructor; simpl; lia.
    - repeat constructor; simpl; lia.
    - intros x. simpl. lia. }
  split; [exact P|].
  pose proof (@get_idx_result_or_raise
                (DropoutTrx.fdiv (DropoutTrx.of_int 1) (DropoutTrx.of_int 2))
                [3; 1; 0; 2; 4]%Z 5 P) as H.
  destruct (DropoutTrx.get_idx _ _ _) as [idx|] eqn:E.
  - exists idx. split; [reflexivity | apply H].
  - vm_compute in E. discriminate.
Defined.

(** ** The grouped exclusion log *)

Section CountsByKey.

Variables (A K : Type) (key : A -> K) (eqb : K -> K -> bool).
Hypothesis eqb_eq : forall a b, eqb a b = true <-> a = b.

Lemma indicator_sum (v : K) (keys : list K) :
  NoDup keys -> In v keys ->
  list_sum (map (fun k => if eqb v k then 1 else 0) keys) = 1.
Proof.
  induction 1 as [|k t Hk Ht IH]; simpl; intros Hv; [contradiction|].
  destruct (eqb v k) eqn:E.
  - apply eqb_eq in E. subst k. f_equal.
    clear IH Hv Ht. induction t as [|x t IH]; simpl; [reflexivity|].
    destruct (eqb v x) eqn:Ex.
    + apply eqb_eq in Ex. subst. simpl in Hk. tauto.
    + apply IH. simpl in Hk. tauto.
  - destruct Hv as [->|Hv]; [|auto].
    rewrite (proj2 (eqb_eq v v) eq_refl) in E. discriminate.
Qed.

Lemma list_sum_map_add {X : Type} (f g : X -> nat) (l : list X) :
  list_sum (map (fun x => f x + g x) l) = list_sum (map f l) + list_sum (map g l).
Proof.
  induction l as [|x t IH]; simpl; [reflexivity | lia].
Qed.

(** Counting the rows of each key over a duplicate-free list of all keys
    counts every row once. *)
Lemma counts_by_key_sum (keys : list K) (l : list A) :
  NoDup keys -> (forall x, In x l -> In (key x) keys) ->
  list_sum (map (fun k => length (filter (fun x => eqb (key x) k) l)) keys)
  = length l.
Proof.
  intros Hnd. induction l as [|x t IH]; intros Hall; simpl.
  - clear Hnd Hall. induction keys; simpl; auto.
  - transitivity
      (list_sum (map (fun k => (if eqb (key x) k then 1 else 0)
                               + length (filter (fun y => eqb (key y) k) t))
                     keys)).
    + f_equal. apply map_ext. intros k.
      destruct (eqb (key x) k); reflexivity.
    + rewrite list_sum_map_add, IH by (intros; apply Hall; simpl; auto).
      rewrite (@indicator_sum (key x) keys Hnd (Hall x (or_introl eq_refl))).
      reflexivity.
Qed.

End CountsByKey.

(** X2: [groupby(['user_id', 'item_id'])[['relevance']].count().reset_index()]
    keeps one row per distinct pair of the log, with the number of its
    occurrences (at least one), and the counts add up to the length of the
    log. *)
Theorem groupby_count_one_row_per_pair (log : list InteractionRecord) :
  NoDup (map fst (groupby_count log))
  /\ (forall k c, In (k, c) (groupby_count log)
                  <-> In k (map key_of log) /\ c = count_key k log)
  /\ (forall k c, In (k, c) (groupby_count log) -> 1 <= c)
  /\ list_sum (map snd (groupby_count log)) = length log.
Proof.
  assert (Hin : forall k c, In (k, c) (groupby_count log)
                            <-> In k (map key_of log) /\ c = count_key k log).
  { intros k c. unfold groupby_count. rewrite in_map_iff. split.
    - intros (k' & E & Hk). inversion E; subst. split; [|reflexivity].
      apply uniqueK_In. eapply Permutation_in; [apply sortK_perm | exact Hk].
    - intros [Hk ->]. exists k. split; [reflexivity|].
      eapply Permutation_in; [symmetry; apply sortK_perm | now apply uniqueK_In]. }
  split; [apply groupby_count_NoDup|]. split; [exact Hin|]. split.
  - intros k c H. apply Hin in H as [Hk ->].
    apply in_map_iff in Hk as (r & <- & Hr). unfold count_key.
    assert (Hf : In r (filter (fun x => key_eqb (key_of x) (key_of r)) log))
      by (apply filter_In; split; [assumption | now apply key_eqb_eq]).
    destruct (filter _ log); [contradiction | simpl; lia].
  - unfold groupby_count. rewrite map_map. simpl. unfold count_key.
    apply (counts_by_key_sum key_of key_eqb key_eqb_eq).
    + eapply Permutation_NoDup; [symmetry; apply sortK_perm | apply uniqueK_NoDup].
    + intros r Hr.
      eapply Permutation_in; [symmetry; apply sortK_perm|].
      apply uniqueK_In. now apply in_map.
Qed.

(** ** The exclusion mask of a batch *)

(** X3: After the grouping of line 379 (515) the pivot of lines 416 (543) never
    meets a duplicate, so the mask construction returns for every log, batch
    and candidate list; the mask has one row per batch user and one column
    per candidate, and an entry is 1 exactly when the log holds a row with
    that user and that item. *)
Theorem exclusion_mask_marks_excluded_pairs
        (log : list InteractionRecord) (batch : list UserId)
        (items : list ItemId) :
  exists mask,
    build_drop_mask (groupby_count log) batch items = Some mask
    /\ length mask = length batch
    /\ Forall (fun row => length row = length items) mask
    /\ forall a b, a < length batch -> b < length items ->
         (nth b (nth a mask []) 0%Q = 1%Q
          /\ exists r, In r log /\ user_id r = nth a batch 0%Z
                       /\ item_id r = nth b items 0%Z)
         \/ (nth b (nth a mask []) 0%Q = 0%Q
             /\ forall r, In r log ->
                          ~ (user_id r = nth a batch 0%Z
                             /\ item_id r = nth b items 0%Z)).
Proof.
  rewrite build_drop_mask_rows. eexists. split; [reflexivity|].
  split; [apply length_map|]. split.
  - apply Forall_forall. intros row Hrow.
    apply in_map_iff in Hrow as (u & <- & _). apply mask_row_length.
  - intros a b Ha Hb.
    rewrite (@nth_map_lt _ _ (mask_row log items) batch a 0%Z []) by assumption.
    rewrite mask_row_nth by assumption.
    destruct (excluded log (nth a batch 0%Z) (nth b items 0%Z)) eqn:E.
    + left. split; [reflexivity|].
      unfold excluded in E. apply memKey_In in E.
      apply in_map_iff in E as (r & Er & Hr). exists r.
      unfold key_of in Er. inversion Er. auto.
    + right. split; [reflexivity|]. intros r Hr [Hu Hi].
      assert (X : excluded log (nth a batch 0%Z) (nth b items 0%Z) = true).
      { unfold excluded. apply memKey_In. apply in_map_iff. exists r.
        split; [|assumption]. unfold key_of. now rewrite Hu, Hi. }
      congruence.
Qed.

(** ** The batches of the prediction loop *)

(** X4: For a positive batch size the loop visits [ceil(n / size)] batches; they
    are consecutive slices of the user list, none is empty, none exceeds the
    batch size, and together they are the user list. *)
Theorem batches_tile_the_users (users : list UserId) (size : Z) :
  (0 < size)%Z ->
  exists starts,
    py_range (length users) size = Some starts
    /\ length starts = (length users + Z.to_nat size - 1) / Z.to_nat size
    /\ flat_map (fun s => slice users s (s + Z.to_nat size)) starts = users
    /\ forall s, In s starts ->
         1 <= length (slice users s (s + Z.to_nat size)) <= Z.to_nat size.
Proof.
  intros H. unfold py_range.
  destruct (Z.eqb_spec size 0); [lia|].
  destruct (Z.ltb_spec size 0); [lia|].
  set (b := Z.to_nat size). assert (Hb : 0 < b) by (unfold b; lia).
  eexists; split; [reflexivity|].
  split; [now rewrite length_map, length_seq|]. split.
  - rewrite chunks_prefix. apply firstn_all2. now apply ceil_div_covers.
  - intros s Hs. apply in_map_iff in Hs as (j & <- & Hj).
    apply in_seq in Hj. unfold slice.
    rewrite length_firstn, length_skipn.
    replace (j * b + b - j * b) with b by lia.
    assert (j * b < length users).
    { destruct Hj as [_ Hj]. simpl in Hj.
      assert (S j <= (length users + b - 1) / b) by lia.
      pose proof (Nat.div_mod_eq (length users + b - 1) b).
      pose proof (Nat.mod_upper_bound (length users + b - 1) b).
      nia. }
    lia.
Qed.

Lemma batches_tile_the_users_witness :
  (0 < 2)%Z
  /\ exists starts,
       py_range (length [Examples.u1; Examples.u2; Examples.u1]) 2 = Some starts
       /\ length starts = 2.
Proof.
  split; [reflexivity|].
  destruct (@batches_tile_the_users
              [Examples.u1; Examples.u2; Examples.u1] 2%Z eq_refl)
    as (starts & H1 & H2 & _).
  exists starts. split; assumption.
Defined.

(** ** Edge behaviour of the learned adapter's top-k call *)

Lemma forallb_false_inv {A : Type} (p : A -> bool) (l : list A) :
  forallb p l = false -> exists x, In x l /\ p x = false.
Proof.
  induction l as [|a l IH]; simpl; [discriminate|].
  destruct (p a) eqn:E; simpl.
  - intros H. destruct (IH H) as (x & Hx & Px). exists x. auto.
  - intros _. exists a. auto.
Qed.

Lemma forallb_false_intro {A : Type} (p : A -> bool) (l : list A) (x : A) :
  In x l -> p x = false -> forallb p l = false.
Proof.
  intros Hx Px. destruct (forallb p l) eqn:E; [|reflexivity].
  rewrite forallb_forall in E. rewrite (E x Hx) in Px. discriminate.
Qed.

(** X5: With a positive batch size (encoder values that fit 64 bits, feature
    frames with distinct labels)
    the call raises exactly when there is at least one user and either k
    exceeds the number of candidate items (torch.topk rejects it; nothing
    caps k) or the scores of some user cannot be computed (the widths of
    the two networks differ, or an index is not a row of its embedding
    table); for an empty user list it returns an empty frame whatever k and
    the networks are. *)
Theorem stories_top_k_raises_iff
        (topk_row : list Q -> nat -> list nat) (self : StoriesRecModel.Model)
        (log : list InteractionRecord) (users : list UserId)
        (items : list ItemId) (k : nat) :
  TopKSpec topk_row ->
  (0 < StoriesRecModel.valid_batch_size self)%Z ->
  StoriesRecModel.inputs_readable self = true ->
  (StoriesRecModel.model_predict_top_k topk_row self log users items k = None
   <-> users <> []
       /\ (length items < k
           \/ exists u, In u users
                        /\ StoriesRecModel.scores_defined self items u = false))
  /\ StoriesRecModel.model_predict_top_k topk_row self log [] items k = Some [].
Proof.
  intros Hok HB _. split.
  - split.
    + intros Hnone. split.
      * intros ->. rewrite stories_top_k_unbatched in Hnone by assumption.
        discriminate.
      * destruct (Nat.leb_spec k (length items)) as [Hk|Hk]; [|now left].
        right.
        destruct (forallb (StoriesRecModel.scores_defined self items) users)
          eqn:E; [|now apply forallb_false_inv].
        rewrite forallb_forall in E.
        rewrite stories_top_k_result in Hnone by assumption. discriminate.
    + intros [Hne [Hk|(u & Hu & Hd)]].
      * rewrite stories_top_k_unbatched by assumption.
        destruct users as [|u t]; [congruence|].
        unfold predict_all. simpl.
        now rewrite stories_recommend_k_too_large.
      * eapply stories_undefined_raises; eassumption.
  - rewrite stories_top_k_unbatched by assumption. reflexivity.
Qed.

Lemma stories_top_k_raises_iff_witness :
  StoriesRecModel.model_predict_top_k
    (topk_ref true) (Examples.stories 10) [] [Examples.u1]
    [Examples.i1; Examples.i2] 3
  = None.
Proof.
  apply (proj1 (@stories_top_k_raises_iff
                  (topk_ref true) (Examples.stories 10) [] [Examples.u1]
                  [Examples.i1; Examples.i2] 3 (topk_ref_spec true)
                  eq_refl eq_refl)).
  split; [discriminate | left; simpl; lia].
Defined.


(** ** The integer casts of the encoder indices *)

Lemma as_int16_wraps (z : Z) :
  (2 ^ 15 <= z < 2 ^ 16)%Z ->
  StoriesRecModel.as_int16 z = (z - 2 ^ 16)%Z.
Proof.
  unfold StoriesRecModel.as_int16.
  change (2 ^ 15)%Z with 32768%Z. change (2 ^ 16)%Z with 65536%Z.
  intros H.
  replace (z + 32768)%Z with ((z - 32768) + 1 * 65536)%Z by lia.
  rewrite Z.mod_add by lia. rewrite Z.mod_small; lia.
Qed.

(** X7: An item whose encoder index lies between 32768 and 65535 leaves
    [astype(np.int16)] as the negative number index - 65536; where the item
    network reads its embedding table, the lookup rejects it, and
    [model_predict_top_k] raises for every non-empty user list (positive
    batch size, encoder values that fit 64 bits, feature frames with
    distinct labels), although the index may
    well be a row of the table. *)
Theorem wrapped_item_index_raises
        (topk_row : list Q -> nat -> list nat) (self : StoriesRecModel.Model)
        (log : list InteractionRecord) (users : list UserId)
        (items : list ItemId) (k : nat) (i : ItemId) (z : Z) :
  (0 < StoriesRecModel.valid_batch_size self)%Z ->
  users <> [] ->
  StoriesRecModel.inputs_readable self = true ->
  MixedEmbedding.uses_embedding
    (MixedEmbedding.layers (StoriesRecModel.embed_item self)) = true ->
  In i items ->
  dict_lookup (StoriesRecModel.item_encoder self) i = Some z ->
  (2 ^ 15 <= z < 2 ^ 16)%Z ->
  StoriesRecModel.item_code self i = (z - 2 ^ 16)%Z
  /\ (StoriesRecModel.item_code self i < 0)%Z
  /\ StoriesRecModel.model_predict_top_k topk_row self log users items k = None.
Proof.
  intros HB Hne _ Huse Hi Hz Hrange.
  assert (Hcode : StoriesRecModel.item_code self i = (z - 2 ^ 16)%Z).
  { unfold StoriesRecModel.item_code, dict_get. rewrite Hz.
    now apply as_int16_wraps. }
  assert (Hneg : (StoriesRecModel.item_code self i < 0)%Z)
    by (rewrite Hcode; lia).
  split; [exact Hcode|]. split; [exact Hneg|].
  destruct users as [|u t]; [congruence|].
  apply stories_undefined_raises with (u := u); [assumption | simpl; auto |].
  unfold StoriesRecModel.scores_defined.
  rewrite (forallb_false_intro (StoriesRecModel.item_in_table self) items i Hi);
    [apply andb_false_r|].
  unfold StoriesRecModel.item_in_table, MixedEmbedding.index_in_table.
  rewrite Huse. simpl.
  destruct (Z.leb_spec 0 (StoriesRecModel.item_code self i)); [lia|reflexivity].
Qed.

(** The index 40000 is a row of the table of 40001 rows, and the call
    raises. *)
Lemma wrapped_item_index_raises_witness :
  MixedEmbedding.index_in_table
    (StoriesRecModel.embed_item (Examples.stories_wide 10)) 40000%Z = true
  /\ StoriesRecModel.item_code (Examples.stories_wide 10) Examples.i1
     = (-25536)%Z
  /\ StoriesRecModel.model_predict_top_k
       (topk_ref true) (Examples.stories_wide 10) [] [Examples.u1]
       [Examples.i1] 1
     = None.
Proof.
  split; [reflexivity|].
  destruct (@wrapped_item_index_raises
              (topk_ref true) (Examples.stories_wide 10) [] [Examples.u1]
              [Examples.i1] 1 Examples.i1 40000%Z)
    as (H1 & _ & H2).
  - reflexivity.
  - discriminate.
  - reflexivity.
  - reflexivity.
  - simpl; auto.
  - reflexivity.
  - change (2 ^ 15)%Z with 32768%Z. change (2 ^ 16)%Z with 65536%Z. lia.
  - split; [exact H1 | exact H2].
Defined.

(** ** PopularModel.model_train, default branch *)

Lemma dict_lookup_map_keys {V : Type} (f : Z -> V) (l : list Z) (i : Z) :
  dict_lookup (map (fun j => (j, f j)) l) i
  = if memZ i l then Some (f i) else None.
Proof.
  induction l as [|j t IH]; simpl; [reflexivity|].
  rewrite (Z.eqb_sym i j).
  destruct (Z.eqb_spec j i); simpl; [now subst | exact IH].
Qed.

Lemma qsum_inject_nat {X : Type} (f : X -> nat) (l : list X) :
  (PopularModel.qsum (map (fun x => inject_Z (Z.of_nat (f x))) l)
   == inject_Z (Z.of_nat (list_sum (map f l))))%Q.
Proof.
  induction l as [|x t IH]; simpl; [reflexivity|].
  rewrite IH, Nat2Z.inj_add, inject_Z_plus. reflexivity.
Qed.

Lemma uniqueZ_length (l : list Z) : length (uniqueZ l) <= length l.
Proof.
  induction l as [|x t IH]; simpl; [lia|].
  destruct (memZ x t); simpl; lia.
Qed.

Lemma popular_default_table (cfg : PopularModel.Config)
      (log : list InteractionRecord) :
  PopularModel.use_mean_relevance cfg = false ->
  PopularModel.use_item_freq_predict cfg = false ->
  PopularModel.popularity cfg log
  = map (fun i => (i, inject_Z (Z.of_nat (PopularModel.interaction_count log i))))
        (PopularModel.item_labels
           (filter (fun r => Qeq_bool (relevance r) 1%Q) log)).
Proof.
  intros H1 H2. unfold PopularModel.popularity. now rewrite H1, H2.
Qed.

Lemma popular_default_sum (cfg : PopularModel.Config)
      (log : list InteractionRecord) :
  PopularModel.use_mean_relevance cfg = false ->
  PopularModel.use_item_freq_predict cfg = false ->
  (PopularModel.qsum (map snd (PopularModel.popularity cfg log))
   == inject_Z (Z.of_nat (PopularModel.total_interactions log)))%Q.
Proof.
  intros H1 H2. rewrite popular_default_table by assumption.
  rewrite map_map. simpl.
  rewrite (qsum_inject_nat (PopularModel.interaction_count log)).
  unfold PopularModel.interaction_count, PopularModel.rows_of_item,
    PopularModel.total_interactions.
  rewrite (counts_by_key_sum item_id Z.eqb Z.eqb_eq); [reflexivity| |].
  - unfold PopularModel.item_labels.
    eapply Permutation_NoDup; [symmetry; apply np_sort_perm | apply uniqueZ_NoDup].
  - intros r Hr. apply sorted_unique_In. now apply in_map.
Qed.

(** The default branch of lines 453-480 on the log that reaches them. *)
Lemma popular_default_counts (cfg : PopularModel.Config) (a b : Q)
      (log : list InteractionRecord) :
  PopularModel.use_mean_relevance cfg = false ->
  PopularModel.use_item_freq_predict cfg = false ->
  StronglySorted Z.lt
    (map fst (PopularModel.items_popularity (PopularModel.model_train cfg a b log)))
  /\ (forall i,
         dict_lookup
           (PopularModel.items_popularity (PopularModel.model_train cfg a b log)) i
         = if PopularModel.interaction_count log i =? 0 then None
           else Some (inject_Z (Z.of_nat (PopularModel.interaction_count log i))))
  /\ (PopularModel.qsum
        (map snd (PopularModel.items_popularity
                    (PopularModel.model_train cfg a b log)))
      == inject_Z (Z.of_nat (PopularModel.total_interactions log)))%Q
  /\ (PopularModel.avg_num_items (PopularModel.model_train cfg a b log) = None
      <-> log = [])
  /\ (forall avg,
         PopularModel.avg_num_items (PopularModel.model_train cfg a b log)
         = Some avg ->
         1 <= avg <= length log).
Proof.
  intros H1 H2. simpl. split; [|split; [|split; [|split]]].
  - rewrite popular_default_table by assumption.
    rewrite map_map. simpl. rewrite map_id.
    apply np_sort_sorted_lt, uniqueZ_NoDup.
  - intros i. rewrite popular_default_table by assumption.
    rewrite dict_lookup_map_keys.
    set (ones := filter (fun r => Qeq_bool (relevance r) 1%Q) log).
    unfold PopularModel.interaction_count, PopularModel.rows_of_item. fold ones.
    destruct (memZ i (PopularModel.item_labels ones)) eqn:E.
    + apply memZ_In in E. unfold PopularModel.item_labels in E.
      apply (proj1 (sorted_unique_In _ _)) in E.
      apply in_map_iff in E as (r & Er & Hr).
      assert (Hf : In r (filter (fun x => (item_id x =? i)%Z) ones))
        by (apply filter_In; split; [assumption | now apply Z.eqb_eq]).
      destruct (filter _ ones); [contradiction | reflexivity].
    + destruct (filter (fun x => (item_id x =? i)%Z) ones) as [|r t] eqn:F;
        [reflexivity|].
      assert (Hr : In r (filter (fun x => (item_id x =? i)%Z) ones))
        by (rewrite F; simpl; auto).
      apply filter_In in Hr as [Hr Ei]. apply Z.eqb_eq in Ei.
      assert (X : memZ i (PopularModel.item_labels ones) = true).
      { apply memZ_In, sorted_unique_In. rewrite <- Ei. now apply in_map. }
      congruence.
  - now apply popular_default_sum.
  - unfold PopularModel.mean_items_per_user.
    destruct log as [|r t]; [split; reflexivity|].
    destruct (uniqueZ (map user_id (r :: t))) as [|u us] eqn:E.
    + exfalso. assert (X : In (user_id r) (uniqueZ (map user_id (r :: t))))
        by (apply uniqueZ_In; simpl; auto).
      rewrite E in X. contradiction.
    + simpl. split; discriminate.
  - intros avg. unfold PopularModel.mean_items_per_user.
    pose proof (uniqueZ_length (map user_id log)) as Hle.
    rewrite length_map in Hle.
    destruct (length (uniqueZ (map user_id log))) as [|n] eqn:E; [discriminate|].
    intros [= <-].
    set (x := (inject_Z (Z.of_nat (length log)) / inject_Z (Z.of_nat (S n)))%Q).
    assert (Hpos : (0 < inject_Z (Z.of_nat (S n)))%Q)
      by (change 0%Q with (inject_Z 0); rewrite <- Zlt_Qlt; lia).
    assert (Hlow : (1 <= x)%Q).
    { apply Qle_shift_div_l; [assumption|]. rewrite Qmult_1_l.
      rewrite <- Zle_Qle. lia. }
    assert (Hhigh : (x <= inject_Z (Z.of_nat (length log)))%Q).
    { apply Qle_shift_div_r; [assumption|].
      rewrite <- inject_Z_mult, <- Zle_Qle. nia. }
    apply Qceiling_resp_le in Hlow, Hhigh.
    change 1%Q with (inject_Z 1) in Hlow. rewrite Qceiling_Z in Hlow, Hhigh.
    change (1 <= Z.to_nat (Qceiling x) <= length log). lia.
Qed.

(** X8: [model_train] in its default branch (count of the rows of relevance
    1 per item). The rows that are counted are the whole log, or under
    [use_low_freq_train_items] the rows of the users that stand from
    position [int(number of users * 0.95)] on in [value_counts], in the
    order of the log; the call raises only where that position cannot be
    computed. Over the rows that are counted: the table lists the items in
    strictly increasing order, an item is in the table exactly when it has
    a row of relevance 1 and then holds its number of such rows, the values
    add up to the number of rows of relevance 1, and [avg_num_items] is NaN
    exactly when no row is counted and otherwise a number between 1 and the
    number of counted rows. *)
Theorem popular_model_train_counts (use_low_freq_train_items : bool)
        (value_counts : list UserId -> list (UserId * nat))
        (cfg : PopularModel.Config) (a b : Q) (log : list InteractionRecord) :
  PopularModel.use_mean_relevance cfg = false ->
  PopularModel.use_item_freq_predict cfg = false ->
  match PopularModel.model_train_on use_low_freq_train_items value_counts
                                    cfg a b log with
  | None =>
      use_low_freq_train_items = true
      /\ PopularModel.low_freq_cut
           (length (value_counts (map user_id log))) = None
  | Some self =>
      exists counted,
        (if use_low_freq_train_items
         then exists cut,
             PopularModel.low_freq_cut
               (length (value_counts (map user_id log))) = Some cut
             /\ counted
                = filter (fun r =>
                            memZ (user_id r)
                                 (skipn (Z.to_nat cut)
                                        (map fst (value_counts
                                                    (map user_id log)))))
                         log
         else counted = log)
        /\ (forall r, In r counted -> In r log)
        /\ StronglySorted Z.lt (map fst (PopularModel.items_popularity self))
        /\ (forall i,
               dict_lookup (PopularModel.items_popularity self) i
               = if PopularModel.interaction_count counted i =? 0 then None
                 else Some (inject_Z (Z.of_nat (PopularModel.interaction_count
                                                  counted i))))
        /\ (PopularModel.qsum (map snd (PopularModel.items_popularity self))
            == inject_Z (Z.of_nat (PopularModel.total_interactions counted)))%Q
        /\ (PopularModel.avg_num_items self = None <-> counted = [])
        /\ (forall avg, PopularModel.avg_num_items self = Some avg ->
                        1 <= avg <= length counted)
  end.
Proof.
  intros H1 H2. unfold PopularModel.model_train_on.
  destruct use_low_freq_train_items.
  - unfold PopularModel.low_freq_train_log.
    destruct (PopularModel.low_freq_cut _) as [cut|]; simpl bind;
      [|split; reflexivity].
    eexists. split; [exists cut; split; reflexivity|].
    split; [intros r Hr; now apply filter_In in Hr|].
    now apply popular_default_counts.
  - simpl bind. exists log. split; [reflexivity|]. split; [auto|].
    now apply popular_default_counts.
Qed.

(** Five users with two rows each: the cut is int(5 * 0.95) = 4, and the
    two rows of the last user are counted. *)
Lemma popular_model_train_counts_witness :
  PopularModel.low_freq_cut 5 = Some 4%Z
  /\ exists self,
       PopularModel.model_train_on true Examples.value_counts_even
         (Examples.popular_config 10) PopularModel.default_alpha
         PopularModel.default_beta Examples.train_log
       = Some self
       /\ PopularModel.items_popularity self = [(Examples.i1, 2%Q)]
       /\ forall avg, PopularModel.avg_num_items self = Some avg -> 1 <= avg.
Proof.
  split; [reflexivity|].
  pose proof (@popular_model_train_counts
                true Examples.value_counts_even
                (Examples.popular_config 10) PopularModel.default_alpha
                PopularModel.default_beta Examples.train_log eq_refl eq_refl)
    as H.
  destruct (PopularModel.model_train_on _ _ _ _ _ _) as [self|] eqn:E.
  - destruct H as (counted & _ & _ & _ & _ & _ & _ & Havg).
    exists self. split; [reflexivity|]. split.
    + vm_compute in E. injection E as <-. reflexivity.
    + intros avg Ha. now apply Havg.
  - vm_compute in E. discriminate.
Defined.

Lemma qsum_nonneg (l : list Q) :
  Forall (fun x => 0 <= x)%Q l -> (0 <= PopularModel.qsum l)%Q.
Proof.
  induction 1 as [|x t Hx _ IH]; simpl; [apply Qle_refl | lra].
Qed.

Lemma qsum_member_le (l : list Q) (v : Q) :
  Forall (fun x => 0 <= x)%Q l -> In v l -> (v <= PopularModel.qsum l)%Q.
Proof.
  induction 1 as [|x t Hx Ht IH]; simpl; intros Hv; [contradiction|].
  pose proof (qsum_nonneg Ht) as Hs.
  destruct Hv as [->|Hv]; [lra|]. specialize (IH Hv). lra.
Qed.

Lemma dict_lookup_In {V : Type} (d : list (Z * V)) (i : Z) (v : V) :
  dict_lookup d i = Some v -> In v (map snd d).
Proof.
  induction d as [|[j w] t IH]; simpl; [discriminate|].
  destruct (j =? i)%Z; [intros [= ->]; auto | auto].
Qed.

Lemma popularity_nonneg (cfg : PopularModel.Config)
      (log : list InteractionRecord) :
  (forall r, In r log -> 0 <= relevance r)%Q ->
  Forall (fun x => 0 <= x)%Q (map snd (PopularModel.popularity cfg log)).
Proof.
  intros Hlog. apply Forall_forall. intros v Hv.
  unfold PopularModel.popularity in Hv.
  destruct (PopularModel.use_mean_relevance cfg);
    [|destruct (PopularModel.use_item_freq_predict cfg)];
    rewrite map_map in Hv; apply in_map_iff in Hv as (i & <- & _); simpl.
  - apply qsum_nonneg, Forall_forall. intros x Hx.
    apply in_map_iff in Hx as (r & <- & Hr).
    apply filter_In in Hr as [Hr _]. apply filter_In in Hr as [_ Hr].
    apply negb_true_iff in Hr.
    apply Qlt_le_weak, Qnot_le_lt. intros X.
    apply Qle_bool_iff in X. congruence.
  - unfold Qdiv. apply Qmult_le_0_compat.
    + apply qsum_nonneg, Forall_forall. intros x Hx.
      apply in_map_iff in Hx as (r & <- & Hr).
      apply filter_In in Hr as [Hr _]. now apply Hlog.
    + apply Qinv_le_0_compat. change 0%Q with (inject_Z 0).
      rewrite <- Zle_Qle. lia.
  - change 0%Q with (inject_Z 0). rewrite <- Zle_Qle. lia.
Qed.

(** X9: Every score of a trained popularity model lies in [0, 1], whichever of
    the three ways of counting the configuration selects, for an item of
    the table and for an unseen one alike, as soon as the relevances of
    the training log are not negative and 0 <= alpha <= beta, 0 < beta (the
    defaults are 1000 and 1000). In particular every score is above the
    sentinel -1.0 of the exclusion masking. *)
Theorem popular_trained_scores_in_unit_interval
        (cfg : PopularModel.Config) (a b : Q) (log : list InteractionRecord)
        (i : ItemId) :
  (forall r, In r log -> 0 <= relevance r)%Q ->
  (0 <= a)%Q -> (a <= b)%Q -> (0 < b)%Q ->
  (0 <= PopularModel.item_score (PopularModel.model_train cfg a b log) i)%Q
  /\ (PopularModel.item_score (PopularModel.model_train cfg a b log) i <= 1)%Q
  /\ (minus_one < PopularModel.item_score (PopularModel.model_train cfg a b log) i)%Q.
Proof.
  intros Hlog Ha Hab Hb.
  pose proof (@popularity_nonneg cfg log Hlog) as Hnn.
  assert (Hrange :
            (0 <= PopularModel.item_score (PopularModel.model_train cfg a b log) i
             <= 1)%Q).
  { unfold PopularModel.item_score, PopularModel._get_item_scores, dict_get.
    cbn [PopularModel.model_train PopularModel.items_popularity
           PopularModel.alpha PopularModel.beta].
    set (table := PopularModel.popularity cfg log) in *.
    rewrite (dict_lookup_map_values
               (fun x => ((x + a) / (PopularModel.qsum (map snd table) + b))%Q)).
    destruct (dict_lookup table i) as [v|] eqn:E; simpl;
      [|split; [apply Qle_refl | discriminate]].
    apply dict_lookup_In in E.
    pose proof (@qsum_member_le _ v Hnn E) as Hle.
    assert (Hv : (0 <= v)%Q) by (rewrite Forall_forall in Hnn; now apply Hnn).
    assert (Hden : (0 < PopularModel.qsum (map snd table) + b)%Q) by lra.
    split.
    - apply Qle_shift_div_l; [assumption | lra].
    - apply Qle_shift_div_r; [assumption | lra]. }
  destruct Hrange as [Hlo Hhi]. repeat split; try assumption.
  unfold minus_one. lra.
Qed.

Lemma popular_trained_scores_in_unit_interval_witness :
  (0 <= PopularModel.item_score
          (PopularModel.model_train (Examples.popular_config 10)
             PopularModel.default_alpha PopularModel.default_beta
             Examples.train_log) Examples.i1)%Q
  /\ (PopularModel.item_score
        (PopularModel.model_train (Examples.popular_config 10)
           PopularModel.default_alpha PopularModel.default_beta
           Examples.train_log) Examples.i1 <= 1)%Q.
Proof.
  destruct (@popular_trained_scores_in_unit_interval
              (Examples.popular_config 10) PopularModel.default_alpha
              PopularModel.default_beta Examples.train_log Examples.i1)
    as (H0 & H1 & _);
    unfold PopularModel.default_alpha, PopularModel.default_beta; try lra.
  - intros r Hr. simpl in Hr.
    repeat (destruct Hr as [<-|Hr]; [simpl; lra|]). contradiction.
  - split; assumption.
Defined.

(** ** PopularModel.model_predict_top_k under both contracts *)

Section MaskedTopK.

Variable topk_row : list Q -> nat -> list nat.
Hypothesis topk_ok : TopKSpec topk_row.
Variable log : list InteractionRecord.
Variable cand : list ItemId.
Variable scores : list Q.
Hypothesis scores_length : length scores = length cand.
Variable k : nat.
Hypothesis k_le : k <= length cand.

Lemma masked_row_length (u : UserId) :
  length (combine_row (mask_row log cand u) scores) = length cand.
Proof.
  rewrite combine_row_length; [assumption|].
  now rewrite mask_row_length.
Qed.

Lemma recommend_row_same (u : UserId) :
  recommend_row topk_row k cand (mask_row log cand u)
                (repeat minus_one (length cand)) scores
  = Some (map (fun j => nth j cand 0%Z)
              (topk_row (combine_row (mask_row log cand u) scores) k)).
Proof.
  unfold recommend_row. rewrite <- scores_length.
  rewrite apply_drop_mask_row_same by now rewrite mask_row_length.
  simpl bind. unfold topk_checked. rewrite masked_row_length.
  destruct (Nat.leb_spec k (length cand)); [|lia]. simpl bind.
  apply take_items_total. intros j Hj.
  rewrite <- (masked_row_length u).
  eapply (topk_range topk_ok); [|exact Hj].
  now rewrite masked_row_length.
Qed.

Lemma masked_position_not_selected (u : UserId) (j : nat) :
  (forall m, m < length cand -> (minus_one < nth m scores 0)%Q) ->
  k <= count_unmasked log cand u ->
  In j (topk_row (combine_row (mask_row log cand u) scores) k) ->
  excluded log u (nth j cand 0%Z) = false.
Proof.
  intros Hraw Hcount Hj.
  set (row := combine_row (mask_row log cand u) scores) in *.
  assert (Hlen : length row = length cand) by apply masked_row_length.
  assert (Hk' : k <= length row) by lia.
  assert (Hjn : j < length cand)
    by (rewrite <- Hlen; eapply (topk_range topk_ok); eassumption).
  destruct (excluded log u (nth j cand 0%Z)) eqn:Hex; [exfalso | reflexivity].
  destruct (@some_unmasked_left_out
              (fun m => excluded log u (nth m cand 0%Z)) (length cand)
              k j (topk_row row k))
    as (m & Hm & Hfree & Hout);
    [ now apply (topk_nodup topk_ok) | now apply (topk_length topk_ok)
    | assumption | assumption
    | now rewrite unmasked_positions_length | ].
  assert (Hle : (score_at row m <= score_at row j)%Q).
  { apply (topk_top topk_ok) with (k := k); try assumption. now rewrite Hlen. }
  unfold row in Hle.
  rewrite !masked_entry in Hle by assumption.
  rewrite Hex, Hfree in Hle.
  specialize (Hraw m Hm). lra.
Qed.

End MaskedTopK.

(** X10: The popularity adapter's [model_predict_top_k] on distinct candidate
    items, with a popularity table with distinct labels, a non-zero
    denominator of the scores, a finite [avg_num_items], a positive batch size, k at most the number of
    candidates and scores above the sentinel: the call returns
    a frame of k rows per user, in the order of the users, whose items come
    from the restricted list of the [k + avg_num_items] best-scored
    candidates, k distinct items per user; and no pair of the exclusion log
    is returned for a user who has at least k unmasked items in the
    restricted list. *)
Theorem popular_top_k_frame
        (topk_row : list Q -> nat -> list nat) (argsort_desc : list Q -> list nat)
        (self : PopularModel.Model) (log : list InteractionRecord)
        (users : list UserId) (items : list ItemId) (k avg : nat) :
  TopKSpec topk_row ->
  ArgsortSpec argsort_desc ->
  NoDup items ->
  distinct (map fst (PopularModel.items_popularity self)) = true ->
  ~ (PopularModel.qsum (map snd (PopularModel.items_popularity self))
     + PopularModel.beta self == 0)%Q ->
  PopularModel.avg_num_items self = Some avg ->
  (0 < PopularModel.valid_batch_size (PopularModel.config self))%Z ->
  k <= length items ->
  (forall i, In i items -> (minus_one < PopularModel.item_score self i)%Q) ->
  exists cand rec,
    PopularModel.restrict_items argsort_desc self items k = Some cand
    /\ NoDup cand /\ incl cand items
    /\ PopularModel.model_predict_top_k topk_row argsort_desc self log users items k
       = Some (flat_map (fun u => map (pair u) (rec u)) users)
    /\ forall u,
         length (rec u) = k /\ NoDup (rec u) /\ incl (rec u) cand
         /\ (k <= count_unmasked log cand u ->
             forall i, In i (rec u) -> excluded log u i = false).
Proof.
  intros Hok Hsort Hnd _ _ Havg HB Hk Hraw.
  set (scored := PopularModel.candidate_scores self items).
  set (ranked := PopularModel.sort_values_desc argsort_desc scored).
  set (cand := map fst (firstn (k + avg) ranked)).
  assert (Hp : Permutation ranked scored) by now apply sort_values_desc_perm.
  assert (Hfst : map fst scored = items).
  { unfold scored, PopularModel.candidate_scores. rewrite map_map. simpl.
    apply map_id. }
  assert (Hpf : Permutation (map fst ranked) items)
    by (rewrite <- Hfst; now apply Permutation_map).
  assert (Hcf : cand = firstn (k + avg) (map fst ranked))
    by (unfold cand; symmetry; apply firstn_map).
  assert (Hcnd : NoDup cand).
  { rewrite Hcf. apply NoDup_firstn.
    eapply Permutation_NoDup; [symmetry; exact Hpf | exact Hnd]. }
  assert (Hincl : incl cand items).
  { intros i Hi. rewrite Hcf in Hi. apply In_firstn in Hi.
    eapply Permutation_in; eassumption. }
  assert (Hclen : k <= length cand).
  { rewrite Hcf, length_firstn, (Permutation_length Hpf). lia. }
  assert (Hr : PopularModel.restrict_items argsort_desc self items k = Some cand)
    by (unfold PopularModel.restrict_items; now rewrite Havg).
  set (row := map (PopularModel.item_score self) cand).
  assert (Hrow : map snd (PopularModel.loc scored cand) = row).
  { unfold scored, PopularModel.candidate_scores.
    rewrite loc_unique_rows by assumption. unfold row. now rewrite map_map. }
  assert (Hrl : length row = length cand) by apply length_map.
  set (pos := fun u => topk_row (combine_row (mask_row log cand u) row) k).
  assert (Hpl : forall u, length (pos u) = k).
  { intros u. apply (topk_length Hok).
    now rewrite (@masked_row_length log cand row Hrl u). }
  assert (Hpr : forall u j, In j (pos u) -> j < length cand).
  { intros u j Hj. rewrite <- (@masked_row_length log cand row Hrl u).
    eapply (topk_range Hok); [|exact Hj].
    now rewrite (@masked_row_length log cand row Hrl u). }
  exists cand, (fun u => map (fun j => nth j cand 0%Z) (pos u)).
  split; [assumption|]. split; [assumption|]. split; [assumption|]. split.
  - rewrite popular_top_k_unbatched by assumption. rewrite Hr. simpl bind.
    fold scored. rewrite Hrow. unfold predict_all.
    rewrite (mapM_total _ (fun u => map (fun j => nth j cand 0%Z) (pos u)))
      by (intros u _; unfold popular_recommend;
          now apply recommend_row_same).
    simpl bind. apply data_frame_rows.
    intros u _. now rewrite length_map.
  - intros u. split; [now rewrite length_map|]. split; [|split].
    + apply Finite.Injective_map_NoDup_in.
      * intros a b Ha Hb E.
        apply (proj1 (NoDup_nth cand 0%Z) Hcnd);
          [now apply (Hpr u) | now apply (Hpr u) | exact E].
      * apply (topk_nodup Hok).
        now rewrite (@masked_row_length log cand row Hrl u).
    + intros i Hi. apply in_map_iff in Hi as (j & <- & Hj).
      apply nth_In. now apply (Hpr u).
    + intros Hcount i Hi. apply in_map_iff in Hi as (j & <- & Hj).
      apply (@masked_position_not_selected topk_row Hok log cand row Hrl k
               Hclen u j); try assumption.
      intros m Hm. unfold row.
      rewrite (nth_map_lt _ cand 0%Z 0%Q) by assumption.
      apply Hraw, Hincl, nth_In. assumption.
Qed.

Lemma popular_top_k_frame_witness :
  exists (cand : list ItemId) (rec : UserId -> list ItemId),
    PopularModel.restrict_items
      (argsort_ref true)
      (PopularModel.model_train (Examples.popular_config 2)
         PopularModel.default_alpha PopularModel.default_beta Examples.train_log)
      [Examples.i2; Examples.i1; Examples.i3] 2
    = Some cand
    /\ NoDup cand
    /\ length (rec Examples.u1) = 2.
Proof.
  destruct (@popular_top_k_frame
              (topk_ref true) (argsort_ref true)
              (PopularModel.model_train (Examples.popular_config 2)
                 PopularModel.default_alpha PopularModel.default_beta
                 Examples.train_log)
              [mkRecord Examples.u1 Examples.i1 1%Q]
              [Examples.u1; Examples.u2; Examples.u1]
              [Examples.i2; Examples.i1; Examples.i3] 2 2
              (topk_ref_spec true) (argsort_ref_spec true))
    as (cand & rec & H1 & H2 & _ & _ & H3).
  - repeat constructor; simpl; unfold Examples.i1, Examples.i2, Examples.i3;
      intuition discriminate.
  - reflexivity.
  - intros E. vm_compute in E. discriminate.
  - reflexivity.
  - reflexivity.
  - simpl; lia.
  - intros i [<-|[<-|[<-|[]]]]; vm_compute; reflexivity.
  - exists cand, rec. repeat split; try assumption. apply (H3 Examples.u1).
Defined.

(** ** PopularModel.model_predict *)

Lemma filter_absent_label {V : Type} (d : list (Z * V)) (i : Z) :
  ~ In i (map fst d) -> filter (fun s : Z * V => (fst s =? i)%Z) d = [].
Proof.
  induction d as [|[j v] t IH]; simpl; intros H; [reflexivity|].
  destruct (Z.eqb_spec j i) as [->|_]; [exfalso; apply H; auto|].
  apply IH. intros X. apply H. auto.
Qed.

Lemma filter_unique_label {V : Type} (d : list (Z * V)) (i : Z) :
  NoDup (map fst d) ->
  filter (fun s : Z * V => (fst s =? i)%Z) d
  = match dict_lookup d i with
    | Some v => [(i, v)]
    | None => []
    end.
Proof.
  induction d as [|[j v] t IH]; simpl; intros Hnd; [reflexivity|].
  inversion Hnd as [|x l Hx Ht]; subst.
  destruct (Z.eqb_spec j i) as [->|_].
  - now rewrite filter_absent_label.
  - now apply IH.
Qed.

Lemma flat_map_map {A B C : Type} (g : A -> B) (f : B -> list C) (l : list A) :
  flat_map f (map g l) = flat_map (fun a => f (g a)) l.
Proof.
  induction l as [|a t IH]; simpl; [reflexivity | now rewrite IH].
Qed.

Lemma flat_map_singleton {A B : Type} (g : A -> B) (l : list A) :
  flat_map (fun a => [g a]) l = map g l.
Proof.
  induction l as [|a t IH]; simpl; [reflexivity | now rewrite IH].
Qed.

Lemma excluded_count (log : list InteractionRecord) (u : UserId) (i : ItemId) :
  excluded log u i = negb (count_key (u, i) log =? 0).
Proof.
  unfold excluded, count_key, memKey.
  induction log as [|r t IH]; simpl; [reflexivity|].
  replace (key_eqb (u, i) (key_of r)) with (key_eqb (key_of r) (u, i))
    by (unfold key_eqb; now rewrite (Z.eqb_sym (fst (key_of r))),
                               (Z.eqb_sym (snd (key_of r)))).
  destruct (key_eqb (key_of r) (u, i)); simpl; [reflexivity | exact IH].
Qed.

Lemma popular_merge_scores (self : PopularModel.Model)
      (log : list InteractionRecord) :
  NoDup (map fst (PopularModel.items_popularity self)) ->
  PopularModelPredict.merge_scores (map key_of log)
                                   (PopularModel._get_item_scores self)
  = map (fun r => mkRecord (user_id r) (item_id r)
                           (PopularModel.item_score self (item_id r))) log.
Proof.
  intros Hnd. unfold PopularModelPredict.merge_scores.
  rewrite flat_map_map, <- flat_map_singleton.
  apply flat_map_ext. intros r. simpl.
  rewrite filter_unique_label.
  - unfold PopularModel.item_score, dict_get.
    destruct (dict_lookup (PopularModel._get_item_scores self) (item_id r));
      reflexivity.
  - unfold PopularModel._get_item_scores. rewrite map_map. exact Hnd.
Qed.

Lemma popular_exclude_x (log : list InteractionRecord) (row : InteractionRecord) :
  PopularModelPredict.exclude_x log row
  = repeat (if excluded log (user_id row) (item_id row) then (-1)%Q else 0%Q)
           (Nat.max 1 (count_key (key_of row) log)).
Proof.
  unfold PopularModelPredict.exclude_x. rewrite excluded_count.
  fold (key_of row). unfold count_key.
  destruct (filter (fun e => key_eqb (key_of e) (key_of row)) log) as [|e t];
    [reflexivity|].
  cbn [length Nat.eqb negb Nat.max].
  change (map (fun _ : InteractionRecord => (-1)%Q) (e :: t))
    with ((-1)%Q :: map (fun _ : InteractionRecord => (-1)%Q) t).
  cbn [repeat]. f_equal. apply map_const_repeat.
Qed.

Lemma sum_of_positives (f : InteractionRecord -> nat) (l : list InteractionRecord) :
  (forall r, In r l -> 1 <= f r) ->
  length l <= list_sum (map f l)
  /\ (list_sum (map f l) = length l <-> forall r, In r l -> f r = 1).
Proof.
  induction l as [|a t IH]; simpl; intros H.
  - split; [lia|]. split; [contradiction | reflexivity].
  - destruct IH as [IH1 IH2]; [intros; apply H; auto|].
    pose proof (H a (or_introl eq_refl)) as Ha.
    split; [lia|]. split.
    + intros E r [<-|Hr]; [lia|]. apply IH2; [lia | assumption].
    + intros E. rewrite (E a (or_introl eq_refl)).
      simpl. f_equal. apply IH2. intros; apply E; auto.
Qed.

(** X11: [model_predict] of the popularity adapter over a score table with
    distinct item labels. Without [exclude_seen_items] the request comes
    back row by row with the score that [model_predict_top_k] ranks by.
    With it, a row whose pair stands c times in the exclusion log comes back
    max(1, c) times, with 1 subtracted from the score when c > 0: the
    result has at least as many rows as the request, and exactly as many
    if and only if no requested pair stands twice in the exclusion log. *)
Theorem popular_model_predict_rows (self : PopularModel.Model)
        (df_log_exclude df_log_predict : list InteractionRecord) :
  NoDup (map fst (PopularModel.items_popularity self)) ->
  PopularModelPredict.model_predict self false df_log_exclude df_log_predict
  = map (fun r => mkRecord (user_id r) (item_id r)
                           (PopularModel.item_score self (item_id r)))
        df_log_predict
  /\ PopularModelPredict.model_predict self true df_log_exclude df_log_predict
     = flat_map
         (fun r =>
            repeat (mkRecord (user_id r) (item_id r)
                      (PopularModel.item_score self (item_id r)
                       + (if excluded df_log_exclude (user_id r) (item_id r)
                          then -1 else 0))%Q)
                   (Nat.max 1 (count_key (key_of r) df_log_exclude)))
         df_log_predict
  /\ length df_log_predict
     <= length (PopularModelPredict.model_predict self true df_log_exclude
                                                  df_log_predict)
  /\ (length (PopularModelPredict.model_predict self true df_log_exclude
                                                df_log_predict)
      = length df_log_predict
      <-> forall r, In r df_log_predict ->
                    count_key (key_of r) df_log_exclude <= 1).
Proof.
  intros Hnd.
  assert (E1 : PopularModelPredict.model_predict self false df_log_exclude
                                                 df_log_predict
               = map (fun r => mkRecord (user_id r) (item_id r)
                                 (PopularModel.item_score self (item_id r)))
                     df_log_predict).
  { unfold PopularModelPredict.model_predict. now apply popular_merge_scores. }
  assert (E2 : PopularModelPredict.model_predict self true df_log_exclude
                                                 df_log_predict
               = flat_map
                   (fun r =>
                      repeat (mkRecord (user_id r) (item_id r)
                                (PopularModel.item_score self (item_id r)
                                 + (if excluded df_log_exclude (user_id r) (item_id r)
                                    then -1 else 0))%Q)
                             (Nat.max 1 (count_key (key_of r) df_log_exclude)))
                   df_log_predict).
  { unfold PopularModelPredict.model_predict.
    rewrite popular_merge_scores by assumption.
    unfold PopularModelPredict.merge_exclude. rewrite flat_map_map.
    apply flat_map_ext. intros r. rewrite popular_exclude_x.
    cbn [user_id item_id relevance key_of]. fold (key_of r).
    rewrite map_repeat. reflexivity. }
  assert (L : length (PopularModelPredict.model_predict self true df_log_exclude
                                                        df_log_predict)
              = list_sum (map (fun r => Nat.max 1 (count_key (key_of r)
                                                             df_log_exclude))
                              df_log_predict)).
  { rewrite E2, flat_map_concat_map, length_concat, map_map.
    f_equal. apply map_ext. intros r. apply repeat_length. }
  destruct (@sum_of_positives
              (fun r => Nat.max 1 (count_key (key_of r) df_log_exclude))
              df_log_predict) as [S1 S2]; [intros; lia|].
  split; [exact E1|]. split; [exact E2|]. rewrite L. split; [exact S1|].
  rewrite S2. split; intros H r Hr; specialize (H r Hr); lia.
Qed.

Lemma popular_model_predict_rows_witness :
  length (PopularModelPredict.model_predict
            Examples.scenario_popular true
            [mkRecord Examples.u1 Examples.i1 1%Q;
             mkRecord Examples.u1 Examples.i1 1%Q]
            [mkRecord Examples.u1 Examples.i1 0%Q;
             mkRecord Examples.u1 Examples.i2 0%Q])
  = 3.
Proof.
  rewrite (proj1 (proj2 (@popular_model_predict_rows
                           Examples.scenario_popular
                           [mkRecord Examples.u1 Examples.i1 1%Q;
                            mkRecord Examples.u1 Examples.i1 1%Q]
                           [mkRecord Examples.u1 Examples.i1 0%Q;
                            mkRecord Examples.u1 Examples.i2 0%Q]
                           ltac:(repeat constructor; simpl;
                                 unfold Examples.i1, Examples.i2;
                                 intuition discriminate)))).
  reflexivity.
Defined.

(** ** The ranking losses *)

Lemma q_max_zero_nonneg (x : Q) : (0 <= q_max 0 x)%Q.
Proof.
  unfold q_max. destruct (Qle_bool 0 x) eqn:E.
  - now apply Qle_bool_iff.
  - apply Qle_refl.
Qed.

Lemma q_max_zero_iff (x : Q) : (q_max 0 x == 0 <-> x <= 0)%Q.
Proof.
  unfold q_max. destruct (Qle_bool 0 x) eqn:E.
  - apply Qle_bool_iff in E. split; intros H.
    + rewrite H. apply Qle_refl.
    + now apply Qle_antisym.
  - split; intros _; [|reflexivity].
    apply Qlt_le_weak, Qnot_le_lt. intros H.
    apply Qle_bool_iff in H. congruence.
Qed.

Lemma qsum_zero_iff (l : list Q) :
  Forall (fun x => 0 <= x)%Q l ->
  (PopularModel.qsum l == 0)%Q <-> Forall (fun x => x == 0)%Q l.
Proof.
  induction 1 as [|x t Hx Ht IH]; simpl.
  - split; [constructor | reflexivity].
  - pose proof (qsum_nonneg Ht) as Hs. split.
    + intros E. constructor; [lra|]. apply IH. lra.
    + intros E. inversion E as [|? ? Ex Et]; subst.
      apply IH in Et. lra.
Qed.

Lemma qsum_perm (l l' : list Q) :
  Permutation l l' -> (PopularModel.qsum l == PopularModel.qsum l')%Q.
Proof.
  induction 1; simpl; try lra.
Qed.

Lemma q_mean_nonneg (l : list Q) :
  Forall (fun x => 0 <= x)%Q l -> (0 <= q_mean l)%Q.
Proof.
  intros H. unfold q_mean, Qdiv.
  apply Qmult_le_0_compat; [now apply qsum_nonneg|].
  apply Qinv_le_0_compat. change 0%Q with (inject_Z 0).
  rewrite <- Zle_Qle. lia.
Qed.

Lemma q_mean_zero_iff (l : list Q) :
  l <> [] -> Forall (fun x => 0 <= x)%Q l ->
  (q_mean l == 0)%Q <-> Forall (fun x => x == 0)%Q l.
Proof.
  intros Hne Hpos. rewrite <- qsum_zero_iff by assumption.
  unfold q_mean.
  assert (Hn : (0 < / inject_Z (Z.of_nat (length l)))%Q).
  { apply Qinv_lt_0_compat. change 0%Q with (inject_Z 0).
    rewrite <- Zlt_Qlt. destruct l; [congruence | simpl length; lia]. }
  unfold Qdiv. split; intros E.
  - apply Qmult_integral in E as [E|E]; [exact E|]. rewrite E in Hn.
    exfalso. revert Hn. apply Qlt_irrefl.
  - rewrite E. ring.
Qed.

Lemma flat_map_swap_perm {A B C : Type} (f : A -> B -> list C)
      (la : list A) (lb : list B) :
  Permutation (flat_map (fun a => flat_map (fun b => f a b) lb) la)
              (flat_map (fun b => flat_map (fun a => f a b) la) lb).
Proof.
  induction la as [|a ta IH]; simpl.
  - induction lb; simpl; auto.
  - rewrite IH. clear IH.
    induction lb as [|b tb IH]; simpl; [constructor|].
    rewrite <- IH, !app_assoc.
    apply Permutation_app_tail.
    rewrite <- !app_assoc. apply Permutation_app_head.
    apply Permutation_app_comm.
Qed.

Lemma seq_nth_combine {A B : Type} (a : list A) (b : list B) (da : A) (db : B) :
  length a = length b ->
  map (fun j => (nth j a da, nth j b db)) (seq 0 (length a)) = combine a b.
Proof.
  revert b; induction a as [|x a IH]; intros [|y b] H; simpl in *;
    try discriminate; [reflexivity|].
  f_equal. rewrite <- seq_shift, map_map. apply IH. lia.
Qed.

Lemma length_concat_repeat {A : Type} (l : list A) (n : nat) :
  length (concat (repeat l n)) = n * length l.
Proof.
  induction n as [|n IH]; simpl; [reflexivity|].
  rewrite length_app, IH. reflexivity.
Qed.

Lemma length_flat_map_repeat {A : Type} (l : list A) (n : nat) :
  length (flat_map (fun p => repeat p n) l) = length l * n.
Proof.
  induction l as [|x t IH]; simpl; [reflexivity|].
  rewrite length_app, repeat_length, IH. reflexivity.
Qed.

Lemma pairwise_pairs (pred_0 pred_1 : list Q) :
  combine (PairwiseMarginRankingLoss.pred_00 pred_0 pred_1)
          (PairwiseMarginRankingLoss.pred_11 pred_0 pred_1)
  = flat_map (fun b => map (fun a => (a, b)) pred_0) pred_1.
Proof.
  unfold PairwiseMarginRankingLoss.pred_00, PairwiseMarginRankingLoss.pred_11.
  induction pred_1 as [|b t IH]; simpl; [reflexivity|].
  rewrite combine_app_same by (now rewrite repeat_length).
  rewrite IH. f_equal.
  clear. induction pred_0 as [|a t IH]; simpl; [reflexivity | now rewrite IH].
Qed.

Lemma loss_terms (margin y : Q) (x1 x2 : list Q) :
  length x1 = length x2 ->
  margin_ranking_loss margin x1 x2 (repeat y (length x1))
  = q_mean (map (fun p => q_max 0 (- y * (fst p - snd p) + margin))%Q
                (combine x1 x2)).
Proof.
  intros H. unfold margin_ranking_loss. f_equal.
  revert x2 H; induction x1 as [|a x1 IH]; intros [|b x2] H; simpl in *;
    try discriminate; [reflexivity|].
  f_equal. apply IH. lia.
Qed.

Lemma masked_select_same (f : Q -> bool) (prediction label : list Q) :
  length prediction = length label ->
  masked_select prediction (map f label)
  = Some (map fst (filter (fun pl => f (snd pl)) (combine prediction label))).
Proof.
  intros H. unfold masked_select.
  rewrite length_map, (proj2 (Nat.eqb_eq _ _) H). f_equal.
  revert label H; induction prediction as [|p t IH]; intros [|l u] H;
    simpl in *; try discriminate; [reflexivity|].
  destruct (f l); simpl; rewrite IH by lia; reflexivity.
Qed.

Lemma in_selected (f : Q -> bool) (prediction label : list Q) (a : Q) :
  length prediction = length label ->
  In a (map fst (filter (fun pl => f (snd pl)) (combine prediction label)))
  <-> exists i, i < length label /\ f (nth i label 0%Q) = true
                /\ a = nth i prediction 0%Q.
Proof.
  intros H. rewrite in_map_iff. split.
  - intros ([p l] & <- & Hin). apply filter_In in Hin as [Hin Hf].
    apply (In_nth _ _ (0%Q, 0%Q)) in Hin as (i & Hi & E).
    rewrite length_combine in Hi. rewrite combine_nth in E by assumption.
    inversion E; subst. exists i. simpl in *. repeat split; [lia | assumption].
  - intros (i & Hi & Hf & ->).
    exists (nth i prediction 0%Q, nth i label 0%Q). split; [reflexivity|].
    apply filter_In. split; [|exact Hf].
    rewrite <- combine_nth by assumption.
    apply nth_In. rewrite length_combine. lia.
Qed.

Lemma in_ix_pairs (label : list Q) (i j : nat) :
  In (i, j) (MultiClassMarginRankingLoss.ix_pairs label)
  <-> i < length label /\ j < length label
      /\ (nth i label 0 < nth j label 0)%Q.
Proof.
  unfold MultiClassMarginRankingLoss.ix_pairs. rewrite in_flat_map. split.
  - intros (i' & Hi' & H). apply in_flat_map in H as (j' & Hj' & H).
    apply in_seq in Hi', Hj'.
    destruct (Qle_bool (nth j' label 0 - nth i' label 0)%Q 0%Q) eqn:E;
      [contradiction|].
    destruct H as [[= -> ->]|[]]. repeat split; try lia.
    apply Qnot_le_lt. intros X.
    assert (Y : Qle_bool (nth j label 0 - nth i label 0)%Q 0%Q = true)
      by (apply Qle_bool_iff; lra).
    congruence.
  - intros (Hi & Hj & Hlt). exists i. split; [apply in_seq; lia|].
    apply in_flat_map. exists j. split; [apply in_seq; lia|].
    destruct (Qle_bool (nth j label 0 - nth i label 0)%Q 0%Q) eqn:E;
      [|simpl; auto].
    apply Qle_bool_iff in E. lra.
Qed.

Lemma index_select_total (prediction : list Q) (ix : list nat) :
  (forall i, In i ix -> i < length prediction) ->
  MultiClassMarginRankingLoss.index_select prediction ix
  = Some (map (fun i => nth i prediction 0%Q) ix).
Proof.
  intros H. apply mapM_total. intros i Hi. apply nth_error_nth'. auto.
Qed.

Lemma pairwise_branch (margin : Q) (prediction pred_0 pred_1 : list Q) :
  (if (0 <? length pred_1) && negb (length pred_0 =? 0)
   then Some (margin_ranking_loss
                margin (PairwiseMarginRankingLoss.pred_00 pred_0 pred_1)
                (PairwiseMarginRankingLoss.pred_11 pred_0 pred_1)
                (repeat (-1 * 1)%Q (length pred_1 * length pred_0)))
   else Some (PopularModel.qsum prediction * 0)%Q)
  = Some (loss_over margin prediction
                    (flat_map (fun b => map (fun a => (a, b)) pred_0) pred_1)).
Proof.
  destruct pred_1 as [|b t]; [reflexivity|].
  destruct pred_0 as [|a u].
  - simpl. f_equal. clear. induction t; simpl; auto.
  - change ((0 <? length (b :: t)) && negb (length (a :: u) =? 0)) with true.
    cbv iota. f_equal.
    replace (length (b :: t) * length (a :: u))
      with (length (PairwiseMarginRankingLoss.pred_00 (a :: u) (b :: t)))
      by (unfold PairwiseMarginRankingLoss.pred_00;
          apply length_concat_repeat).
    rewrite loss_terms
      by (unfold PairwiseMarginRankingLoss.pred_00,
            PairwiseMarginRankingLoss.pred_11;
          now rewrite length_concat_repeat, length_flat_map_repeat).
    rewrite pairwise_pairs. reflexivity.
Qed.

Section RankingLosses.

Variable margin : Q.
Variables prediction label : list Q.
Hypothesis same_size : length prediction = length label.

Lemma loss_term_zero (p : Q * Q) :
  (loss_term margin p == 0 <-> fst p + margin <= snd p)%Q.
Proof.
  unfold loss_term. rewrite q_max_zero_iff. split; intros H; lra.
Qed.

Lemma terms_nonneg (l : list (Q * Q)) :
  Forall (fun x => 0 <= x)%Q (map (loss_term margin) l).
Proof.
  apply Forall_forall. intros x Hx. apply in_map_iff in Hx as (p & <- & _).
  apply q_max_zero_nonneg.
Qed.

Lemma pairwise_forward_eq :
  PairwiseMarginRankingLoss.forward margin prediction label
  = Some (let pred_0 := map fst (filter (fun pl => Qeq_bool (snd pl) 0)
                                        (combine prediction label)) in
          let pred_1 := map fst (filter (fun pl => Qeq_bool (snd pl) 1)
                                        (combine prediction label)) in
          loss_over margin prediction
                    (flat_map (fun b => map (fun a => (a, b)) pred_0) pred_1)).
Proof.
  unfold PairwiseMarginRankingLoss.forward.
  rewrite !masked_select_same by assumption. simpl bind. cbv zeta.
  apply pairwise_branch.
Qed.

Lemma multiclass_forward_eq :
  MultiClassMarginRankingLoss.forward margin prediction label
  = Some (loss_over margin prediction
                    (map (fun p => (nth (fst p) prediction 0%Q,
                                    nth (snd p) prediction 0%Q))
                         (MultiClassMarginRankingLoss.ix_pairs label))).
Proof.
  unfold MultiClassMarginRankingLoss.forward. cbv zeta.
  set (ix := MultiClassMarginRankingLoss.ix_pairs label).
  assert (Hix : forall p, In p ix ->
                          fst p < length prediction /\ snd p < length prediction).
  { intros [i j] Hp. apply in_ix_pairs in Hp. simpl. lia. }
  destruct ix as [|p t] eqn:E; [reflexivity|]. rewrite <- E in *.
  replace (0 <? length ix) with true by (rewrite E; reflexivity).
  rewrite !index_select_total
    by (intros i Hi; apply in_map_iff in Hi as (q & <- & Hq);
        now apply Hix).
  simpl bind.
  replace (length ix)
    with (length (map (fun i => nth i prediction 0%Q) (map fst ix)))
    by (now rewrite !length_map).
  rewrite loss_terms by (now rewrite !length_map).
  rewrite !map_map, combine_map_map. f_equal.
  rewrite E at 1. simpl map at 1. rewrite E. reflexivity.
Qed.

End RankingLosses.

Lemma loss_value (margin : Q) (prediction : list Q) (pairs : list (Q * Q)) :
  (0 <= loss_over margin prediction pairs)%Q
  /\ ((loss_over margin prediction pairs == 0)%Q
      <-> forall p, In p pairs -> (fst p + margin <= snd p)%Q).
Proof.
  unfold loss_over. destruct pairs as [|p t].
  - split; [lra|]. split; [intros _ p [] | intros _; lra].
  - set (pairs := p :: t).
    split; [apply q_mean_nonneg, terms_nonneg|].
    rewrite q_mean_zero_iff by (try apply terms_nonneg; discriminate).
    rewrite Forall_forall. split.
    + intros H q Hq. apply loss_term_zero, H, in_map, Hq.
    + intros H x Hx. apply in_map_iff in Hx as (q & <- & Hq).
      apply loss_term_zero, H, Hq.
Qed.

Lemma loss_value_perm (margin : Q) (prediction : list Q)
      (pairs pairs' : list (Q * Q)) :
  Permutation pairs pairs' ->
  (loss_over margin prediction pairs == loss_over margin prediction pairs')%Q.
Proof.
  intros H. unfold loss_over. destruct pairs as [|p t], pairs' as [|p' t'].
  - reflexivity.
  - apply Permutation_nil in H. discriminate.
  - apply Permutation_sym, Permutation_nil in H. discriminate.
  - unfold q_mean.
    rewrite (qsum_perm (Permutation_map (loss_term margin) H)).
    rewrite !length_map, (Permutation_length H). reflexivity.
Qed.

(** X12: In exact arithmetic (the loss read over the rationals, without the
    rounding of the float32 tensors, under which a sum can round where the
    exact condition fails): [PairwiseMarginRankingLoss.forward] on a
    prediction and a label vector of one size returns a loss that is never
    negative, and that is zero exactly when every prediction under a label
    0 stays at least [margin] below every prediction under a label 1 (which
    includes the case that one of the two classes is absent). *)
Theorem pairwise_loss_zero_iff (margin : Q) (prediction label : list Q) :
  length prediction = length label ->
  exists loss,
    PairwiseMarginRankingLoss.forward margin prediction label = Some loss
    /\ (0 <= loss)%Q
    /\ ((loss == 0)%Q
        <-> forall i j,
              i < length label -> j < length label ->
              (nth i label 0 == 0)%Q -> (nth j label 0 == 1)%Q ->
              (nth i prediction 0 + margin <= nth j prediction 0)%Q).
Proof.
  intros Hlen. rewrite pairwise_forward_eq by assumption. cbv zeta.
  set (pred_0 := map fst (filter (fun pl => Qeq_bool (snd pl) 0)
                                 (combine prediction label))).
  set (pred_1 := map fst (filter (fun pl => Qeq_bool (snd pl) 1)
                                 (combine prediction label))).
  set (pairs := flat_map (fun b => map (fun a => (a, b)) pred_0) pred_1).
  eexists. split; [reflexivity|].
  destruct (loss_value margin prediction pairs) as [Hpos Hzero].
  split; [exact Hpos|]. rewrite Hzero. split.
  - intros H i j Hi Hj Li Lj.
    apply (H (nth i prediction 0%Q, nth j prediction 0%Q)).
    apply in_flat_map. exists (nth j prediction 0%Q). split.
    + apply (in_selected (fun l => Qeq_bool l 1)); [assumption|].
      exists j. repeat split; [assumption | now apply Qeq_bool_iff].
    + apply in_map_iff. exists (nth i prediction 0%Q). split; [reflexivity|].
      apply (in_selected (fun l => Qeq_bool l 0)); [assumption|].
      exists i. repeat split; [assumption | now apply Qeq_bool_iff].
  - intros H [a b] Hp. apply in_flat_map in Hp as (b' & Hb & Hp).
    apply in_map_iff in Hp as (a' & [= <- <-] & Ha).
    apply (in_selected (fun l => Qeq_bool l 0)) in Ha as (i & Hi & Li & ->);
      [|assumption].
    apply (in_selected (fun l => Qeq_bool l 1)) in Hb as (j & Hj & Lj & ->);
      [|assumption].
    apply Qeq_bool_iff in Li, Lj. simpl. now apply H.
Qed.

Lemma pairwise_loss_zero_iff_witness :
  exists loss,
    PairwiseMarginRankingLoss.forward (1 # 10) [(2 # 10); (9 # 10); (4 # 10)]%Q
                                      [0; 1; 0]%Q
    = Some loss
    /\ (0 <= loss)%Q.
Proof.
  destruct (@pairwise_loss_zero_iff (1 # 10) [(2 # 10); (9 # 10); (4 # 10)]%Q
              [0; 1; 0]%Q eq_refl) as (loss & H & Hpos & _).
  exists loss. split; assumption.
Defined.

(** X13: In exact arithmetic (the loss read over the rationals, without the
    rounding of the float32 tensors, under which a sum can round where the
    exact condition fails): [MultiClassMarginRankingLoss.forward] on a
    prediction and a label vector of one size returns a loss that is never
    negative, and that is zero exactly when, for every two positions whose
    labels differ, the prediction at the smaller label stays at least
    [margin] below the prediction at the larger label. *)
Theorem multiclass_loss_zero_iff (margin : Q) (prediction label : list Q) :
  length prediction = length label ->
  exists loss,
    MultiClassMarginRankingLoss.forward margin prediction label = Some loss
    /\ (0 <= loss)%Q
    /\ ((loss == 0)%Q
        <-> forall i j,
              i < length label -> j < length label ->
              (nth i label 0 < nth j label 0)%Q ->
              (nth i prediction 0 + margin <= nth j prediction 0)%Q).
Proof.
  intros Hlen. rewrite multiclass_forward_eq by assumption.
  set (pairs := map (fun p => (nth (fst p) prediction 0%Q,
                               nth (snd p) prediction 0%Q))
                    (MultiClassMarginRankingLoss.ix_pairs label)).
  eexists. split; [reflexivity|].
  destruct (loss_value margin prediction pairs) as [Hpos Hzero].
  split; [exact Hpos|]. rewrite Hzero. split.
  - intros H i j Hi Hj Hlt.
    apply (H (nth i prediction 0%Q, nth j prediction 0%Q)).
    apply in_map_iff. exists (i, j). split; [reflexivity|].
    apply in_ix_pairs. auto.
  - intros H p Hp. apply in_map_iff in Hp as ([i j] & <- & Hp).
    apply in_ix_pairs in Hp as (Hi & Hj & Hlt). simpl. now apply H.
Qed.

Lemma multiclass_loss_zero_iff_witness :
  exists loss,
    MultiClassMarginRankingLoss.forward (1 # 10) [(2 # 10); (9 # 10); (4 # 10)]%Q
                                        [0; 2; 1]%Q
    = Some loss
    /\ (0 <= loss)%Q.
Proof.
  destruct (@multiclass_loss_zero_iff (1 # 10) [(2 # 10); (9 # 10); (4 # 10)]%Q
              [0; 2; 1]%Q eq_refl) as (loss & H & Hpos & _).
  exists loss. split; assumption.
Defined.

Lemma flat_map_selected {B : Type} (h : Q * Q -> bool) (g : Q -> list B)
      (l : list (Q * Q)) :
  flat_map g (map fst (filter h l))
  = flat_map (fun x => if h x then g (fst x) else []) l.
Proof.
  induction l as [|x t IH]; simpl; [reflexivity|].
  destruct (h x); simpl; now rewrite IH.
Qed.

Lemma flat_map_nil {A B : Type} (l : list A) :
  flat_map (fun _ : A => @nil B) l = [].
Proof.
  induction l; simpl; auto.
Qed.

Lemma map_over_flat_map {A B C : Type} (h : B -> C) (f : A -> list B)
      (l : list A) :
  map h (flat_map f l) = flat_map (fun a => map h (f a)) l.
Proof.
  induction l as [|a t IH]; simpl; [reflexivity|].
  now rewrite map_app, IH.
Qed.

Lemma binary_nth (label : list Q) (j : nat) :
  (forall l, In l label -> l == 0 \/ l == 1)%Q ->
  (nth j label 0 == 0 \/ nth j label 0 == 1)%Q.
Proof.
  intros H. destruct (nth_in_or_default j label 0%Q) as [Hin| ->].
  - now apply H.
  - left. reflexivity.
Qed.

Lemma binary_order (a b : Q) :
  (a == 0 \/ a == 1)%Q -> (b == 0 \/ b == 1)%Q ->
  Qle_bool (b - a) 0 = negb (Qeq_bool a 0 && Qeq_bool b 1).
Proof.
  intros Ha Hb.
  destruct (Qeq_bool a 0) eqn:A0, (Qeq_bool b 1) eqn:B1; simpl.
  - apply Qeq_bool_iff in A0, B1.
    destruct (Qle_bool (b - a) 0) eqn:E; [|reflexivity].
    apply Qle_bool_iff in E. lra.
  - apply Qeq_bool_iff in A0. apply Qeq_bool_neq in B1.
    apply Qle_bool_iff. destruct Hb as [Hb|Hb]; [lra | contradiction].
  - apply Qeq_bool_neq in A0. apply Qeq_bool_iff in B1.
    apply Qle_bool_iff. destruct Ha as [Ha|Ha]; [contradiction | lra].
  - apply Qeq_bool_neq in A0, B1.
    apply Qle_bool_iff.
    destruct Ha as [Ha|Ha]; [contradiction|].
    destruct Hb as [Hb|Hb]; [lra | contradiction].
Qed.

(** X14: On labels that are all 0 or 1 the two ranking losses rank the same
    pairs: the (input1, input2) pairs that [PairwiseMarginRankingLoss]
    hands to the margin loss are a rearrangement of those of
    [MultiClassMarginRankingLoss], so both return the same loss (in exact
    arithmetic; the order of the summation differs). *)
Theorem ranking_losses_agree_on_binary_labels
        (margin : Q) (prediction label : list Q) :
  length prediction = length label ->
  (forall l, In l label -> l == 0 \/ l == 1)%Q ->
  exists pred_0 pred_1 a b,
    masked_select prediction (map (fun l => Qeq_bool l 0) label) = Some pred_0
    /\ masked_select prediction (map (fun l => Qeq_bool l 1) label) = Some pred_1
    /\ Permutation
         (combine (PairwiseMarginRankingLoss.pred_00 pred_0 pred_1)
                  (PairwiseMarginRankingLoss.pred_11 pred_0 pred_1))
         (map (fun p => (nth (fst p) prediction 0%Q, nth (snd p) prediction 0%Q))
              (MultiClassMarginRankingLoss.ix_pairs label))
    /\ PairwiseMarginRankingLoss.forward margin prediction label = Some a
    /\ MultiClassMarginRankingLoss.forward margin prediction label = Some b
    /\ (a == b)%Q.
Proof.
  intros Hlen Hbin.
  set (PL := combine prediction label).
  set (pred_0 := map fst (filter (fun pl => Qeq_bool (snd pl) 0) PL)).
  set (pred_1 := map fst (filter (fun pl => Qeq_bool (snd pl) 1) PL)).
  set (G := fun a b : Q * Q =>
              if Qeq_bool (snd a) 0 && Qeq_bool (snd b) 1
              then [(fst a, fst b)] else []).
  assert (HP : flat_map (fun b => map (fun a => (a, b)) pred_0) pred_1
               = flat_map (fun b => flat_map (fun a => G a b) PL) PL).
  { unfold pred_1.
    rewrite (flat_map_selected (fun pl => Qeq_bool (snd pl) 1)).
    apply flat_map_ext. intros b. unfold G.
    destruct (Qeq_bool (snd b) 1).
    - unfold pred_0. rewrite <- flat_map_singleton.
      rewrite (flat_map_selected (fun pl => Qeq_bool (snd pl) 0)).
      apply flat_map_ext. intros a. now rewrite andb_true_r.
    - symmetry. erewrite flat_map_ext; [apply flat_map_nil|].
      intros a. now rewrite andb_false_r. }
  assert (HM : map (fun p => (nth (fst p) prediction 0%Q,
                              nth (snd p) prediction 0%Q))
                   (MultiClassMarginRankingLoss.ix_pairs label)
               = flat_map (fun a => flat_map (fun b => G a b) PL) PL).
  { unfold PL. rewrite <- (seq_nth_combine prediction label 0%Q 0%Q Hlen).
    rewrite Hlen. unfold MultiClassMarginRankingLoss.ix_pairs.
    rewrite map_over_flat_map, flat_map_map.
    apply flat_map_ext. intros i.
    rewrite map_over_flat_map, flat_map_map.
    apply flat_map_ext. intros j. unfold G. cbn [fst snd].
    rewrite (@binary_order _ _ (@binary_nth label i Hbin)
                           (@binary_nth label j Hbin)).
    destruct (Qeq_bool (nth i label 0%Q) 0 && Qeq_bool (nth j label 0%Q) 1);
      reflexivity. }
  assert (Hperm : Permutation
                    (flat_map (fun b => map (fun a => (a, b)) pred_0) pred_1)
                    (map (fun p => (nth (fst p) prediction 0%Q,
                                    nth (snd p) prediction 0%Q))
                         (MultiClassMarginRankingLoss.ix_pairs label))).
  { rewrite HP, HM. apply flat_map_swap_perm. }
  exists pred_0, pred_1.
  eexists. eexists.
  split; [now apply masked_select_same|].
  split; [now apply masked_select_same|].
  split; [now rewrite pairwise_pairs|].
  split; [now apply pairwise_forward_eq|].
  split; [now apply multiclass_forward_eq|].
  cbv zeta. fold PL. fold pred_0. fold pred_1.
  now apply loss_value_perm.
Qed.

Lemma ranking_losses_agree_on_binary_labels_witness :
  exists a b,
    PairwiseMarginRankingLoss.forward (1 # 10) [(2 # 10); (9 # 10); (4 # 10)]%Q
                                      [0; 1; 0]%Q
    = Some a
    /\ MultiClassMarginRankingLoss.forward
         (1 # 10) [(2 # 10); (9 # 10); (4 # 10)]%Q [0; 1; 0]%Q
       = Some b
    /\ (a == b)%Q.
Proof.
  destruct (@ranking_losses_agree_on_binary_labels
              (1 # 10) [(2 # 10); (9 # 10); (4 # 10)]%Q [0; 1; 0]%Q eq_refl)
    as (p0 & p1 & a & b & _ & _ & _ & Ha & Hb & E).
  - intros l [<-|[<-|[<-|[]]]]; [left | right | left]; reflexivity.
  - exists a, b. repeat split; assumption.
Defined.

(** ** MixedEmbedding: the width of the output *)

Ltac split_comparisons :=
  repeat match goal with
         | |- context [(?a <? ?b)%Z] => destruct (Z.ltb_spec a b)
         | |- context [(?a =? ?b)%Z] => destruct (Z.eqb_spec a b)
         end.

(** X15: The width of what [MixedEmbedding.forward] returns, for every choice
    of the sizes: whenever a feature is configured the output is
    [hidden_size] wide; with no feature at all (no positive size and
    [pretrained_embedding_size] = 0) the constructor falls back to a
    32-wide shared vector and the output is 32 wide whatever [hidden_size]
    is. Counting columns only (the number of rows, the range of the
    indices and a non-positive [hidden_size] are not modelled), [forward]
    raises exactly when the fixed vectors do not have the configured width,
    or when a negative [pretrained_embedding_size] is the only configured
    feature (it is counted, but creates no layer). *)
Theorem mixed_embedding_output_width (a : MixedEmbedding.Args) (fixed_width : Z) :
  (MixedEmbedding.count_features a = 0%Z
   <-> (MixedEmbedding.arg_one_for_all_size a <= 0
        /\ MixedEmbedding.arg_learn_embedding_size a <= 0
        /\ MixedEmbedding.arg_pretrained_embedding_size a = 0
        /\ MixedEmbedding.arg_fixed_vector_size a <= 0)%Z)
  /\ (forall w,
         MixedEmbedding.forward_width (MixedEmbedding.init a) fixed_width = Some w ->
         w = if (MixedEmbedding.count_features a =? 0)%Z then 32%Z
             else MixedEmbedding.arg_hidden_size a)
  /\ (MixedEmbedding.forward_width (MixedEmbedding.init a) fixed_width = None
      <-> ((0 < MixedEmbedding.arg_fixed_vector_size a
            /\ fixed_width <> MixedEmbedding.arg_fixed_vector_size a)
           \/ (MixedEmbedding.arg_one_for_all_size a <= 0
               /\ MixedEmbedding.arg_learn_embedding_size a <= 0
               /\ MixedEmbedding.arg_pretrained_embedding_size a < 0
               /\ MixedEmbedding.arg_fixed_vector_size a <= 0))%Z).
Proof.
  destruct a as [ofa learn fixed hidden pre].
  unfold MixedEmbedding.forward_width, MixedEmbedding.init,
    MixedEmbedding.count_features, MixedEmbedding.use_transformation,
    MixedEmbedding.in_features.
  cbn [MixedEmbedding.arg_one_for_all_size
         MixedEmbedding.arg_learn_embedding_size
         MixedEmbedding.arg_fixed_vector_size MixedEmbedding.arg_hidden_size
         MixedEmbedding.arg_pretrained_embedding_size
         MixedEmbedding.one_for_all_size MixedEmbedding.learn_embedding_size
         MixedEmbedding.fixed_vector_size MixedEmbedding.hidden_size
         MixedEmbedding.pretrained_embedding_size MixedEmbedding.feature_count
         MixedEmbedding.one_for_all MixedEmbedding.embedding
         MixedEmbedding.transformation].
  destruct (Z.ltb_spec 0 ofa), (Z.ltb_spec 0 learn), (Z.eqb_spec pre 0),
    (Z.ltb_spec 0 pre), (Z.ltb_spec 0 fixed); try lia;
    cbn -[Z.add Z.eqb Z.ltb]; split_comparisons; cbn -[Z.add Z.eqb Z.ltb];
    split_comparisons;
    (split; [split; [intros; lia | intros; lia]
            |split; [intros w [= <-]; try reflexivity; try lia
                    |split; [intros; try discriminate; lia
                            |intros; try reflexivity; lia]]]).
Qed.

(** ** RunningAverageItem *)

Lemma running_average_step (a v t lo hi : Q) :
  (0 <= a)%Q -> (a <= 1)%Q -> (lo <= v)%Q -> (v <= hi)%Q ->
  (lo <= t)%Q -> (t <= hi)%Q ->
  (lo <= a * v + (1 - a) * t)%Q /\ (a * v + (1 - a) * t <= hi)%Q.
Proof.
  intros Ha0 Ha1 Hv0 Hv1 Ht0 Ht1.
  assert (H1 : (0 <= a * (v - lo))%Q) by (apply Qmult_le_0_compat; lra).
  assert (H2 : (0 <= (1 - a) * (t - lo))%Q) by (apply Qmult_le_0_compat; lra).
  assert (H3 : (0 <= a * (hi - v))%Q) by (apply Qmult_le_0_compat; lra).
  assert (H4 : (0 <= (1 - a) * (hi - t))%Q) by (apply Qmult_le_0_compat; lra).
  split.
  - setoid_replace (a * v + (1 - a) * t)%Q
      with (lo + (a * (v - lo) + (1 - a) * (t - lo)))%Q by ring.
    lra.
  - setoid_replace (a * v + (1 - a) * t)%Q
      with (hi - (a * (hi - v) + (1 - a) * (hi - t)))%Q by ring.
    lra.
Qed.

(** X16: In exact arithmetic (the update of line 26 read over the rationals,
    without the rounding of Python's doubles, under which a bound can be
    missed by one unit in the last place), both halves: a running average
    with a smoothing factor in [0, 1] stays between the bounds of its
    initial value and of the values it is updated with, through any number
    of updates; and updated n times with one value t, its distance to t is
    alpha^n times the initial distance. *)
Theorem running_average_bounds (self : RunningAverageItem.State) (ts : list Q)
        (lo hi : Q) :
  (0 <= RunningAverageItem.alpha self)%Q ->
  (RunningAverageItem.alpha self <= 1)%Q ->
  (lo <= RunningAverageItem.value self)%Q ->
  (RunningAverageItem.value self <= hi)%Q ->
  Forall (fun t => lo <= t /\ t <= hi)%Q ts ->
  (lo <= RunningAverageItem.value (fold_left RunningAverageItem.update ts self))%Q
  /\ (RunningAverageItem.value (fold_left RunningAverageItem.update ts self)
      <= hi)%Q
  /\ forall (t : Q) (n : nat),
       (RunningAverageItem.value
          (fold_left RunningAverageItem.update (repeat t n) self) - t
        == RunningAverageItem.alpha self ^ Z.of_nat n
           * (RunningAverageItem.value self - t))%Q.
Proof.
  intros Ha0 Ha1 Hv0 Hv1 Hts. rewrite <- and_assoc. split.
  - revert self Ha0 Ha1 Hv0 Hv1.
    induction Hts as [|t ts [Ht0 Ht1] _ IH]; intros self Ha0 Ha1 Hv0 Hv1;
      simpl; [split; assumption|].
    destruct (@running_average_step
                (RunningAverageItem.alpha self) (RunningAverageItem.value self)
                t lo hi) as [B0 B1]; try assumption.
    apply IH; simpl; assumption.
  - intros t n. clear. revert self.
    induction n as [|n IH]; intros self.
    + simpl. ring.
    + cbn [repeat fold_left]. rewrite IH.
      cbn [RunningAverageItem.update RunningAverageItem.alpha
             RunningAverageItem.value].
      rewrite Nat2Z.inj_succ. unfold Z.succ.
      rewrite Qpower_plus' by lia. rewrite Qpower_1_r. ring.
Qed.

Lemma running_average_bounds_witness :
  (0 <= RunningAverageItem.value
          (fold_left RunningAverageItem.update [1; (1 # 2)]%Q
                     (RunningAverageItem.mkState (9 # 10) 0)))%Q
  /\ (RunningAverageItem.value
        (fold_left RunningAverageItem.update [1; (1 # 2)]%Q
                   (RunningAverageItem.mkState (9 # 10) 0)) <= 1)%Q.
Proof.
  destruct (@running_average_bounds (RunningAverageItem.mkState (9 # 10) 0)
              [1; (1 # 2)]%Q 0%Q 1%Q) as (H0 & H1 & _);
    [simpl; lra | simpl; lra | simpl; lra | simpl; lra
    | repeat constructor; lra | split; assumption].
Defined.

(** ** ALSModel: the index maps of [model_train] *)

Lemma unique_first_In (seen l : list Z) (x : Z) :
  In x (ALSModel.unique_first seen l) <-> In x l /\ ~ In x seen.
Proof.
  revert seen; induction l as [|a t IH]; intros seen; simpl; [tauto|].
  destruct (memZ a seen) eqn:E.
  - apply memZ_In in E. rewrite IH. split.
    + intros [H1 H2]. auto.
    + intros [[->|H1] H2]; [contradiction | auto].
  - assert (Ha : ~ In a seen) by (rewrite <- memZ_In; congruence).
    simpl. rewrite IH. simpl. split.
    + intros [->|[H1 H2]]; [auto|]. split; [auto | tauto].
    + intros [[->|H1] H2]; [auto|].
      destruct (Z.eq_dec a x) as [->|N]; [auto|]. right. split; [assumption|].
      intros [?|?]; [congruence | contradiction].
Qed.

Lemma unique_first_NoDup (seen l : list Z) : NoDup (ALSModel.unique_first seen l).
Proof.
  revert seen; induction l as [|a t IH]; intros seen; simpl; [constructor|].
  destruct (memZ a seen); [apply IH|].
  constructor; [|apply IH].
  rewrite unique_first_In. simpl. tauto.
Qed.

Lemma enumerate_lookup (l : list Z) (s : nat) (x ix : Z) :
  NoDup l ->
  dict_lookup (combine l (map Z.of_nat (seq s (length l)))) x = Some ix
  <-> exists j, ix = Z.of_nat (s + j) /\ nth_error l j = Some x.
Proof.
  intros Hnd. revert s; induction Hnd as [|a t Ha Hnd IH]; intros s; simpl.
  - split; [discriminate | intros ([|j] & _ & H); discriminate].
  - destruct (Z.eqb_spec a x) as [->|N].
    + split.
      * intros [= <-]. exists 0. split; [f_equal; lia | reflexivity].
      * intros ([|j] & -> & H); [f_equal; f_equal; lia|].
        simpl in H. apply nth_error_In in H. contradiction.
    + rewrite IH. split.
      * intros (j & -> & H). exists (S j). split; [f_equal; lia | exact H].
      * intros ([|j] & -> & H); simpl in H; [congruence|].
        exists j. split; [f_equal; lia | exact H].
Qed.

Lemma enumerate_map_spec (index : list Z) (x ix : Z) :
  NoDup index ->
  dict_lookup (ALSModel.enumerate_map index) x = Some ix
  <-> (0 <= ix)%Z /\ ALSModel.np_index index ix = Some x.
Proof.
  intros Hnd. unfold ALSModel.enumerate_map.
  rewrite enumerate_lookup by assumption. unfold ALSModel.np_index. split.
  - intros (j & -> & H). simpl.
    assert (Hj : j < length index) by (apply nth_error_Some; congruence).
    split; [lia|].
    destruct (Z.leb_spec 0 (Z.of_nat j)); [|lia].
    destruct (Z.ltb_spec (Z.of_nat j) (Z.of_nat (length index))); [|lia].
    simpl. now rewrite Nat2Z.id.
  - intros [H0 H]. destruct (Z.leb_spec 0 ix); [|lia].
    destruct (Z.ltb_spec ix (Z.of_nat (length index))); simpl in H.
    + exists (Z.to_nat ix). split; [simpl; lia | exact H].
    + destruct (Z.leb_spec (- Z.of_nat (length index)) ix),
        (Z.ltb_spec ix 0); simpl in H; try discriminate; lia.
Qed.

(** X17: The index tables that [model_train] of the factorization adapter
    builds: [item_index] lists the items of the training log once each, and
    [item_map] is its inverse, [item_map[item] = ix] exactly when
    [item_index[ix] = item] for a row [ix >= 0]; an item outside the log has
    no entry. The same holds for users, so [user_map.get(user, -1)] is -1
    exactly for the users outside the log. *)
Theorem als_index_maps_round_trip (pn : bool)
        (fitted : Z -> list InteractionRecord -> list Z -> list (Z * Q))
        (df_log : list InteractionRecord) :
  NoDup (ALSModel.item_index (ALSModel.model_train pn fitted df_log))
  /\ NoDup (ALSModel.user_index (ALSModel.model_train pn fitted df_log))
  /\ (forall item,
         In item (ALSModel.item_index (ALSModel.model_train pn fitted df_log))
         <-> In item (map item_id df_log))
  /\ (forall user,
         In user (ALSModel.user_index (ALSModel.model_train pn fitted df_log))
         <-> In user (map user_id df_log))
  /\ (forall item ix,
         dict_lookup (ALSModel.item_map (ALSModel.model_train pn fitted df_log))
                     item = Some ix
         <-> (0 <= ix)%Z
             /\ ALSModel.np_index
                  (ALSModel.item_index (ALSModel.model_train pn fitted df_log)) ix
                = Some item)
  /\ (forall user ix,
         dict_lookup (ALSModel.user_map (ALSModel.model_train pn fitted df_log))
                     user = Some ix
         <-> (0 <= ix)%Z
             /\ ALSModel.np_index
                  (ALSModel.user_index (ALSModel.model_train pn fitted df_log)) ix
                = Some user)
  /\ (forall user,
         dict_get (ALSModel.user_map (ALSModel.model_train pn fitted df_log))
                  user (-1)%Z = (-1)%Z
         <-> ~ In user (map user_id df_log)).
Proof.
  simpl.
  assert (In0 : forall l x, In x (ALSModel.unique_first [] l) <-> In x l)
    by (intros l x; rewrite unique_first_In; simpl; tauto).
  split; [apply unique_first_NoDup|]. split; [apply unique_first_NoDup|].
  split; [intros; apply In0|]. split; [intros; apply In0|].
  split; [intros; apply enumerate_map_spec, unique_first_NoDup|].
  split; [intros; apply enumerate_map_spec, unique_first_NoDup|].
  intros user. unfold dict_get.
  destruct (dict_lookup _ user) as [ix|] eqn:E.
  - pose proof E as E'.
    apply enumerate_map_spec in E as [H0 H]; [|apply unique_first_NoDup].
    apply als_np_index_In in H. apply (proj1 (In0 _ _)) in H.
    split; [lia | tauto].
  - split; [intros _ Hin | reflexivity].
    apply (proj2 (In0 _ _)) in Hin.
    apply (@combine_lookup_covers
             (ALSModel.unique_first [] (map user_id df_log))
             (map Z.of_nat
                  (seq 0 (length (ALSModel.unique_first [] (map user_id df_log)))))
             user) in Hin; [|now rewrite length_map, length_seq].
    unfold ALSModel.enumerate_map in E. congruence.
Qed.

(** ** ALSModel.model_predict: the rows of the result *)

Lemma mapM_perm {A B : Type} (f : A -> option B) (l l' : list A) :
  Permutation l l' ->
  forall r, mapM f l = Some r ->
            exists r', mapM f l' = Some r' /\ Permutation r r'.
Proof.
  induction 1 as [|x l l' _ IH|x y l|l l' l'' _ IH1 _ IH2]; intros r Hr.
  - exists r. split; [exact Hr|]. simpl in Hr. inversion Hr. constructor.
  - simpl in *. destruct (f x) as [b|]; simpl in *; [|discriminate].
    destruct (mapM f l) as [t|] eqn:E; simpl in Hr; [|discriminate].
    inversion Hr; subst. destruct (IH t eq_refl) as (t' & -> & Hp).
    simpl. eauto.
  - simpl in *. destruct (f y) as [b|]; simpl in *; [|discriminate].
    destruct (f x) as [c|]; simpl in *; [|discriminate].
    destruct (mapM f l) as [t|]; simpl in *; [|discriminate].
    inversion Hr; subst. eexists. split; [reflexivity | constructor].
  - destruct (IH1 r Hr) as (r' & H1 & P1).
    destruct (IH2 r' H1) as (r'' & H2 & P2).
    exists r''. split; [assumption | now transitivity r'].
Qed.

Lemma filter_partition_perm {A : Type} (p : A -> bool) (l : list A) :
  Permutation (filter p l ++ filter (fun x => negb (p x)) l) l.
Proof.
  induction l as [|a t IH]; simpl; [constructor|].
  destruct (p a); simpl.
  - now constructor.
  - symmetry. apply Permutation_cons_app. now symmetry.
Qed.

Lemma filter_perm_length {A : Type} (p : A -> bool) (l l' : list A) :
  Permutation l l' -> length (filter p l) = length (filter p l').
Proof.
  induction 1; simpl; repeat destruct (p _); simpl; congruence.
Qed.

Lemma count_key_keys (k : Key) (log : list InteractionRecord) :
  count_key k log = length (filter (fun x => key_eqb x k) (map key_of log)).
Proof.
  unfold count_key. now rewrite filter_map_comm, length_map.
Qed.

Lemma group_skip_absent (r : InteractionRecord) (t : list InteractionRecord)
      (users : list UserId) :
  ~ In (user_id r) users ->
  flat_map (fun u => filter (fun x => (user_id x =? u)%Z) (r :: t)) users
  = flat_map (fun u => filter (fun x => (user_id x =? u)%Z) t) users.
Proof.
  induction users as [|v vs IH]; simpl; intros X; [reflexivity|].
  destruct (Z.eqb_spec (user_id r) v) as [E|_];
    [exfalso; apply X; auto|].
  f_equal. apply IH. intros H. apply X. auto.
Qed.

Lemma group_insert (r : InteractionRecord) (t : list InteractionRecord)
      (users : list UserId) :
  NoDup users -> In (user_id r) users ->
  Permutation
    (flat_map (fun u => filter (fun x => (user_id x =? u)%Z) (r :: t)) users)
    (r :: flat_map (fun u => filter (fun x => (user_id x =? u)%Z) t) users).
Proof.
  induction 1 as [|u us Hu Hnd IH]; intros Hr; [contradiction|].
  set (F := fun u => filter (fun x => (user_id x =? u)%Z) (r :: t)) in *.
  set (G := fun u => filter (fun x => (user_id x =? u)%Z) t) in *.
  change (Permutation (F u ++ flat_map F us) (r :: G u ++ flat_map G us)).
  assert (EF : F u = if (user_id r =? u)%Z then r :: G u else G u)
    by reflexivity.
  rewrite EF. clear EF.
  destruct (Z.eqb_spec (user_id r) u) as [E|N].
  - unfold F, G. rewrite group_skip_absent by (now rewrite E).
    apply Permutation_refl.
  - destruct Hr as [Hr|Hr]; [congruence|].
    rewrite (IH Hr). symmetry. apply Permutation_middle.
Qed.

Lemma group_by_user_perm (log : list InteractionRecord) (users : list UserId) :
  NoDup users -> (forall r, In r log -> In (user_id r) users) ->
  Permutation (flat_map (fun u => filter (fun r => (user_id r =? u)%Z) log) users)
              log.
Proof.
  intros Hnd. induction log as [|r t IH]; intros Hall.
  - simpl. rewrite flat_map_nil. constructor.
  - rewrite group_insert by (try assumption; apply Hall; simpl; auto).
    constructor. apply IH. intros x Hx. apply Hall. simpl; auto.
Qed.

Lemma count_key_unique (log : list InteractionRecord) (r : InteractionRecord) :
  NoDup (map key_of log) -> In r log -> count_key (key_of r) log = 1.
Proof.
  unfold count_key. induction log as [|a t IH]; simpl; intros Hnd Hr;
    [contradiction|].
  inversion Hnd as [|x l Hx Ht]; subst.
  destruct (key_eqb (key_of a) (key_of r)) eqn:E.
  - apply key_eqb_eq in E. simpl. f_equal.
    destruct (filter _ t) as [|b u] eqn:F; [reflexivity|].
    exfalso. apply Hx.
    assert (Hb : In b (filter (fun x => key_eqb (key_of x) (key_of r)) t))
      by (rewrite F; simpl; auto).
    apply filter_In in Hb as [Hb Eb]. apply key_eqb_eq in Eb.
    rewrite E, <- Eb. now apply in_map.
  - destruct Hr as [->|Hr]; [|now apply IH].
    assert (X : key_eqb (key_of r) (key_of r) = true) by now apply key_eqb_eq.
    congruence.
Qed.

Lemma merge_inner_keys (left right : list InteractionRecord) :
  map key_of (ALSModel.merge_inner left right)
  = flat_map (fun l => repeat (key_of l) (count_key (key_of l) right)) left.
Proof.
  unfold ALSModel.merge_inner. rewrite map_over_flat_map.
  apply flat_map_ext. intros l. rewrite map_map. unfold count_key.
  apply (map_const_repeat (key_of l)).
Qed.

Section ALSRows.

Variable self : ALSModel.Model.
Variable user_item_data : list InteractionRecord.

Hypothesis map_round_trip :
  forall item ix, dict_lookup (ALSModel.item_map self) item = Some ix ->
                  ALSModel.np_index (ALSModel.item_index self) ix = Some item.

Hypothesis rank_returns_requested :
  forall user_ix log item_ix,
    Permutation (map fst (ALSModel.rank_items self user_ix log item_ix)) item_ix.

Lemma als_known_rows (item_list : list ItemId) :
  mapM (ALSModel.np_index (ALSModel.item_index self))
       (flat_map (fun item => match dict_lookup (ALSModel.item_map self) item with
                              | Some ix => [ix]
                              | None => []
                              end) item_list)
  = Some (filter (ALSModel.in_dict (ALSModel.item_map self)) item_list).
Proof.
  induction item_list as [|item t IH]; simpl; [reflexivity|].
  unfold ALSModel.in_dict at 1.
  destruct (dict_lookup (ALSModel.item_map self) item) as [ix|] eqn:E;
    [|exact IH].
  simpl. rewrite (map_round_trip _ E). simpl. now rewrite IH.
Qed.

Lemma als_ranked_rows (user : UserId) (ranked : list (Z * Q))
      (rows : list InteractionRecord) :
  mapM (fun p => item <- ALSModel.np_index (ALSModel.item_index self) (fst p) ;;
                 Some (mkRecord user item (snd p))) ranked = Some rows ->
  mapM (ALSModel.np_index (ALSModel.item_index self)) (map fst ranked)
  = Some (map item_id rows)
  /\ map key_of rows = map (pair user) (map item_id rows).
Proof.
  revert rows; induction ranked as [|p t IH]; simpl; intros rows H.
  - inversion H. split; reflexivity.
  - destruct (ALSModel.np_index (ALSModel.item_index self) (fst p)) as [item|];
      simpl in *; [|discriminate].
    destruct (mapM _ t) as [r|]; simpl in H; [|discriminate].
    inversion H; subst. destruct (IH r eq_refl) as [-> E]. simpl.
    split; [reflexivity|]. unfold key_of at 1. simpl. now rewrite E.
Qed.

Lemma als_predict_user_keys (user : UserId) (item_list : list ItemId)
      (rows : list InteractionRecord) :
  ALSModel.predict_user self user_item_data user item_list = Some rows ->
  Permutation (map key_of rows) (map (pair user) item_list).
Proof.
  unfold ALSModel.predict_user.
  destruct (_ =? -1)%Z.
  - intros [= <-]. rewrite map_map. apply Permutation_refl.
  - set (item_ix := flat_map _ item_list).
    intros H. apply bind_Some_inv in H as (ranked & Hr & [= <-]).
    rewrite map_app, map_map. cbn [key_of user_id item_id].
    rewrite <- (filter_partition_perm
                  (ALSModel.in_dict (ALSModel.item_map self)) item_list) at 2.
    rewrite map_app. apply Permutation_app; [|apply Permutation_refl].
    destruct (0 <? length item_ix) eqn:E.
    + apply als_ranked_rows in Hr as [Hm ->].
      apply Permutation_map.
      destruct (mapM_perm _ (rank_returns_requested
                               (dict_get (ALSModel.user_map self) user (-1)%Z)
                               user_item_data item_ix) Hm) as (r' & Hr' & P).
      unfold item_ix in Hr'. rewrite als_known_rows in Hr'.
      inversion Hr'; subst. exact P.
    + inversion Hr; subst. simpl.
      apply Nat.ltb_ge in E.
      assert (X : item_ix = []) by (destruct item_ix; simpl in E; [auto | lia]).
      pose proof (als_known_rows item_list) as K. fold item_ix in K.
      rewrite X in K. inversion K. constructor.
Qed.

Lemma als_predicted_keys (df_log_predict rows : list InteractionRecord) :
  ALSModel.predicted_rows self user_item_data df_log_predict = Some rows ->
  Permutation (map key_of rows) (map key_of df_log_predict).
Proof.
  unfold ALSModel.predicted_rows, ALSModel.for_predict.
  intros H. apply bind_Some_inv in H as (rs & Hrs & [= <-]).
  set (users := np_sort (uniqueZ (map user_id df_log_predict))) in *.
  transitivity
    (map key_of
         (flat_map (fun u => filter (fun r => (user_id r =? u)%Z) df_log_predict)
                   users)).
  - clear -Hrs map_round_trip rank_returns_requested.
    revert rs Hrs. induction users as [|u us IH]; simpl; intros rs Hrs.
    + inversion Hrs. constructor.
    + apply bind_Some_inv in Hrs as (rows & Hu & Hrs).
      apply bind_Some_inv in Hrs as (rest & Hus & [= <-]).
      simpl. rewrite !map_app. apply Permutation_app; [|now apply IH].
      rewrite (als_predict_user_keys _ _ Hu). rewrite map_map.
      erewrite map_ext_in; [apply Permutation_refl|].
      intros r Hr. apply filter_In in Hr as [_ E]. apply Z.eqb_eq in E.
      unfold key_of. now rewrite E.
  - apply Permutation_map, group_by_user_perm.
    + unfold users. eapply Permutation_NoDup;
        [symmetry; apply np_sort_perm | apply uniqueZ_NoDup].
    + intros r Hr. apply sorted_unique_In. now apply in_map.
Qed.

End ALSRows.

(** X18: [model_predict] of a trained factorization adapter, for a ranking
    routine that returns every requested row once: the call raises when the
    builder of the sparse matrix rejects the exclusion log; otherwise it
    returns, and each row of the request comes back once per occurrence of
    its (user, item) pair in the request, in the order of the request. A
    request with distinct pairs therefore comes back pair by pair, and a
    pair that stands n times in the request stands n * n times in the
    result. *)
Theorem als_model_predict_rows (pn : bool)
        (fitted : Z -> list InteractionRecord -> list Z -> list (Z * Q))
        (get_item_user_matrix
         : list InteractionRecord -> option (list InteractionRecord))
        (df_log df_log_exclude df_log_predict : list InteractionRecord) :
  (forall user_ix user_item_data item_ix,
      Permutation (map fst (fitted user_ix user_item_data item_ix)) item_ix) ->
  match get_item_user_matrix df_log_exclude with
  | None =>
      ALSModel.model_predict (ALSModel.model_train pn fitted df_log)
                             get_item_user_matrix df_log_exclude df_log_predict
      = None
  | Some _ =>
      exists out,
        ALSModel.model_predict (ALSModel.model_train pn fitted df_log)
                               get_item_user_matrix df_log_exclude df_log_predict
        = Some out
        /\ map key_of out
           = flat_map (fun r => repeat (key_of r)
                                       (count_key (key_of r) df_log_predict))
                      df_log_predict
        /\ length df_log_predict <= length out
        /\ (NoDup (map key_of df_log_predict) ->
            map key_of out = map key_of df_log_predict)
  end.
Proof.
  intros Hperm.
  destruct (get_item_user_matrix df_log_exclude) as [user_item_data|] eqn:Hbuilt;
    [|unfold ALSModel.model_predict; now rewrite Hbuilt].
  set (self := ALSModel.model_train pn fitted df_log).
  destruct (als_model_train_well_formed pn fitted df_log) as [Hrange Hcover].
  fold self in Hrange, Hcover.
  assert (Hround : forall item ix,
             dict_lookup (ALSModel.item_map self) item = Some ix ->
             ALSModel.np_index (ALSModel.item_index self) ix = Some item).
  { intros item ix H. simpl in H.
    now apply enumerate_map_spec in H as [_ H]; [|apply unique_first_NoDup]. }
  assert (Hrank : ALSModel.rank_items_in_range self).
  { intros user_ix log item_ix p Hall Hp. apply Hall.
    eapply Permutation_in; [apply (Hperm user_ix log item_ix)|].
    now apply in_map. }
  destruct (@als_predicted_rows_total self user_item_data df_log_predict
              Hrank Hrange) as (rows & Hrows).
  pose proof (@als_predicted_keys self user_item_data Hround Hperm
                df_log_predict rows Hrows) as Hkeys.
  assert (Hcount : forall k, count_key k rows = count_key k df_log_predict).
  { intros k. rewrite !count_key_keys. now apply filter_perm_length. }
  assert (Hout : map key_of (map (ALSModel.rescale self)
                                 (ALSModel.merge_inner df_log_predict rows))
                 = flat_map (fun r => repeat (key_of r)
                                             (count_key (key_of r) df_log_predict))
                            df_log_predict).
  { rewrite map_map.
    erewrite map_ext; [|intros; apply als_rescale_key].
    rewrite merge_inner_keys. apply flat_map_ext. intros r.
    now rewrite Hcount. }
  assert (Hpos : forall r, In r df_log_predict ->
                           1 <= count_key (key_of r) df_log_predict).
  { intros r Hr. unfold count_key.
    assert (X : In r (filter (fun x => key_eqb (key_of x) (key_of r))
                             df_log_predict))
      by (apply filter_In; split; [assumption | now apply key_eqb_eq]).
    destruct (filter _ df_log_predict); [contradiction | simpl; lia]. }
  exists (map (ALSModel.rescale self) (ALSModel.merge_inner df_log_predict rows)).
  split; [|split; [exact Hout | split]].
  - unfold ALSModel.model_predict. fold self. rewrite Hbuilt. simpl bind.
    now rewrite Hrows.
  - rewrite <- (length_map key_of (map _ _)), Hout.
    rewrite flat_map_concat_map, length_concat, map_map.
    erewrite map_ext; [|intros; apply repeat_length].
    now apply sum_of_positives.
  - intros Hnd. rewrite Hout, flat_map_concat_map. f_equal.
    rewrite <- (flat_map_singleton key_of), flat_map_concat_map.
    f_equal. apply map_ext_in. intros r Hr.
    now rewrite count_key_unique.
Qed.

Lemma als_model_predict_rows_witness :
  exists out,
    ALSModel.model_predict (Examples.als false) Examples.builds_every_log []
                           [mkRecord Examples.u1 Examples.i1 0%Q;
                            mkRecord Examples.u2 Examples.i2 0%Q;
                            mkRecord Examples.u1 Examples.i1 0%Q]
    = Some out
    /\ 3 <= length out.
Proof.
  destruct (@als_model_predict_rows
              false (fun _ _ item_ix => map (fun ix => (ix, 1%Q)) item_ix)
              Examples.builds_every_log
              [mkRecord Examples.u1 Examples.i1 1%Q] []
              [mkRecord Examples.u1 Examples.i1 0%Q;
               mkRecord Examples.u2 Examples.i2 0%Q;
               mkRecord Examples.u1 Examples.i1 0%Q])
    as (out & H & _ & Hlen & _).
  - intros user_ix log item_ix. rewrite map_map. simpl. rewrite map_id.
    apply Permutation_refl.
  - exists out. split; [exact H | exact Hlen].
Defined.
